(** * mysqlx connection layer: failover, pooling, penalties, prepared pipeline

    A shallow embedding of [lib/mysqlx/connection.py].  Python objects that
    are mutated in place are threaded explicitly: every operation returns
    the updated object next to its result.  The clock, the random number
    generator, the network and the wire codec are parameters. *)

From Stdlib Require Import ZArith String Ascii List Bool Lia DecimalString.
From stdpp Require Import base option list gmap strings sorting.

Local Open Scope string_scope.
Local Open Scope Z_scope.

(** ** Python-level helpers *)

Module Py.

(** Exceptions of the modelled code.  The payload of the mysqlx errors
    is the message and the optional numeric code. *)
Inductive exn : Type :=
| InterfaceError (msg : string) (code : option Z)
| TimeoutError (msg : string)
| PoolError (msg : string)
| ProgrammingError (msg : string) (code : Z)
| AttributeError (msg : string)
| NotSupportedError
| KeyError
| IndexError
| ValueError
| QueueFull
| QueueEmpty
| OverflowError
| OtherError (msg : string).

(** Outcome of a call: a value or a raised exception. *)
Inductive result (A : Type) : Type :=
| Ok (a : A)
| Raise (e : exn).
Arguments Ok {A} a.
Arguments Raise {A} e.

(** [sub in s] on Python strings. *)
Fixpoint contains (sub s : string) : bool :=
  if String.prefix sub s then true
  else match s with
       | EmptyString => false
       | String _ s' => contains sub s'
       end.

(** Truth value of a penalty variable that is [None] or an int. *)
Definition truthy (p : option Z) : bool :=
  match p with
  | None => false
  | Some v => negb (v =? 0)
  end.

(** [str(n)] for an int; the interpreter's cap on the number of digits
    of a conversion is left out. *)
Definition str_int (n : Z) : string :=
  DecimalString.NilZero.string_of_int (Z.to_int n).

(** [str(x)] for an optional int ([None] prints as "None"). *)
Definition str_opt_int (n : option Z) : string :=
  match n with
  | None => "None"
  | Some v => str_int v
  end.

(** *** [int / int] and [int(float)] *)

(** The integer nearest to [n / d], for [0 <= n] and [0 < d]; a tie
    goes to the even one. *)
Definition round_half_even (n d : Z) : Z :=
  let q := n / d in
  match 2 * (n mod d) ?= d with
  | Lt => q
  | Gt => q + 1
  | Eq => if Z.even q then q else q + 1
  end.

(** [floor(log2(n / d))] for [0 < n] and [0 < d]. *)
Definition quotient_log2 (n d : Z) : Z :=
  let l := Z.log2 n - Z.log2 d in
  if (if 0 <=? l then d * 2 ^ l <=? n else d <=? n * 2 ^ (- l)) then l else l - 1.

(** A finite float that is not negative, [mantissa * 2 ^ exponent]
    with a mantissa below [2 ^ 53]. *)
Record float : Type := {
  mantissa : Z;
  exponent : Z
}.

(** [a / b] for ints [0 <= a] and [0 < b]: the quotient rounded to the
    nearest float, with 53 bits of mantissa and an exponent of -1074 at
    least; a quotient that rounds to [2 ^ 1024] or more is too large
    for a float. *)
Definition int_truediv (a b : Z) : result float :=
  let e := Z.max (quotient_log2 a b - 52) (-1074) in
  let m := if 0 <=? e then round_half_even a (b * 2 ^ e)
           else round_half_even (a * 2 ^ (- e)) b in
  if (0 <=? e) && (2 ^ 1024 <=? m * 2 ^ e) then
    Raise OverflowError
  else Ok {| mantissa := m; exponent := e |}.

(** [int(x)] for such a float. *)
Definition int_of_float (x : float) : Z :=
  if 0 <=? exponent x then mantissa x * 2 ^ exponent x
  else mantissa x / 2 ^ (- exponent x).

(** *** [datetime] and [timedelta] *)

(** A [datetime] is counted in microseconds from [datetime.min], the
    first instant of year 1; [datetime.max] is the last microsecond of
    year 9999, 3652059 days later. *)
Definition datetime_max : Z := 3652059 * 86400 * 1000000 - 1.

Definition is_datetime (t : Z) : bool := (0 <=? t) && (t <=? datetime_max).

(** [timedelta(seconds=n)] for an int [n], in microseconds; the days
    of a [timedelta] are within 999999999 of zero. *)
Definition timedelta_seconds (n : Z) : result Z :=
  if (-999999999 <=? n / 86400) && (n / 86400 <=? 999999999) then Ok (n * 1000000)
  else Raise OverflowError.

(** [stamp + delta] for a [datetime] and a [timedelta]. *)
Definition datetime_add (stamp delta : Z) : result Z :=
  if is_datetime (stamp + delta) then Ok (stamp + delta)
  else Raise OverflowError.

End Py.

Import Py.

(** ** ConnectionPool *)

Module ConnectionPool.

(** What the pool looks at in a [PooledConnection]: its identity and the
    server-disconnected flag. *)
Record PooledConnection : Type := {
  cnx_id : nat;
  _server_disconnected : bool
}.

(** An argument of [add_connection]/[queue_connection]: nothing, a
    pooled connection, or an object of another class. *)
Inductive cnx_arg : Type :=
| NoCnx
| Pooled (c : PooledConnection)
| NotPooled.

(** Keyword arguments of the constructor ([host] and [port] are read
    with [kwargs[...]] and so are mandatory). *)
Record kwargs : Type := {
  kw_max_size : option Z;
  kw_reset_session : option bool;
  kw_max_idle_time : option Z;
  kw_queue_timeout : option Z;
  kw_priority : option Z;
  kw_host : string;
  kw_port : Z
}.

(** The pool object.  [maxsize] and [queue] are the state inherited from
    [queue.Queue]; time stamps are microseconds on the clock. *)
Record t : Type := {
  name : string;
  _connections_openned : list PooledConnection;
  _available : bool;
  _timeout : Z;
  _timeout_stamp : Z;
  pool_max_size : Z;
  maxsize : Z;
  queue : list PooledConnection;
  reset_session : bool;
  max_idle_time : Z;
  queue_timeout : Z;
  priority : Z;
  cnx_config : kwargs
}.

Definition _CNX_POOL_MAX_NAME_SIZE : nat := 120.

(** Characters outside [[^a-zA-Z0-9._:\-*$#]]. *)
Definition name_char_ok (c : ascii) : bool :=
  let n := Z.of_N (N_of_ascii c) in
  ((97 <=? n) && (n <=? 122)) || ((65 <=? n) && (n <=? 90))
  || ((48 <=? n) && (n <=? 57))
  || (n =? 46) || (n =? 95) || (n =? 58) || (n =? 45)
  || (n =? 42) || (n =? 36) || (n =? 35).

Definition _set_pool_name (pool_name : string) : result string :=
  if negb (forallb name_char_ok (list_ascii_of_string pool_name)) then
    Raise (AttributeError ("Pool name '" ++ pool_name ++ "' contains illegal characters")%string)
  else if (_CNX_POOL_MAX_NAME_SIZE <? String.length pool_name)%nat then
    Raise (AttributeError ("Pool name '" ++ pool_name ++ "' is too long")%string)
  else Ok pool_name.

(** [ConnectionPool.__init__(name, **kwargs)] at clock value [now]. *)
Definition __init__ (pool_name : string) (kw : kwargs) (now : Z) : result t :=
  match _set_pool_name pool_name with
  | Raise e => Raise e
  | Ok nm =>
      let max_size := default 25 (kw_max_size kw) in
      Ok {| name := nm;
            _connections_openned := [];
            _available := true;
            _timeout := 0;
            _timeout_stamp := now;
            pool_max_size := max_size;
            maxsize := max_size;
            queue := [];
            reset_session := default true (kw_reset_session kw);
            max_idle_time := default 25 (kw_max_idle_time kw);
            queue_timeout := default 25 (kw_queue_timeout kw);
            priority := default 0 (kw_priority kw);
            cnx_config := kw |}
  end.

(** *** The inherited bounded queue ([queue.Queue]) *)

Definition qsize (p : t) : Z := Z.of_nat (length (queue p)).

(** [Queue.full]: a queue whose [maxsize] is not positive is never full. *)
Definition full (p : t) : bool := (0 <? maxsize p) && (maxsize p <=? qsize p).

Definition set_queue (p : t) (q : list PooledConnection) : t :=
  {| name := name p; _connections_openned := _connections_openned p;
     _available := _available p; _timeout := _timeout p;
     _timeout_stamp := _timeout_stamp p; pool_max_size := pool_max_size p;
     maxsize := maxsize p; queue := q; reset_session := reset_session p;
     max_idle_time := max_idle_time p; queue_timeout := queue_timeout p;
     priority := priority p; cnx_config := cnx_config p |}.

Definition set_openned (p : t) (l : list PooledConnection) : t :=
  {| name := name p; _connections_openned := l;
     _available := _available p; _timeout := _timeout p;
     _timeout_stamp := _timeout_stamp p; pool_max_size := pool_max_size p;
     maxsize := maxsize p; queue := queue p; reset_session := reset_session p;
     max_idle_time := max_idle_time p; queue_timeout := queue_timeout p;
     priority := priority p; cnx_config := cnx_config p |}.

(** [Queue.put(item, block=False)]. *)
Definition put_nowait (p : t) (c : PooledConnection) : result unit * t :=
  if full p then (Raise QueueFull, p)
  else (Ok tt, set_queue p (queue p ++ [c])).

(** [Queue.get(block=True, timeout=t)] with no other thread around: an
    empty queue stays empty until the timeout expires. *)
Definition get (p : t) (timeout : Z) : result PooledConnection * t :=
  if timeout <? 0 then (Raise ValueError, p)
  else match queue p with
       | [] => (Raise QueueEmpty, p)
       | c :: q => (Ok c, set_queue p q)
       end.

(** *** Health *)

Definition open_connections (p : t) : Z := Z.of_nat (length (_connections_openned p)).

Definition available (p : t) : bool := _available p.

(** [set_unavailable(time_out)] at clock value [now]. *)
Definition set_unavailable (p : t) (time_out : Z) (now : Z) : t :=
  if _available p then
    {| name := name p; _connections_openned := _connections_openned p;
       _available := false; _timeout := time_out;
       _timeout_stamp := now; pool_max_size := pool_max_size p;
       maxsize := maxsize p; queue := queue p; reset_session := reset_session p;
       max_idle_time := max_idle_time p; queue_timeout := queue_timeout p;
       priority := priority p; cnx_config := cnx_config p |}
  else p.

(** [set_available()] at clock value [now]. *)
Definition set_available (p : t) (now : Z) : t :=
  {| name := name p; _connections_openned := _connections_openned p;
     _available := true; _timeout := _timeout p;
     _timeout_stamp := now; pool_max_size := pool_max_size p;
     maxsize := maxsize p; queue := queue p; reset_session := reset_session p;
     max_idle_time := max_idle_time p; queue_timeout := queue_timeout p;
     priority := priority p; cnx_config := cnx_config p |}.

Definition get_timeout_stamp (p : t) : Z * Z := (_timeout p, _timeout_stamp p).

(** *** Connections of the pool *)

(** What the world outside the pool does when the pool calls into a
    connection. *)
Inductive close_outcome : Type :=
| Closed
| CloseCaught
| CloseUncaught (e : exn).

Record env : Type := {
  (** [PooledConnection(self)] and the version and wait-timeout
      statements run on it *)
  new_connection : result PooledConnection;
  (** [cnx.reset_session()] *)
  reset_session_outcome : PooledConnection -> result unit;
  (** [cnx.close_connection()]; [CloseCaught] is an error of one of the
      classes the caller catches *)
  close_connection_outcome : PooledConnection -> close_outcome
}.

(** [list.remove(x)]: drops the first element equal to [x]. *)
Fixpoint list_remove (c : PooledConnection) (l : list PooledConnection)
  : option (list PooledConnection) :=
  match l with
  | [] => None
  | x :: l' =>
      if (cnx_id x =? cnx_id c)%nat then Some l'
      else match list_remove c l' with
           | None => None
           | Some r => Some (x :: r)
           end
  end.

Definition remove_connection (p : t) (cnx : PooledConnection) : result unit * t :=
  match list_remove cnx (_connections_openned p) with
  | None => (Raise ValueError, p)
  | Some l => (Ok tt, set_openned p l)
  end.

Definition track_connection (p : t) (cnx : PooledConnection) : t :=
  set_openned p (_connections_openned p ++ [cnx]).

(** The loop of [remove_connections], by recursion on the idle
    connections still queued ([items] is [queue p] on entry). *)
Fixpoint remove_connections_from (ev : env) (items : list PooledConnection) (p : t)
  : result unit * t :=
  match items with
  | [] => (Ok tt, p)
  | _ :: rest =>
      match get p (queue_timeout p) with
      | (Raise QueueEmpty, p1) => remove_connections_from ev rest p1
      | (Raise e, p1) => (Raise e, p1)
      | (Ok cnx, p1) =>
          let closed := close_connection_outcome ev cnx in
          match remove_connection p1 cnx with
          | (Raise e, p2) => (Raise e, p2)
          | (Ok _, p2) =>
              match closed with
              | CloseUncaught e => (Raise e, p2)
              | _ => remove_connections_from ev rest p2
              end
          end
      end
  end.

Definition remove_connections (ev : env) (p : t) : result unit * t :=
  remove_connections_from ev (queue p) p.

Definition queue_connection (ev : env) (p : t) (cnx : cnx_arg) : result unit * t :=
  match cnx with
  | Pooled c =>
      let reset := if reset_session p then reset_session_outcome ev c else Ok tt in
      match reset with
      | Raise e => (Raise e, p)
      | Ok _ =>
          match put_nowait p c with
          | (Raise QueueFull, p1) =>
              (Raise (PoolError "Failed adding connection; queue is full"), p1)
          | r => r
          end
      end
  | _ => (Raise (PoolError "Connection instance not subclass of PooledSession."), p)
  end.

(** [not self.cnx_config]: the keyword dictionary always holds [host]
    and [port]. *)
Definition cnx_config_empty (kw : kwargs) : bool := false.

(** [add_connection(cnx)].  [PooledConnection] has no [close] method, so
    the branch for a server-disconnected connection ends in
    [AttributeError] after the idle connections were removed. *)
Definition add_connection (ev : env) (p : t) (cnx : cnx_arg) : result unit * t :=
  if cnx_config_empty (cnx_config p) then
    (Raise (PoolError "Connection configuration not available"), p)
  else if full p then
    (Raise (PoolError "Failed adding connection; queue is full"), p)
  else
    match cnx with
    | NoCnx =>
        match new_connection ev with
        | Raise e => (Raise e, p)
        | Ok c =>
            queue_connection ev (set_openned p (_connections_openned p ++ [c])) (Pooled c)
        end
    | NotPooled =>
        (Raise (PoolError "Connection instance not subclass of PooledSession"), p)
    | Pooled c =>
        if _server_disconnected c then
          match remove_connections ev p with
          | (Raise e, p1) => (Raise e, p1)
          | (Ok _, p1) =>
              (Raise (AttributeError "'PooledConnection' object has no attribute 'close'"), p1)
          end
        else queue_connection ev p cnx
    end.

(** Calls that reach a pool after its construction. *)
Inductive op : Type :=
| AddConnection (ev : env) (cnx : cnx_arg)
| QueueConnection (ev : env) (cnx : cnx_arg)
| RemoveConnections (ev : env)
| Get (timeout : Z)
| TrackConnection (cnx : PooledConnection)
| RemoveConnection (cnx : PooledConnection)
| SetUnavailable (time_out : Z) (now : Z)
| SetAvailable (now : Z).

Definition apply (p : t) (o : op) : t :=
  match o with
  | AddConnection ev cnx => snd (add_connection ev p cnx)
  | QueueConnection ev cnx => snd (queue_connection ev p cnx)
  | RemoveConnections ev => snd (remove_connections ev p)
  | Get timeout => snd (get p timeout)
  | TrackConnection cnx => track_connection p cnx
  | RemoveConnection cnx => snd (remove_connection p cnx)
  | SetUnavailable time_out now => set_unavailable p time_out now
  | SetAvailable now => set_available p now
  end.

Definition run (p : t) (ops : list op) : t := fold_left apply ops p.

(** The pool keeps its capacity [M] and its queue stays within it. *)
Definition bounded (M : Z) (p : t) : Prop :=
  (maxsize p = M /\ pool_max_size p = M) /\ qsize p <= M.

End ConnectionPool.

(** ** PoolsManager: penalties and the unavailable-pool scan *)

Module PoolsManager.

(* Time is on seconds *)
Definition _PENALTY_SERVER_OFFLINE : Z := 1000000.
Definition _PENALTY_MAXED_OUT : Z := 60.
Definition _PENALTY_NO_ADD_INFO : Z := 60 * 60.
Definition _PENALTY_CONN_TIMEOUT : Z := 60 * 60.
Definition _PENALTY_WRONG_PASSW : Z := 60 * 60 * 24.
Definition _PENALTY_RESTARTING : Z := 60.

(** The message table, in the insertion order in which [dict.items()]
    yields it. *)
Definition _TIMEOUT_PENALTIES : list (string * Z) :=
  [ ("[WinError 10053]", _PENALTY_MAXED_OUT);
    ("[Errno 32]", _PENALTY_MAXED_OUT);
    ("[WinError 10061]", _PENALTY_SERVER_OFFLINE);
    ("[Errno 111]", _PENALTY_SERVER_OFFLINE);
    ("[WinError 10060]", _PENALTY_CONN_TIMEOUT);
    ("[Errno 11001]", _PENALTY_NO_ADD_INFO);
    ("[Errno -2]", _PENALTY_NO_ADD_INFO);
    ("Access denied", _PENALTY_WRONG_PASSW) ].

(** The code table as the module starts with it.  The table is a
    dictionary of the module that [update_timeout_penalties_by_error]
    changes; the functions below take its current value, a map from
    int codes to int seconds. *)
Definition _TIMEOUT_PENALTIES_BY_ERR_NO : gmap Z Z :=
  {[ 1053 := _PENALTY_RESTARTING ]}.

(** [update_timeout_penalties_by_error(penalty_dict)] on the table
    [by_err_no]; [penalty_dict] is [None] for an argument that is not a
    dict.  [dict.update] lets the entries of the argument replace those
    of the table. *)
Definition update_timeout_penalties_by_error (by_err_no : gmap Z Z)
    (penalty_dict : option (gmap Z Z)) : gmap Z Z :=
  match penalty_dict with
  | Some d => if bool_decide (d = ∅) then by_err_no else d ∪ by_err_no
  | None => by_err_no
  end.

(** The error handed to [set_pool_unavailable]: [errno] is [None] for
    an exception object without that attribute. *)
Record error : Type := {
  errno : option Z;
  msg : string
}.

(** The [try] block: [AttributeError] and [KeyError] leave [penalty] at
    [None]. *)
Definition penalty_by_err_no (by_err_no : gmap Z Z) (err : error) : option Z :=
  match errno err with
  | None => None
  | Some err_no => by_err_no !! err_no
  end.

(** The [for key, value in _TIMEOUT_PENALTIES.items()] loop: every
    matching key overwrites [penalty]. *)
Definition penalty_by_msg (penalty : option Z) (err_msg : string) : option Z :=
  fold_left
    (fun penalty kv => if contains (fst kv) err_msg then Some (snd kv) else penalty)
    _TIMEOUT_PENALTIES penalty.

(** The value [set_pool_unavailable] passes to [pool.set_unavailable]. *)
Definition penalty_of (by_err_no : gmap Z Z) (err : error) : Z :=
  let penalty := penalty_by_err_no by_err_no err in
  let penalty :=
    if negb (truthy penalty) then penalty_by_msg penalty (msg err) else penalty in
  match penalty with
  | Some v => if truthy penalty then v else 100000
  | None => 100000
  end.

Definition set_pool_unavailable (by_err_no : gmap Z Z) (pool : ConnectionPool.t)
    (err : error) (now : Z) : ConnectionPool.t :=
  ConnectionPool.set_unavailable pool (penalty_of by_err_no err) now.

(** [timeout_stamp + timedelta(seconds=timeout)], the end of a penalty:
    it raises when the seconds are no [timedelta] or the sum is no
    [datetime]. *)
Definition penalty_end (timeout_stamp timeout : Z) : result Z :=
  match timedelta_seconds timeout with
  | Raise e => Raise e
  | Ok delta => datetime_add timeout_stamp delta
  end.

(** Body of the loop of [_check_unavailable_pools] for one pool; [revive]
    is the optional override of the penalty.  The pool is returned as
    the body leaves it; when the body raises, the pool is as before. *)
Definition check_pool (revive : option Z) (now : Z) (pool : ConnectionPool.t)
  : result ConnectionPool.t :=
  if ConnectionPool.available pool then Ok pool
  else
    let '(timeout, timeout_stamp) := ConnectionPool.get_timeout_stamp pool in
    let timeout := match revive with
                   | Some r => if truthy revive then r else timeout
                   | None => timeout
                   end in
    match penalty_end timeout_stamp timeout with
    | Raise e => Raise e
    | Ok stamp =>
        if stamp <? now then Ok (ConnectionPool.set_available pool now) else Ok pool
    end.

(** [_check_unavailable_pools] over the pools that [_get_pools(settings)]
    returned: the outcome and the pools as the loop leaves them.  A
    pool whose check raises ends the loop, the pools behind it
    unvisited. *)
Fixpoint _check_unavailable_pools (pools : list ConnectionPool.t)
    (revive : option Z) (now : Z) : result unit * list ConnectionPool.t :=
  match pools with
  | [] => (Ok tt, [])
  | pool :: rest =>
      match check_pool revive now pool with
      | Raise e => (Raise e, pool :: rest)
      | Ok pool' =>
          let '(r, rest') := _check_unavailable_pools rest revive now in
          (r, pool' :: rest')
      end
  end.

(** What can happen to a pool during a penalty window: an availability
    scan, another error reported for it, or an update of the code
    table. *)
Inductive event : Type :=
| Scan (now : Z)
| Failure (err : error) (now : Z)
| Exhausted (now : Z)
| UpdatePenalties (penalty_dict : option (gmap Z Z)).


(** The code table and the pool that is watched. *)
Record state : Type := {
  table : gmap Z Z;
  watched : ConnectionPool.t
}.

(** One event: its outcome and the state it leaves.  [Exhausted] is
    the [pool.set_unavailable(2)] of [get_connection]. *)
Definition step (st : state) (e : event) : result unit * state :=
  match e with
  | Scan now =>
      match check_pool None now (watched st) with
      | Raise e => (Raise e, st)
      | Ok pool' => (Ok tt, {| table := table st; watched := pool' |})
      end
  | Failure err now =>
      (Ok tt, {| table := table st;
                 watched := set_pool_unavailable (table st) (watched st) err now |})
  | Exhausted now =>
      (Ok tt, {| table := table st;
                 watched := ConnectionPool.set_unavailable (watched st) 2 now |})
  | UpdatePenalties penalty_dict =>
      (Ok tt, {| table := update_timeout_penalties_by_error (table st) penalty_dict;
                 watched := watched st |})
  end.

(** A sequence of events, each on the state the one before left, an
    exception being caught by the caller: the outcomes and the final
    state. *)
Fixpoint run (st : state) (es : list event) : list (result unit) * state :=
  match es with
  | [] => ([], st)
  | e :: es' =>
      let '(r, st1) := step st e in
      let '(rs, st2) := run st1 es' in
      (r :: rs, st2)
  end.


End PoolsManager.

(** ** Router and RouterManager *)

Module Router.

(** A dictionary of connection parameters as the settings hold it.
    [priority] and [available] are [None] when the key is absent. *)
Record params : Type := {
  host : string;
  port : option Z;
  socket : option string;
  priority : option Z;
  p_available : option bool
}.

(** A [Router]: the parameters plus the ["available"] entry. *)
Record t : Type := {
  r_params : params;
  r_available : bool
}.

(** [Router(connection_params)]. *)
Definition __init__ (connection_params : params) : t :=
  {| r_params := connection_params;
     r_available := default true (p_available connection_params) |}.

Definition available (r : t) : bool := r_available r.

Definition set_unavailable (r : t) : t :=
  {| r_params := r_params r; r_available := false |}.

Inductive connection_params : Type :=
| UnixSocket (path : string)
| HostPort (h : string) (p : option Z).

Definition get_connection_params (r : t) : connection_params :=
  match socket (r_params r) with
  | Some s => UnixSocket s
  | None => HostPort (host (r_params r)) (port (r_params r))
  end.

Definition set_priority (p : params) (pr : Z) : params :=
  {| host := host p; port := port p; socket := socket p;
     priority := Some pr; p_available := p_available p |}.

End Router.

(** The settings dictionary, one field per key the modelled code reads;
    [None] stands for an absent key. *)
Module Settings.

Record t : Type := {
  user : option string;
  password : option string;
  schema : option string;
  routers : option (list Router.params);
  host : option string;
  port : option Z;
  socket : option string;
  connect_timeout : option Z
}.

Definition set_routers (s : t) (l : list Router.params) : t :=
  {| user := user s; password := password s; schema := schema s;
     routers := Some l; host := host s; port := port s;
     socket := socket s; connect_timeout := connect_timeout s |}.

End Settings.

Module RouterManager.

Record t : Type := {
  _routers : list Router.params;
  _settings : Settings.t;
  _cur_priority_idx : nat;
  _can_failover : bool;
  _routers_directory : gmap Z (list Router.t);
  routers_priority_list : list Z
}.

(** The key of the sort and of the grouping, [router["priority"]]; the
    first loop of [_ensure_priorities] has stored one in every router. *)
Definition priority_key (r : Router.params) : Z := default 100 (Router.priority r).

(** First loop of [_ensure_priorities]: default the missing priorities
    and count them. *)
Fixpoint default_priorities (routers : list Router.params) (priority_count : Z)
  : list Router.params * result Z :=
  match routers with
  | [] => ([], Ok priority_count)
  | router :: rest =>
      match Router.priority router with
      | None =>
          let '(rest', r) := default_priorities rest (priority_count + 1) in
          (Router.set_priority router 100 :: rest', r)
      | Some priority =>
          if 100 <? priority then
            (router :: rest,
             Raise (ProgrammingError "The priorities must be between 0 and 100" 4007))
          else
            let '(rest', r) := default_priorities rest priority_count in
            (router :: rest', r)
      end
  end.

(** [list.sort(key=priority, reverse=True)]: descending and stable. *)
Fixpoint insert_desc (r : Router.params) (l : list Router.params) : list Router.params :=
  match l with
  | [] => [r]
  | x :: l' =>
      if priority_key x <=? priority_key r then r :: x :: l'
      else x :: insert_desc r l'
  end.

Definition sort_desc (l : list Router.params) : list Router.params :=
  fold_right insert_desc [] l.

(** Second loop: group the routers that share a priority. *)
Definition group_step (acc : gmap Z (list Router.t) * list Z) (router : Router.params)
  : gmap Z (list Router.t) * list Z :=
  let '(directory, priority_list) := acc in
  let priority := priority_key router in
  match directory !! priority with
  | None => (<[priority := [Router.__init__ router]]> directory,
             (priority_list ++ [priority])%list)
  | Some l => (<[priority := (l ++ [Router.__init__ router])%list]> directory,
               priority_list)
  end.

Definition group (routers : list Router.params) : gmap Z (list Router.t) * list Z :=
  fold_left group_step routers (∅, []).

(** [RouterManager(routers, settings)], with [_ensure_priorities]
    inlined.  The list [routers] is updated and sorted in place: the
    second component is the list as the caller sees it afterwards. *)
Definition __init__ (routers : list Router.params) (settings : Settings.t)
  : result t * list Router.params :=
  match default_priorities routers 0 with
  | (routers1, Raise e) => (Raise e, routers1)
  | (routers1, Ok priority_count) =>
      if (0 <? priority_count) && (priority_count <? Z.of_nat (length routers1)) then
        (Raise (ProgrammingError
                  "You must either assign no priority to any of the routers or give a priority for every router"
                  4000),
         routers1)
      else
        let sorted := sort_desc routers1 in
        let '(directory, priority_list) := group sorted in
        (Ok {| _routers := sorted;
               _settings := settings;
               _cur_priority_idx := 0%nat;
               _can_failover := true;
               _routers_directory := directory;
               routers_priority_list := priority_list |},
         sorted)
  end.

(** A reference to a [Router] object: one stored in the directory, at a
    position of the list of its priority, or one built on the fly. *)
Inductive router_ref : Type :=
| InDirectory (priority : Z) (pos : nat)
| Fresh (r : Router.t).

(** The available routers of a priority, each with its position in the
    directory list. *)
Definition _get_available_routers (rm : t) (priority : Z)
  : result (list (nat * Router.t)) :=
  match _routers_directory rm !! priority with
  | None => Raise KeyError
  | Some router_list =>
      Ok (filter (fun ir => Router.available (snd ir) = true) (imap pair router_list))
  end.

(** [l[i]] for a Python int [i]. *)
Definition py_index {A : Type} (l : list A) (i : Z) : option A :=
  if 0 <=? i then l !! Z.to_nat i
  else if 0 <=? Z.of_nat (length l) + i then l !! Z.to_nat (Z.of_nat (length l) + i)
  else None.

Section WithRandom.

(** [random.randint] *)
Variable randint : Z -> Z -> Z.

Definition _get_random_connection_params (rm : t) (priority : Z)
  : result (option (nat * Router.t)) :=
  match _get_available_routers rm priority with
  | Raise e => Raise e
  | Ok [] => Ok None
  | Ok [r] => Ok (Some r)
  | Ok router_list =>
      let last := Z.of_nat (length router_list) - 1 in
      let index := randint 0 last in
      match py_index router_list index with
      | Some r => Ok (Some r)
      | None => Raise IndexError
      end
  end.

Definition can_failover (rm : t) : bool := _can_failover rm.

Definition set_idx (rm : t) (idx : nat) : t :=
  {| _routers := _routers rm; _settings := _settings rm;
     _cur_priority_idx := idx; _can_failover := _can_failover rm;
     _routers_directory := _routers_directory rm;
     routers_priority_list := routers_priority_list rm |}.

Definition set_can_failover (rm : t) (b : bool) : t :=
  {| _routers := _routers rm; _settings := _settings rm;
     _cur_priority_idx := _cur_priority_idx rm; _can_failover := b;
     _routers_directory := _routers_directory rm;
     routers_priority_list := routers_priority_list rm |}.

Definition set_directory (rm : t) (d : gmap Z (list Router.t)) : t :=
  {| _routers := _routers rm; _settings := _settings rm;
     _cur_priority_idx := _cur_priority_idx rm; _can_failover := _can_failover rm;
     _routers_directory := d;
     routers_priority_list := routers_priority_list rm |}.

(** The [while search] loop of [get_next_router].  Every turn that
    does not break advances [_cur_priority_idx], and the loop breaks
    once the index has left the priority list, so [fuel] bounds the
    turns; [None] is returned only when the fuel is used up. *)
Fixpoint search (fuel : nat) (rm : t) (cur_priority : Z)
  : option (result (option (nat * Z * Router.t)) * t) :=
  match fuel with
  | O => None
  | S fuel' =>
      let routers_priority_len := length (routers_priority_list rm) in
      match _get_random_connection_params rm cur_priority with
      | Raise e => Some (Raise e, rm)
      | Ok router =>
          if bool_decide (router <> None)
             || (routers_priority_len <=? _cur_priority_idx rm)%nat then
            if Z.of_nat (_cur_priority_idx rm) =? Z.of_nat routers_priority_len - 1 then
              match _get_available_routers rm cur_priority with
              | Raise e => Some (Raise e, rm)
              | Ok l =>
                  let rm' := if (length l <? 2)%nat
                             then set_can_failover rm false else rm in
                  Some (Ok (option_map (fun ir => (fst ir, cur_priority, snd ir)) router), rm')
              end
            else Some (Ok (option_map (fun ir => (fst ir, cur_priority, snd ir)) router), rm)
          else
            let rm1 := set_idx rm (_cur_priority_idx rm + 1)%nat in
            let cur_priority' :=
              if (_cur_priority_idx rm1 <? routers_priority_len)%nat
              then default cur_priority
                     (routers_priority_list rm1 !! _cur_priority_idx rm1)
              else cur_priority in
            search fuel' rm1 cur_priority'
      end
  end.

Definition search_fuel (rm : t) : nat :=
  S (length (routers_priority_list rm) - _cur_priority_idx rm).

(** [get_next_router()]: the reference to the selected [Router] and
    the router as it is then; the outer [option] is [None] only if the
    loop ran out of fuel. *)
Definition get_next_router (rm : t)
  : option (result (option (router_ref * Router.t)) * t) :=
  match _routers rm with
  | [] =>
      let rm' := set_can_failover rm false in
      let s := _settings rm in
      let router_settings :=
        {| Router.host := default "localhost" (Settings.host s);
           Router.port := Some (default 33060 (Settings.port s));
           Router.socket := Settings.socket s;
           Router.priority := None;
           Router.p_available := None |} in
      Some (Ok (Some (Fresh (Router.__init__ router_settings),
                      Router.__init__ router_settings)), rm')
  | _ :: _ =>
      match routers_priority_list rm !! _cur_priority_idx rm with
      | None => Some (Raise IndexError, rm)
      | Some cur_priority =>
          match search (search_fuel rm) rm cur_priority with
          | None => None
          | Some (Raise e, rm') => Some (Raise e, rm')
          | Some (Ok None, rm') => Some (Ok None, rm')
          | Some (Ok (Some (pos, priority, r)), rm') =>
              Some (Ok (Some (InDirectory priority pos, r)), rm')
          end
      end
  end.

(** The [Router] object behind a reference. *)
Definition deref (rm : t) (ref : router_ref) : option Router.t :=
  match ref with
  | Fresh r => Some r
  | InDirectory priority pos =>
      match _routers_directory rm !! priority with
      | None => None
      | Some l => l !! pos
      end
  end.

(** [router.set_unavailable()] on the referenced object. *)
Definition router_set_unavailable (rm : t) (ref : router_ref) : t :=
  match ref with
  | Fresh _ => rm
  | InDirectory priority pos =>
      match _routers_directory rm !! priority with
      | None => rm
      | Some l =>
          match l !! pos with
          | None => rm
          | Some r =>
              set_directory rm
                (<[priority := <[pos := Router.set_unavailable r]> l]>
                   (_routers_directory rm))
          end
      end
  end.

End WithRandom.

Definition count_available (l : list Router.t) : nat :=
  length (filter (fun r => Router.available r = true) l).

(** Number of routers of the directory that are still available. *)
Definition available_total (rm : t) : nat :=
  map_fold (fun _ l acc => (count_available l + acc)%nat) 0%nat (_routers_directory rm).

(** [len(self.routers_priority_list)] *)
Definition plen (rm : t) : Z := Z.of_nat (length (routers_priority_list rm)).

End RouterManager.

(** ** SocketStream and Connection *)

Module SocketStream.

(** [_socket] records whether the attribute holds a socket. *)
Record t : Type := {
  _socket : bool;
  _is_ssl : bool;
  _is_socket : bool;
  _host : option string
}.

Definition __init__ : t :=
  {| _socket := false; _is_ssl := false; _is_socket := false; _host := None |}.

Definition is_open (s : t) : bool := _socket s.

Definition close (s : t) : t :=
  {| _socket := false; _is_ssl := _is_ssl s; _is_socket := _is_socket s;
     _host := _host s |}.

Definition opened (s : t) : t :=
  {| _socket := true; _is_ssl := _is_ssl s; _is_socket := _is_socket s;
     _host := _host s |}.

End SocketStream.

Module Connection.

(** A [Connection]; [pool] names the owning pool of a
    [PooledConnection] and is [None] for a plain connection, and
    [protocol] records whether the attribute holds a [Protocol]. *)
Record t : Type := {
  settings : Settings.t;
  stream : SocketStream.t;
  protocol : bool;
  keep_open : option bool;
  _user : option string;
  _password : option string;
  _schema : option string;
  _routers : list Router.params;
  router_manager : RouterManager.t;
  _connect_timeout : option Z;
  _stmt_counter : Z;
  _prepared_stmt_ids : list (option Z);
  _prepared_stmt_supported : bool;
  _server_disconnected : bool;
  pool : option string
}.

Definition _CONNECT_TIMEOUT : Z := 10000.

(** The routers the constructor hands to the [RouterManager]: the list
    of the settings, with the [host] entry appended when [host] is set. *)
Definition initial_routers (s : Settings.t) : list Router.params :=
  let routers := default [] (Settings.routers s) in
  match Settings.host s with
  | Some h =>
      if negb (String.eqb h "") then
        (routers ++ [ {| Router.host := h; Router.port := Settings.port s;
                         Router.socket := None; Router.priority := None;
                         Router.p_available := None |} ])%list
      else routers
  | None => routers
  end.

(** The settings after the constructor ran: the list under ["routers"],
    when the key exists, is the very list the constructor appended to
    and the [RouterManager] updated. *)
Definition settings_after (s : Settings.t) (routers : list Router.params) : Settings.t :=
  match Settings.routers s with
  | Some _ => Settings.set_routers s routers
  | None => s
  end.

(** [Connection(settings)]; [owner] is the pool of a [PooledConnection]. *)
Definition __init__ (s : Settings.t) (owner : option string) : result t * Settings.t :=
  let routers := initial_routers s in
  match RouterManager.__init__ routers (settings_after s routers) with
  | (Raise e, routers') => (Raise e, settings_after s routers')
  | (Ok rm, routers') =>
      let s' := settings_after s routers' in
      let connect_timeout := default _CONNECT_TIMEOUT (Settings.connect_timeout s) in
      (Ok {| settings := s';
             stream := SocketStream.__init__;
             protocol := false;
             keep_open := None;
             _user := Settings.user s;
             _password := Settings.password s;
             _schema := Settings.schema s;
             _routers := routers';
             router_manager := rm;
             _connect_timeout :=
               if connect_timeout =? 0 then None else Some connect_timeout;
             _stmt_counter := 0;
             _prepared_stmt_ids := [];
             _prepared_stmt_supported := true;
             _server_disconnected := false;
             pool := owner |},
       s')
  end.

Definition is_open (c : t) : bool := SocketStream.is_open (stream c).

Definition set_router_manager (c : t) (rm : RouterManager.t) : t :=
  {| settings := settings c; stream := stream c; protocol := protocol c;
     keep_open := keep_open c; _user := _user c; _password := _password c;
     _schema := _schema c; _routers := _routers c; router_manager := rm;
     _connect_timeout := _connect_timeout c; _stmt_counter := _stmt_counter c;
     _prepared_stmt_ids := _prepared_stmt_ids c;
     _prepared_stmt_supported := _prepared_stmt_supported c;
     _server_disconnected := _server_disconnected c; pool := pool c |}.

Definition set_stream (c : t) (st : SocketStream.t) (proto : bool) : t :=
  {| settings := settings c; stream := st; protocol := proto;
     keep_open := keep_open c; _user := _user c; _password := _password c;
     _schema := _schema c; _routers := _routers c;
     router_manager := router_manager c;
     _connect_timeout := _connect_timeout c; _stmt_counter := _stmt_counter c;
     _prepared_stmt_ids := _prepared_stmt_ids c;
     _prepared_stmt_supported := _prepared_stmt_supported c;
     _server_disconnected := _server_disconnected c; pool := pool c |}.

Definition set_prepared (c : t) (ids : list (option Z)) (supported : bool) : t :=
  {| settings := settings c; stream := stream c; protocol := protocol c;
     keep_open := keep_open c; _user := _user c; _password := _password c;
     _schema := _schema c; _routers := _routers c;
     router_manager := router_manager c;
     _connect_timeout := _connect_timeout c; _stmt_counter := _stmt_counter c;
     _prepared_stmt_ids := ids;
     _prepared_stmt_supported := supported;
     _server_disconnected := _server_disconnected c; pool := pool c |}.

(** *** connect *)

(** An error of the classes [connect] catches ([OSError],
    [RuntimeError]); [is_socket_timeout] is
    [isinstance(error, socket.timeout)] and [text] is [str(error)]. *)
Record transport_error : Type := {
  is_socket_timeout : bool;
  text : string
}.

(** What one turn of the [try] block does with the selected router.
    [stream_connected] tells whether [stream.connect] had returned, and
    so replaced the socket and the protocol, before the error. *)
Inductive attempt : Type :=
| Established
| Failed (err : transport_error) (stream_connected : bool)
| Aborted (e : exn) (stream_connected : bool).

Inductive loop_exit : Type :=
| Connected
| Exhausted (error : option transport_error)
| Uncaught (e : exn).

Definition after_attempt (c : t) (stream_connected : bool) : t :=
  if stream_connected then set_stream c (SocketStream.opened (stream c)) true else c.

Section Connect.

(** [random.randint] at the n-th turn of the loop *)
Variable rng : nat -> Z -> Z -> Z.
(** the network and the server at the n-th turn *)
Variable net : nat -> Router.connection_params -> option Z -> attempt.

(** The [while self.router_manager.can_failover()] loop; [n] counts
    the turns.  [None] is returned only when the fuel is used up. *)
Fixpoint connect_loop (fuel n : nat) (c : t) (error : option transport_error)
  : option (loop_exit * t) :=
  if negb (RouterManager.can_failover (router_manager c)) then
    Some (Exhausted error, c)
  else
    match fuel with
    | O => None
    | S fuel' =>
        match RouterManager.get_next_router (rng n) (router_manager c) with
        | None => None
        | Some (Raise e, rm) => Some (Uncaught e, set_router_manager c rm)
        | Some (Ok None, rm) =>
            Some (Uncaught
                    (AttributeError
                       "'NoneType' object has no attribute 'get_connection_params'"),
                  set_router_manager c rm)
        | Some (Ok (Some (ref, router)), rm) =>
            let c1 := set_router_manager c rm in
            match net n (Router.get_connection_params router) (_connect_timeout c) with
            | Established => Some (Connected, after_attempt c1 true)
            | Aborted e sc => Some (Uncaught e, after_attempt c1 sc)
            | Failed err sc =>
                let c2 := after_attempt c1 sc in
                connect_loop fuel' (S n)
                  (set_router_manager c2
                     (RouterManager.router_set_unavailable (router_manager c2) ref))
                  (Some err)
            end
        end
    end.

Definition str_error (error : option transport_error) : string :=
  match error with
  | None => "None"
  | Some e => text e
  end.

(** The statements after the loop. *)
Definition connect_failure (c : t) (error : option transport_error) : exn :=
  let timed_out := match error with
                   | Some e => is_socket_timeout e
                   | None => false
                   end in
  if timed_out then
    if (length (_routers c) <=? 1)%nat then
      TimeoutError
        ("Connection attempt to the server was aborted. Timeout of "
         ++ str_opt_int (_connect_timeout c) ++ " ms was exceeded")%string
    else
      TimeoutError
        ("All server connection attempts were aborted. Timeout of "
         ++ str_opt_int (_connect_timeout c)
         ++ " ms was exceeded for each selected server")%string
  else if (length (_routers c) <=? 1)%nat then
    InterfaceError ("Cannot connect to host: " ++ str_error error)%string None
  else
    InterfaceError "Unable to connect to any of the target hosts" (Some 4001).

(** Every failed turn marks an available router unavailable, so the
    number of available routers bounds the turns. *)
Definition connect_fuel (c : t) : nat :=
  S (RouterManager.available_total (router_manager c)).

Definition connect_attempts (c : t) : option (loop_exit * t) :=
  connect_loop (connect_fuel c) 0 c None.

(** [connect()] *)
Definition connect (c : t) : option (result unit * t) :=
  match connect_attempts c with
  | None => None
  | Some (Connected, c') => Some (Ok tt, c')
  | Some (Uncaught e, c') => Some (Raise e, c')
  | Some (Exhausted error, c') => Some (Raise (connect_failure c' error), c')
  end.

End Connect.

End Connection.

(** ** Statements and the prepared-statement pipeline *)

Module Statement.

(** The attributes of a statement that the connection reads and writes. *)
Record t : Type := {
  stmt_id : option Z;
  prepared : bool;
  changed : bool;
  deallocate_prepare_execute : bool;
  exec_counter : Z
}.

Definition set_prepared (s : t) (b : bool) : t :=
  {| stmt_id := stmt_id s; prepared := b; changed := changed s;
     deallocate_prepare_execute := deallocate_prepare_execute s;
     exec_counter := exec_counter s |}.

Definition set_changed (s : t) (b : bool) : t :=
  {| stmt_id := stmt_id s; prepared := prepared s; changed := b;
     deallocate_prepare_execute := deallocate_prepare_execute s;
     exec_counter := exec_counter s |}.

Definition set_deallocate_prepare_execute (s : t) (b : bool) : t :=
  {| stmt_id := stmt_id s; prepared := prepared s; changed := changed s;
     deallocate_prepare_execute := b;
     exec_counter := exec_counter s |}.

Definition set_stmt_id (s : t) (i : option Z) : t :=
  {| stmt_id := i; prepared := prepared s; changed := changed s;
     deallocate_prepare_execute := deallocate_prepare_execute s;
     exec_counter := exec_counter s |}.

(** Modelled from the spec: the statement class is not under src/; the
    spec says that a dispatch "increments the statement's execution
    counter", so [increment_exec_counter] adds one to it. *)
Definition increment_exec_counter (s : t) : t :=
  {| stmt_id := stmt_id s; prepared := prepared s; changed := changed s;
     deallocate_prepare_execute := deallocate_prepare_execute s;
     exec_counter := exec_counter s + 1 |}.

(** Modelled from the spec: the statement class is not under src/; the
    spec's "reset counters" is [reset_exec_counter], which puts the
    execution counter back to zero. *)
Definition reset_exec_counter (s : t) : t :=
  {| stmt_id := stmt_id s; prepared := prepared s; changed := changed s;
     deallocate_prepare_execute := deallocate_prepare_execute s;
     exec_counter := 0 |}.

End Statement.

Module Pipeline.

(** Messages the connection asks the protocol to send. *)
Inductive msg : Type :=
| MsgWithoutPs
| PreparePrepare
| PrepareExecute (stmt_id : option Z)
| PrepareDeallocate (stmt_id : option Z).

(** The state the pipeline works on: the connection, the statement and
    the messages sent so far, oldest first. *)
Record world : Type := {
  cnx : Connection.t;
  stmt : Statement.t;
  sent : list msg
}.

(** A computation that reads and updates the world and may raise. *)
Definition M (A : Type) : Type := world -> result A * world.

Definition ret {A : Type} (a : A) : M A := fun w => (Ok a, w).

Definition bind {A B : Type} (m : M A) (k : A -> M B) : M B :=
  fun w => match m w with
           | (Ok a, w') => k a w'
           | (Raise e, w') => (Raise e, w')
           end.

Definition raise {A : Type} (e : exn) : M A := fun w => (Raise e, w).

Declare Scope pipeline_scope.
Delimit Scope pipeline_scope with pipeline.
Notation "x <- m ;; k" := (bind m (fun x => k))
  (at level 100, m at next level, right associativity) : pipeline_scope.
Notation "m ;; k" := (bind m (fun _ => k))
  (at level 100, right associativity) : pipeline_scope.
Local Open Scope pipeline_scope.

Definition get_cnx : M Connection.t := fun w => (Ok (cnx w), w).
Definition get_stmt : M Statement.t := fun w => (Ok (stmt w), w).

Definition update_stmt (f : Statement.t -> Statement.t) : M unit :=
  fun w => (Ok tt, {| cnx := cnx w; stmt := f (stmt w); sent := sent w |}).

Definition update_cnx (f : Connection.t -> Connection.t) : M unit :=
  fun w => (Ok tt, {| cnx := f (cnx w); stmt := stmt w; sent := sent w |}).

(** [except NotSupportedError: handler], the handler replacing the rest
    of the body. *)
Definition except_not_supported {A : Type} (body : M A) (handler : M A) : M A :=
  fun w => match body w with
           | (Raise NotSupportedError, w') => handler w'
           | r => r
           end.

(** [list.remove(x)] on the prepared ids. *)
Fixpoint remove_id (i : option Z) (l : list (option Z)) : option (list (option Z)) :=
  match l with
  | [] => None
  | x :: l' =>
      if bool_decide (x = i) then Some l'
      else match remove_id i l' with
           | None => None
           | Some r => Some (x :: r)
           end
  end.

Section WithCodec.

(** The protocol object and the server behind it, which are not part
    of the connection module: the error, if any, that sending a
    message raises given what was sent before; the error, if any,
    that fetching the active result raises; and the id the statement
    holds once [send_prepare_prepare] has returned. *)
Variable reply : list msg -> msg -> option exn.
Variable fetch_error : list msg -> option exn.
Variable prepared_id : Statement.t -> option Z.
(** The [repeated] property of the statement class. *)
Variable repeated : Statement.t -> bool.

Definition send (m : msg) : M unit :=
  fun w => match reply (sent w) m with
           | Some e => (Raise e, w)
           | None => (Ok tt, {| cnx := cnx w; stmt := stmt w;
                                sent := (sent w ++ [m])%list |})
           end.

Definition fetch_active_result : M unit :=
  fun w => match fetch_error (sent w) with
           | Some e => (Raise e, w)
           | None => (Ok tt, w)
           end.

Definition send_prepare_prepare : M unit :=
  send PreparePrepare ;;
  update_stmt (fun s => Statement.set_stmt_id s (prepared_id s)).

Definition _deallocate_statement : M unit :=
  s <- get_stmt ;;
  if Statement.prepared s then
    send (PrepareDeallocate (Statement.stmt_id s)) ;;
    c <- get_cnx ;;
    match remove_id (Statement.stmt_id s) (Connection._prepared_stmt_ids c) with
    | None => raise ValueError
    | Some ids =>
        update_cnx (fun c => Connection.set_prepared c ids
                               (Connection._prepared_stmt_supported c)) ;;
        update_stmt (fun s => Statement.set_prepared s false)
    end
  else ret tt.

(** [_prepare_statement]; the result tells whether the [except]
    branch returned early. *)
Definition _prepare_statement : M unit :=
  ok <- except_not_supported
          (fetch_active_result ;; send_prepare_prepare ;; ret true)
          (update_cnx (fun c => Connection.set_prepared c
                                  (Connection._prepared_stmt_ids c) false) ;;
           ret false) ;;
  if ok : bool then
    s <- get_stmt ;;
    update_cnx (fun c => Connection.set_prepared c
                           (Connection._prepared_stmt_ids c ++ [Statement.stmt_id s])%list
                           (Connection._prepared_stmt_supported c)) ;;
    update_stmt (fun s => Statement.set_prepared s true)
  else ret tt.

Definition send_prepare_execute : M unit :=
  s <- get_stmt ;;
  send (PrepareExecute (Statement.stmt_id s)).

Definition supported : M bool :=
  c <- get_cnx ;; ret (Connection._prepared_stmt_supported c).

Definition increment : M unit := update_stmt Statement.increment_exec_counter.
Definition reset : M unit := update_stmt Statement.reset_exec_counter.

(** [_execute_prepared_pipeline(msg_type, msg, statement)] *)
Definition _execute_prepared_pipeline : M unit :=
  ps <- supported ;;
  if negb ps then
    (* For old servers without prepared statement support *)
    send MsgWithoutPs
  else
    s <- get_stmt ;;
    if Statement.deallocate_prepare_execute s then
      _deallocate_statement ;;
      _prepare_statement ;;
      ps <- supported ;;
      if negb ps then send MsgWithoutPs
      else
        send_prepare_execute ;;
        update_stmt (fun s => Statement.set_deallocate_prepare_execute s false) ;;
        reset ;;
        increment
    else if Statement.prepared s && negb (Statement.changed s) then
      send_prepare_execute ;;
      increment
    else if Statement.changed s && negb (repeated s) then
      _deallocate_statement ;;
      send MsgWithoutPs ;;
      update_stmt (fun s => Statement.set_changed s false) ;;
      reset ;;
      increment
    else if negb (Statement.changed s) && negb (repeated s) then
      (if negb (Statement.prepared s) then _prepare_statement else ret tt) ;;
      ps <- supported ;;
      if negb ps then send MsgWithoutPs
      else
        send_prepare_execute ;;
        increment
    else if Statement.changed s && repeated s then
      _deallocate_statement ;;
      send MsgWithoutPs ;;
      update_stmt (fun s => Statement.set_changed s false) ;;
      reset ;;
      increment
    else
      increment.

End WithCodec.

(** What a step leaves alone: the counter and the two flags that
    choose the branch. *)
Definition same_counter (w w' : world) : Prop :=
  Statement.exec_counter (stmt w') = Statement.exec_counter (stmt w).

End Pipeline.

(** ** Session *)

Module Session.

(** Connection objects by identity: a reference is a position in the
    store, and a new object takes the next free position. *)
Abbreviation store := (list Connection.t).

Record t : Type := {
  _settings : Settings.t;
  _connection : nat
}.

(** How the body of the [try] block of [Connection.close_session] ends:
    normally, with an error of a class the [except] clause logs, or
    with another error, which escapes after the [finally] clause ran.
    [counter_reset] tells whether [_stmt_counter = 0] was reached. *)
Inductive close_body : Type :=
| BodyDone
| BodyLogged (counter_reset : bool)
| BodyEscapes (e : exn) (counter_reset : bool).

Record env : Type := {
  (** the exchange with the server when a plain connection closes *)
  closing : Connection.t -> close_body;
  (** [self.pool.add_connection(self)] for a pooled connection: the
      outcome, and the connection as the pool leaves it *)
  return_to_pool : Connection.t -> result unit * Connection.t
}.

Definition reset_stmt_counter (c : Connection.t) (b : bool) : Connection.t :=
  if b then
    {| Connection.settings := Connection.settings c;
       Connection.stream := Connection.stream c;
       Connection.protocol := Connection.protocol c;
       Connection.keep_open := Connection.keep_open c;
       Connection._user := Connection._user c;
       Connection._password := Connection._password c;
       Connection._schema := Connection._schema c;
       Connection._routers := Connection._routers c;
       Connection.router_manager := Connection.router_manager c;
       Connection._connect_timeout := Connection._connect_timeout c;
       Connection._stmt_counter := 0;
       Connection._prepared_stmt_ids := Connection._prepared_stmt_ids c;
       Connection._prepared_stmt_supported := Connection._prepared_stmt_supported c;
       Connection._server_disconnected := Connection._server_disconnected c;
       Connection.pool := Connection.pool c |}
  else c.

Definition close_stream (c : Connection.t) : Connection.t :=
  Connection.set_stream c (SocketStream.close (Connection.stream c)) (Connection.protocol c).

(** [Connection.close_session] for a plain connection and
    [PooledConnection.close_session] for a pooled one. *)
Definition close_session (ev : env) (c : Connection.t) : result unit * Connection.t :=
  match Connection.pool c with
  | Some _ => return_to_pool ev c
  | None =>
      if negb (Connection.is_open c) then (Ok tt, c)
      else
        match closing ev c with
        | BodyDone =>
            (Ok tt, close_stream
                      (reset_stmt_counter c (Connection._prepared_stmt_supported c)))
        | BodyLogged reset => (Ok tt, close_stream (reset_stmt_counter c reset))
        | BodyEscapes e reset => (Raise e, close_stream (reset_stmt_counter c reset))
        end
  end.

Definition set_settings (s : t) (st : Settings.t) : t :=
  {| _settings := st; _connection := _connection s |}.

(** [Session.close()].  A reference that is not in the store does not
    occur; the call then leaves everything as it is. *)
Definition close (ev : env) (objs : store) (s : t) : result unit * store * t :=
  match objs !! _connection s with
  | None => (Raise (OtherError "dangling reference"), objs, s)
  | Some old =>
      match close_session ev old with
      | (Raise e, old') => (Raise e, <[_connection s := old']> objs, s)
      | (Ok _, old') =>
          let objs1 := <[_connection s := old']> objs in
          (* Set an unconnected connection *)
          match Connection.__init__ (_settings s) None with
          | (Raise e, settings') => (Raise e, objs1, set_settings s settings')
          | (Ok fresh, settings') =>
              (Ok tt, (objs1 ++ [fresh])%list,
               {| _settings := settings'; _connection := length objs1 |})
          end
      end
  end.

(** [Session.is_open()] *)
Definition is_open (objs : store) (s : t) : option bool :=
  match objs !! _connection s with
  | None => None
  | Some c => Some (SocketStream.is_open (Connection.stream c))
  end.

End Session.

(** ** Client *)

Module Client.

(** Values an option of the client can hold: [VOther] is an object
    that is neither an int nor a bool, with its [str()]. *)
Inductive value : Type :=
| VBool (b : bool)
| VInt (n : Z)
| VOther (repr : string).

Definition isinstance_bool (v : value) : bool :=
  match v with
  | VBool _ => true
  | _ => false
  end.

(** [bool] is a subclass of [int]. *)
Definition isinstance_int (v : value) : bool :=
  match v with
  | VBool _ | VInt _ => true
  | VOther _ => false
  end.

(** The integer an int or a bool compares as. *)
Definition as_int (v : value) : Z :=
  match v with
  | VBool b => if b then 1 else 0
  | VInt n => n
  | VOther _ => 0
  end.

Definition str (v : value) : string :=
  match v with
  | VBool b => if b then "True" else "False"
  | VInt n => str_int n
  | VOther repr => repr
  end.

Definition _CNX_POOL_MAXSIZE : Z := 99.
Definition _CNX_POOL_MAX_IDLE_TIME : Z := 2147483.
Definition _CNX_POOL_QUEUE_TIMEOUT : Z := 2147483.

Record t : Type := {
  max_size : Z;
  max_idle_time : Z;
  queue_timeout : Z;
  pooling_enabled : bool;
  (** entries written into [settings] *)
  settings_max_idle_time : Z;
  settings_queue_timeout : Z;
  settings_connect_timeout : Z
}.

(** [_set_pool_size]: the value stored in [self.max_size]. *)
Definition _set_pool_size (pool_size : value) : result Z :=
  if isinstance_bool pool_size
     || negb (isinstance_int pool_size)
     || negb (0 <? as_int pool_size)
  then
    Raise (AttributeError
             ("Pool max_size value must be an integer greater than 0, the given value "
              ++ str pool_size ++ " is not valid")%string)
  else
    Ok (if as_int pool_size =? 0 then _CNX_POOL_MAXSIZE else as_int pool_size).

(** [_set_max_idle_time]: [self.max_idle_time] and the settings entry,
    [int(max_idle_time / 1000)] going through a float. *)
Definition _set_max_idle_time (v : value) : result (Z * Z) :=
  if isinstance_bool v || negb (isinstance_int v) || negb (-1 <? as_int v)
  then
    Raise (AttributeError
             ("Connection max_idle_time value must be an integer greater or equal to 0, the given value "
              ++ str v ++ " is not valid")%string)
  else if as_int v =? 0 then Ok (as_int v, _CNX_POOL_MAX_IDLE_TIME)
  else
    match int_truediv (as_int v) 1000 with
    | Raise e => Raise e
    | Ok seconds => Ok (as_int v, int_of_float seconds)
    end.

(** [_set_queue_timeout]: [self.queue_timeout] and the settings entry,
    [int(queue_timeout / 1000)] going through a float. *)
Definition _set_queue_timeout (v : value) : result (Z * Z) :=
  if isinstance_bool v || negb (isinstance_int v) || negb (-1 <? as_int v)
  then
    Raise (AttributeError
             ("Connection queue_timeout value must be an integer greater or equal to 0, the given value "
              ++ str v ++ " is not valid")%string)
  else if as_int v =? 0 then Ok (as_int v, _CNX_POOL_QUEUE_TIMEOUT)
  else
    match int_truediv (as_int v) 1000 with
    | Raise e => Raise e
    | Ok seconds => Ok (as_int v, int_of_float seconds)
    end.

Definition _set_pool_enabled (v : value) : result bool :=
  match v with
  | VBool b => Ok b
  | _ => Raise (AttributeError "The enabled value should be True or False.")
  end.

(** [Client(connection_dict, options_dict)]; [connect_timeout] is the
    entry of the connection dictionary, if any. *)
Definition __init__ (connect_timeout : option Z) (options_dict : gmap string value)
  : result t :=
  match _set_pool_size (default (VInt 25) (options_dict !! "max_size")) with
  | Raise e => Raise e
  | Ok size =>
      match _set_max_idle_time (default (VInt 0) (options_dict !! "max_idle_time")) with
      | Raise e => Raise e
      | Ok (idle, s_idle) =>
          match _set_queue_timeout (default (VInt 0) (options_dict !! "queue_timeout")) with
          | Raise e => Raise e
          | Ok (qt, s_qt) =>
              match _set_pool_enabled (default (VBool true) (options_dict !! "enabled")) with
              | Raise e => Raise e
              | Ok enabled =>
                  Ok {| max_size := size;
                        max_idle_time := idle;
                        queue_timeout := qt;
                        pooling_enabled := enabled;
                        settings_max_idle_time := s_idle;
                        settings_queue_timeout := s_qt;
                        settings_connect_timeout := default qt connect_timeout |}
              end
          end
      end
  end.

End Client.

(** ** Predicates on the configured routers *)

Module Priorities.

(** The router carries a priority above 100. *)
Definition too_high (r : Router.params) : bool :=
  match Router.priority r with
  | Some p => 100 <? p
  | None => false
  end.

(** The router carries no priority. *)
Definition unset (r : Router.params) : bool :=
  match Router.priority r with
  | Some _ => false
  | None => true
  end.

(** The routers of a tier of the directory ([[]] for a missing key). *)
Definition tier (rm : RouterManager.t) (p : Z) : list Router.t :=
  default [] (RouterManager._routers_directory rm !! p).

(** Some router of the tier is available. *)
Definition tier_available (rm : RouterManager.t) (p : Z) : bool :=
  existsb Router.available (tier rm p).

(** Every priority of the priority list is a key of the directory. *)
Definition directory_complete (rm : RouterManager.t) : Prop :=
  forall p, p ∈ RouterManager.routers_priority_list rm ->
            is_Some (RouterManager._routers_directory rm !! p).

(** Order of the sorted routers: the priority does not increase. *)
Definition not_below (a b : Router.params) : Prop :=
  RouterManager.priority_key b <= RouterManager.priority_key a.

(** The routers of a list that have priority [k], in their order. *)
Definition with_priority (k : Z) (l : list Router.params) : list Router.params :=
  filter (fun r => RouterManager.priority_key r = k) l.

(** The configured routers once the missing priorities are set to 100. *)
Definition defaulted (l : list Router.params) : list Router.params :=
  map (fun r => if unset r then Router.set_priority r 100 else r) l.

(** The routers of the directory, tier after tier in the order of a
    priority list. *)
Definition tiers_of (dir : gmap Z (list Router.t)) (pl : list Z) : list Router.t :=
  flat_map (fun p => default [] (dir !! p)) pl.

(** The directory [dir] and the priority list [pl] group the routers
    [done]: the priorities strictly decrease, they are the keys of the
    directory, the tiers in that order are the routers in their order,
    and a tier is not empty and holds routers of its priority only. *)
Definition grouped (dir : gmap Z (list Router.t)) (pl : list Z)
    (done : list Router.params) : Prop :=
  StronglySorted Z.gt pl
  /\ (forall p, is_Some (dir !! p) <-> p ∈ pl)
  /\ tiers_of dir pl = map Router.__init__ done
  /\ (forall p l, dir !! p = Some l ->
                  l <> []
                  /\ Forall (fun r => RouterManager.priority_key (Router.r_params r) = p) l).

(** [random.randint(a, b)] returns a value between its bounds. *)
Definition randint_in_range (randint : Z -> Z -> Z) : Prop :=
  forall lo hi, lo <= hi -> lo <= randint lo hi <= hi.

End Priorities.

(** ** What failover has covered *)

Module Failover.

(** No router of the directory is available any more. *)
Definition all_unavailable (rm : RouterManager.t) : Prop :=
  forall p r, r ∈ Priorities.tier rm p -> Router.available r = false.

(** The tiers before the current one hold no available router. *)
Definition higher_tiers_tried (rm : RouterManager.t) : Prop :=
  forall i p, (i < RouterManager._cur_priority_idx rm)%nat ->
              RouterManager.routers_priority_list rm !! i = Some p ->
              Priorities.tier_available rm p = false.

(** Every tier of the priority list holds no available router. *)
Definition listed_tiers_tried (rm : RouterManager.t) : Prop :=
  forall i p, RouterManager.routers_priority_list rm !! i = Some p ->
              Priorities.tier_available rm p = false.

(** The keys of the directory are in the priority list, which is empty
    when no router is configured. *)
Definition keys_listed (rm : RouterManager.t) : Prop :=
  (forall p, is_Some (RouterManager._routers_directory rm !! p) ->
             p ∈ RouterManager.routers_priority_list rm)
  /\ (RouterManager._routers rm = [] -> RouterManager.routers_priority_list rm = []).

(** What the loop of [connect] keeps true of the router manager. *)
Definition covered (rm : RouterManager.t) : Prop :=
  keys_listed rm
  /\ higher_tiers_tried rm
  /\ (RouterManager._can_failover rm = false -> listed_tiers_tried rm).

(** Every router of the tier is available. *)
Definition tier_untouched (rm : RouterManager.t) (p : Z) : Prop :=
  Forall (fun r => Router.available r = true) (Priorities.tier rm p).

(** A manager from which failover can go on without running dry: the
    priorities are distinct and each has a tier that is not empty, the
    index is inside the priority list, the tiers behind the current one
    are untouched, and as long as failover is on the current tier has
    an available router or is not the last one. *)
Definition ready (rm : RouterManager.t) : Prop :=
  NoDup (RouterManager.routers_priority_list rm)
  /\ (forall p, p ∈ RouterManager.routers_priority_list rm ->
                exists l, RouterManager._routers_directory rm !! p = Some l /\ l <> [])
  /\ (RouterManager._cur_priority_idx rm
      < length (RouterManager.routers_priority_list rm))%nat
  /\ (forall i p, (RouterManager._cur_priority_idx rm < i)%nat ->
                  RouterManager.routers_priority_list rm !! i = Some p ->
                  tier_untouched rm p)
  /\ (RouterManager._can_failover rm = true ->
      (exists p, RouterManager.routers_priority_list rm
                   !! RouterManager._cur_priority_idx rm = Some p
                 /\ Priorities.tier_available rm p = true)
      \/ (S (RouterManager._cur_priority_idx rm)
          < length (RouterManager.routers_priority_list rm))%nat).

(** No router of the list is configured as unavailable. *)
Definition none_preset_unavailable (routers : list Router.params) : Prop :=
  Forall (fun r => Router.p_available r <> Some false) routers.

(** The router [get_next_router] builds from the settings when no
    router is configured. *)
Definition default_router (s : Settings.t) : Router.t :=
  Router.__init__
    {| Router.host := default "localhost" (Settings.host s);
       Router.port := Some (default 33060 (Settings.port s));
       Router.socket := Settings.socket s;
       Router.priority := None;
       Router.p_available := None |}.

(** The router is one of the manager: an entry of its directory under
    the priority the manager currently stands at or, with no router
    configured, the default router of its settings. *)
Definition handed_out (rm : RouterManager.t) (router : Router.t) : Prop :=
  match RouterManager._routers rm with
  | [] => router = default_router (RouterManager._settings rm)
  | _ :: _ =>
      exists prio pos,
        RouterManager.routers_priority_list rm !! RouterManager._cur_priority_idx rm
        = Some prio
        /\ RouterManager.deref rm (RouterManager.InDirectory prio pos) = Some router
  end.

End Failover.

(** ** PoolsManager: choosing a pool *)

Module PoolChoice.

Section WithRandom.

(** [random.randint] *)
Variable randint : Z -> Z -> Z.

Definition _get_random_pool (pool_list : list ConnectionPool.t)
  : result (option ConnectionPool.t) :=
  match pool_list with
  | [] => Ok None
  | [pool] => Ok (Some pool)
  | _ =>
      let last := Z.of_nat (length pool_list) - 1 in
      let index := randint 0 last in
      match RouterManager.py_index pool_list index with
      | Some pool => Ok (Some pool)
      | None => Raise IndexError
      end
  end.

(** The loop of [_get_sublist] over [pools[index:]]. *)
Fixpoint sublist_from (rest : list ConnectionPool.t) (cur_priority : Z)
  : list ConnectionPool.t :=
  match rest with
  | [] => []
  | pool :: rest' =>
      let next_priority := ConnectionPool.priority pool in
      if (cur_priority =? next_priority) && ConnectionPool.available pool then
        pool :: sublist_from rest' cur_priority
      else if negb (cur_priority =? next_priority) then []
      else sublist_from rest' cur_priority
  end.

Definition _get_sublist (pools : list ConnectionPool.t) (index : nat) (cur_priority : Z)
  : list ConnectionPool.t :=
  sublist_from (drop index pools) cur_priority.

(** The [for] loop of [_get_next_pool]: the index it stops at. *)
Fixpoint first_candidate (pools : list ConnectionPool.t) (cur_priority : Z) : nat :=
  match pools with
  | [] => 0
  | pool :: rest =>
      if ConnectionPool.available pool && (cur_priority =? ConnectionPool.priority pool)
      then 0
      else S (first_candidate rest cur_priority)
  end.

(** The [while not subpool and index < len(pools)] loop; [todo] is
    [len(pools) - index]. *)
Fixpoint first_sublist (todo : nat) (pools : list ConnectionPool.t) (index : nat)
    (cur_priority : Z) : list ConnectionPool.t :=
  match todo with
  | O => []
  | S todo' =>
      match _get_sublist pools index cur_priority with
      | [] => first_sublist todo' pools (S index) cur_priority
      | subpool => subpool
      end
  end.

Definition _get_next_pool (pools : list ConnectionPool.t) (cur_priority : Z)
  : result (option ConnectionPool.t) :=
  let index := first_candidate pools cur_priority in
  _get_random_pool (first_sublist (length pools - index) pools index cur_priority).

End WithRandom.

Definition _get_next_priority (pools : list ConnectionPool.t) (cur_priority : option Z)
  : result Z :=
  match cur_priority, pools with
  | None, pool :: _ => Ok (ConnectionPool.priority pool)
  | _, _ =>
      match find ConnectionPool.available pools with
      | Some t_pool => Ok (ConnectionPool.priority t_pool)
      | None =>
          match pools with
          | pool :: _ => Ok (ConnectionPool.priority pool)
          | [] => Raise IndexError
          end
      end
  end.

(** The statements of [get_connection] that pick the first pool to
    try, at clock value [now]: the scan of the unavailable pools, the
    priority, and a pool of that priority.  The result is that
    priority, stored under [cur_priority], and the pool. *)
Definition first_pool (randint : Z -> Z -> Z) (pools : list ConnectionPool.t)
    (cur_priority : option Z) (now : Z) : result (Z * option ConnectionPool.t) :=
  match PoolsManager._check_unavailable_pools pools None now with
  | (Raise e, _) => Raise e
  | (Ok _, pools) =>
      match _get_next_priority pools cur_priority with
      | Raise e => Raise e
      | Ok cur_priority =>
          match _get_next_pool randint pools cur_priority with
          | Raise e => Raise e
          | Ok pool => Ok (cur_priority, pool)
          end
      end
  end.

(** The pool can be chosen for priority [cur_priority]. *)
Definition candidate (cur_priority : Z) (pool : ConnectionPool.t) : Prop :=
  ConnectionPool.available pool = true /\ ConnectionPool.priority pool = cur_priority.

End PoolChoice.

(** ** Connection: compression negotiation and authentication *)

Module Handshake.

(** The [Compression] setting. *)
Inductive Compression : Type :=
| DISABLED
| PREFERRED
| REQUIRED.

Definition is_required (c : Compression) : bool :=
  match c with
  | REQUIRED => true
  | _ => false
  end.

(** [item in l] on lists of strings. *)
Definition mem (item : string) (l : list string) : bool := bool_decide (item ∈ l).

Section Compress.

(** The table of algorithm names and aliases, the two flags of the
    protocol module, and the error, if any, that announcing the
    algorithm to the server raises. *)
Variable COMPRESSION_ALGORITHMS : gmap string string.
Variable HAVE_ZSTD : bool.
Variable HAVE_LZ4 : bool.
Variable set_capabilities : string -> option exn.

(** The fields of the server's compression capability as a
    dictionary: a later field replaces an earlier one of the same key. *)
Definition compression_dict (fld : list (string * list string)) : gmap string (list string) :=
  fold_left (fun d f => <[fst f := snd f]> d) fld ∅.

Definition server_algorithms (fld : list (string * list string)) : list string :=
  default [] (compression_dict fld !! "algorithm").

(** [[COMPRESSION_ALGORITHMS[item] for item in algorithms
      if item in COMPRESSION_ALGORITHMS]] *)
Definition client_algorithms (algorithms : list string) : list string :=
  omap (fun item => COMPRESSION_ALGORITHMS !! item) algorithms.

Definition matched (algorithms : list string) (server : list string) : list string :=
  filter (fun item => mem item server = true) (client_algorithms algorithms).

(** The choice when no requested algorithm decided. *)
Definition default_algorithm (server : list string) : string :=
  if HAVE_ZSTD && mem "zstd_stream" server then "zstd_stream"
  else if HAVE_LZ4 && mem "lz4_message" server then "lz4_message"
  else "deflate_stream".

(** The statements from [if algorithm is None] on. *)
Definition settle (compression : Compression) (server : list string)
    (algorithm : option string) : result (option string) :=
  let algorithm := default (default_algorithm server) algorithm in
  if negb (mem algorithm server) then
    if is_required compression then
      Raise (InterfaceError
               "Compression requested but the compression algorithm negotiation failed"
               None)
    else Ok None
  else
    match set_capabilities algorithm with
    | Some e => Raise e
    | None => Ok (Some algorithm)
    end.

(** [_set_compression_capabilities(caps, compression, algorithms)];
    [compression_data] is [caps.get("compression")], given by its
    fields.  The message of [NotSupportedError] is not kept. *)
Definition _set_compression_capabilities
    (compression_data : option (list (string * list string)))
    (compression : Compression) (algorithms : option (list string))
  : result (option string) :=
  match compression_data with
  | None =>
      if is_required compression then Raise NotSupportedError else Ok None
  | Some fld =>
      let server := server_algorithms fld in
      match algorithms with
      | Some ((_ :: _) as algorithms) =>
          match matched algorithms server with
          | first :: _ => settle compression server (COMPRESSION_ALGORITHMS !! first)
          | [] =>
              if is_required compression then
                Raise (InterfaceError
                         "The connection compression is set as required, but none of the provided compression algorithms are supported."
                         None)
              else Ok None
          end
      | _ => settle compression server None
      end
  end.

(** The statements of [connect] around the negotiation. *)
Definition negotiate (compression_data : option (list (string * list string)))
    (compression : Compression) (algorithms : option (list string))
  : result (option string) :=
  match compression with
  | DISABLED => Ok None
  | _ => _set_compression_capabilities compression_data compression algorithms
  end.

End Compress.

(** *** Authentication *)

(** The [Auth] methods. *)
Inductive Auth : Type :=
| PLAIN
| SHA256_MEMORY
| MYSQL41.

(** [settings.get("auth")]: missing or false, one of the methods, or
    another true value. *)
Inductive auth_setting : Type :=
| NoAuth
| Method (a : Auth)
| OtherAuth.

(** [SocketStream.is_secure] *)
Definition is_secure (s : SocketStream.t) : bool :=
  SocketStream._is_ssl s || SocketStream._is_socket s.

Section Authenticate.

(** How the exchange of a method with the server ends, and [str()] of
    an error. *)
Variable exchange : Auth -> result unit.
Variable str_exn : exn -> string.

(** Each function returns, next to its outcome, the methods it has
    started with the server, in order. *)
Definition _authenticate_mysql41 : result unit * list Auth :=
  (exchange MYSQL41, [MYSQL41]).

Definition _authenticate_sha256_memory : result unit * list Auth :=
  (exchange SHA256_MEMORY, [SHA256_MEMORY]).

Definition _authenticate_plain (stream : SocketStream.t) : result unit * list Auth :=
  if negb (is_secure stream) then
    (Raise (InterfaceError
              "PLAIN authentication is not allowed via unencrypted connection" None),
     [])
  else (exchange PLAIN, [PLAIN]).

Definition _authenticate (auth : auth_setting) (stream : SocketStream.t)
  : result unit * list Auth :=
  match auth with
  | Method PLAIN => _authenticate_plain stream
  | Method SHA256_MEMORY => _authenticate_sha256_memory
  | Method MYSQL41 => _authenticate_mysql41
  | OtherAuth => (Ok tt, [])
  | NoAuth =>
      if is_secure stream then
        (* Use PLAIN if no auth provided and connection is secure *)
        _authenticate_plain stream
      else
        (* Use MYSQL41 if connection is not secure *)
        match _authenticate_mysql41 with
        | (Ok _, started) => (Ok tt, started)
        | (Raise (InterfaceError _ _), started) =>
            (* Try SHA256_MEMORY if MYSQL41 fails *)
            match _authenticate_sha256_memory with
            | (Raise (InterfaceError m c), started') =>
                (Raise (InterfaceError
                          ("Authentication failed using MYSQL41 and SHA256_MEMORY, check username and password or try a secure connection err:"
                           ++ str_exn (InterfaceError m c))%string
                          None),
                 (started ++ started')%list)
            | (r, started') => (r, (started ++ started')%list)
            end
        | (Raise e, started) => (Raise e, started)
        end
  end.

End Authenticate.

End Handshake.

(** ** Client options *)

Module ClientOptions.


(** An int, not a bool, that is not negative. *)
Definition non_negative_int (v : Client.value) : Prop :=
  exists n, v = Client.VInt n /\ 0 <= n.


(** From this number of milliseconds on, the seconds are too large for
    a float: the largest float is [2 ^ 1024 - 2 ^ 971], and a quotient
    from half way between it and [2 ^ 1024] rounds up. *)
Definition float_limit : Z := 1000 * (2 ^ 1024 - 2 ^ 970).

(** An int, not a bool, that is not negative and below [float_limit]. *)
Definition milliseconds (v : Client.value) : Prop :=
  exists n, v = Client.VInt n /\ 0 <= n < float_limit.

(** An int, not a bool, at or above [float_limit]. *)
Definition beyond_float (v : Client.value) : Prop :=
  exists n, v = Client.VInt n /\ float_limit <= n.

(** Below this number of milliseconds, the float holds the seconds
    closely enough for [int] to give the whole seconds. *)
Definition exact_limit : Z := 1000 * 2 ^ 44.

(** The options as [Client.__init__] reads them, defaults included. *)
Definition max_size (options_dict : gmap string Client.value) : Client.value :=
  default (Client.VInt 25) (options_dict !! "max_size").

Definition max_idle_time (options_dict : gmap string Client.value) : Client.value :=
  default (Client.VInt 0) (options_dict !! "max_idle_time").

Definition queue_timeout (options_dict : gmap string Client.value) : Client.value :=
  default (Client.VInt 0) (options_dict !! "queue_timeout").

Definition enabled (options_dict : gmap string Client.value) : Client.value :=
  default (Client.VBool true) (options_dict !! "enabled").

End ClientOptions.

(** ** What the prepared-statement pipeline keeps *)

Module PipelineState.
Import Pipeline.

(** The id of a prepared statement is among the prepared ids of the
    connection. *)
Definition registered (w : world) : Prop :=
  Statement.prepared (stmt w) = true ->
  Statement.stmt_id (stmt w) ∈ Connection._prepared_stmt_ids (cnx w).

Definition flag (w : world) : bool := Connection._prepared_stmt_supported (cnx w).

Section Kept.
Variable reply : list msg -> msg -> option exn.
Variable fetch_error : list msg -> option exn.

(** The error is one that the protocol raised. *)
Definition from_protocol (e : exn) : Prop :=
  (exists tr m, reply tr m = Some e) \/ (exists tr, fetch_error tr = Some e).

(** What a step from [w] to [w'] with outcome [r] keeps. *)
Definition kept {A : Type} (w : world) (r : result A) (w' : world) : Prop :=
  registered w'
  /\ (flag w' = true -> flag w = true)
  /\ (forall e, r = Raise e -> from_protocol e)
  /\ sent w `prefix_of` sent w'.

Definition keeps {A : Type} (m : M A) : Prop :=
  forall w r w', registered w -> m w = (r, w') -> kept w r w'.

End Kept.

(** The statement once it is no longer prepared. *)
Definition unprepared (s : Statement.t) : Statement.t := Statement.set_prepared s false.

(** The messages and the ids that deallocating the statement leaves. *)
Definition deallocation (s : Statement.t) : list msg :=
  if Statement.prepared s then [PrepareDeallocate (Statement.stmt_id s)] else [].

Definition ids_without (s : Statement.t) (ids : list (option Z)) : list (option Z) :=
  if Statement.prepared s then default ids (remove_id (Statement.stmt_id s) ids) else ids.

(** The two places where [_execute_prepared_pipeline] calls
    [_prepare_statement]: the statement is flagged for
    deallocate-prepare-execute, or it is neither prepared, changed nor
    repeated. *)
Definition reaches_prepare (repeated : Statement.t -> bool) (s : Statement.t) : bool :=
  Statement.deallocate_prepare_execute s
  || (negb (Statement.prepared s) && negb (Statement.changed s) && negb (repeated s)).

(** The [except NotSupportedError] branch of [_prepare_statement] is
    taken after the messages [tr]: fetching the active result raises
    [NotSupportedError], or it returns and sending the prepare raises
    it. *)
Definition prepare_rejected (reply : list msg -> msg -> option exn)
    (fetch_error : list msg -> option exn) (tr : list msg) : Prop :=
  fetch_error tr = Some NotSupportedError
  \/ (fetch_error tr = None /\ reply tr PreparePrepare = Some NotSupportedError).

End PipelineState.

(** ** Session.__init__: hosts found by DNS SRV *)

Module SessionInit.

(** An SRV record as the resolver returns it; [target] is the host name
    without its final dot. *)
Record srv : Type := {
  target : string;
  srv_port : Z;
  srv_priority : Z;
  weight : Z
}.

(** How the DNS SRV query ends: the [dns] module is missing, the query
    raises a [DNSException], or it returns records. *)
Inductive query : Type :=
| NoDnsPython
| Unresolved
| Records (srv_records : list srv).

(** The router stored for a record; [weight] is a key the connection
    does not read. *)
Definition srv_router (r : srv) : Router.params :=
  {| Router.host := target r; Router.port := Some (srv_port r);
     Router.socket := None; Router.priority := Some (srv_priority r);
     Router.p_available := None |}.

(** [settings.get("host")] as a truth value. *)
Definition host_given (s : Settings.t) : bool :=
  match Settings.host s with
  | Some h => negb (String.eqb h "")
  | None => false
  end.

(** [Session(settings)] up to the construction of its connection, with
    pooling off: the DNS SRV branch, then [Connection(self._settings)].
    [dns_srv] is [settings.get("dns-srv")].  The step in between, which
    fills the [attributes] key and reads none of the keys used here, is
    taken to accept the connection attributes. *)
Definition connection_for (s : Settings.t) (dns_srv : bool) (q : query)
  : result Connection.t * Settings.t :=
  if host_given s && dns_srv then
    match q with
    | NoDnsPython =>
        (Raise (InterfaceError
                  "MySQL host configuration requested DNS SRV. This requires the Python dnspython module. Please refer to documentation"
                  None),
         s)
    | Unresolved =>
        (Raise (InterfaceError
                  ("Unable to locate any hosts for '" ++ default "" (Settings.host s) ++ "'")%string
                  None),
         s)
    | Records srv_records =>
        Connection.__init__ (Settings.set_routers s (map srv_router srv_records)) None
    end
  else Connection.__init__ s None.

End SessionInit.

(** ** Sample objects *)

Module PoolSamples.
Import ConnectionPool.

(** A pool as the constructor leaves it with [max_size=2]. *)
Definition pool0 : t :=
  {| name := "p"; _connections_openned := [];
     _available := true; _timeout := 0; _timeout_stamp := 0;
     pool_max_size := 2; maxsize := 2; queue := [];
     reset_session := true; max_idle_time := 25;
     queue_timeout := 25; priority := 0;
     cnx_config :=
       {| kw_max_size := Some 2; kw_reset_session := None;
          kw_max_idle_time := None; kw_queue_timeout := None;
          kw_priority := None; kw_host := "h"; kw_port := 33060 |} |}.

Definition kw2 : kwargs :=
  {| kw_max_size := Some 2; kw_reset_session := Some false;
     kw_max_idle_time := None; kw_queue_timeout := None;
     kw_priority := None; kw_host := "h"; kw_port := 33060 |}.

Definition quiet : env :=
  {| new_connection := Raise (OtherError "MySQLx Connection not available");
     reset_session_outcome := fun _ => Ok tt;
     close_connection_outcome := fun _ => Closed |}.

Definition cnx1 : PooledConnection := {| cnx_id := 1; _server_disconnected := false |}.

Definition cnx2 : PooledConnection := {| cnx_id := 2; _server_disconnected := false |}.

Definition cnx3 : PooledConnection := {| cnx_id := 3; _server_disconnected := false |}.

Definition two_adds : list op :=
  [AddConnection quiet (Pooled cnx1); AddConnection quiet (Pooled cnx2)].

Definition kw0 : kwargs :=
  {| kw_max_size := Some 0; kw_reset_session := Some false;
     kw_max_idle_time := None; kw_queue_timeout := None;
     kw_priority := None; kw_host := "h"; kw_port := 33060 |}.

(** The pool that [ConnectionPool("pool", max_size=0, host="h", port=33060)]
    builds at clock value 0. *)
Definition pool_zero : t :=
  match __init__ "pool" kw0 0 with
  | Ok p => p
  | Raise _ => pool0
  end.

End PoolSamples.

Module PenaltySamples.
Import PoolsManager.

Definition refused_then_unresolved : error :=
  {| errno := Some (-1); msg := "[Errno 111] Connection refused; [Errno -2] Name or service not known" |}.

(** The code table after [update_timeout_penalties_by_error({1053: 0})]. *)
Definition restarting_zeroed : gmap Z Z :=
  update_timeout_penalties_by_error _TIMEOUT_PENALTIES_BY_ERR_NO (Some {[ 1053 := 0 ]}).

(** The code table after
    [update_timeout_penalties_by_error({2013: 10 ** 15})]. *)
Definition lost_connection_huge : gmap Z Z :=
  update_timeout_penalties_by_error _TIMEOUT_PENALTIES_BY_ERR_NO
    (Some {[ 2013 := 1000000000000000 ]}).

End PenaltySamples.

Module RouterSamples.
Import RouterManager.

Definition mk (h : string) (pr : option Z) : Router.params :=
  {| Router.host := h; Router.port := Some 33060; Router.socket := None;
     Router.priority := pr; Router.p_available := None |}.

Definition no_settings : Settings.t :=
  {| Settings.user := None; Settings.password := None; Settings.schema := None;
     Settings.routers := None; Settings.host := None; Settings.port := None;
     Settings.socket := None; Settings.connect_timeout := None |}.

Definition first_of (lo hi : Z) : Z := lo.

Definition first_of_turn (n : nat) (lo hi : Z) : Z := lo.

Definition rm3 : t :=
  match fst (__init__ [mk "c" (Some 50); mk "a" (Some 100); mk "b" (Some 100)] no_settings) with
  | Ok rm => rm
  | Raise _ => {| _routers := []; _settings := no_settings; _cur_priority_idx := 0%nat;
                  _can_failover := true; _routers_directory := ∅;
                  routers_priority_list := [] |}
  end.

(** Priorities [100, 100, 50] with both routers of priority 100 marked
    unavailable. *)
Definition rm_last_single : t :=
  router_set_unavailable
    (router_set_unavailable rm3 (InDirectory 100 0%nat)) (InDirectory 100 1%nat).

Definition router_c : Router.t := Router.__init__ (mk "c" (Some 50)).

End RouterSamples.

Module ConnectionSamples.
Import Connection.

Definition two_routers : Settings.t :=
  {| Settings.user := Some "u"; Settings.password := None; Settings.schema := None;
     Settings.routers :=
       Some [RouterSamples.mk "a" (Some 100); RouterSamples.mk "b" (Some 50)];
     Settings.host := None; Settings.port := None;
     Settings.socket := None; Settings.connect_timeout := None |}.

Definition cnx_two : t :=
  match fst (__init__ two_routers None) with
  | Ok c => c
  | Raise _ =>
      {| settings := two_routers; stream := SocketStream.__init__; protocol := false;
         keep_open := None; _user := None; _password := None; _schema := None;
         _routers := []; router_manager := RouterSamples.rm3;
         _connect_timeout := None; _stmt_counter := 0; _prepared_stmt_ids := [];
         _prepared_stmt_supported := true; _server_disconnected := false;
         pool := None |}
  end.

Definition always_times_out (n : nat) (p : Router.connection_params) (t : option Z)
  : attempt :=
  Failed {| is_socket_timeout := true; text := "timed out" |} false.

Definition one_host : Settings.t :=
  {| Settings.user := Some "u"; Settings.password := None; Settings.schema := None;
     Settings.routers := None; Settings.host := Some "db1";
     Settings.port := Some 33060; Settings.socket := None;
     Settings.connect_timeout := None |}.

(** A direct connection to [db1] whose socket is open. *)
Definition open_cnx : Connection.t :=
  match fst (Connection.__init__ one_host None) with
  | Ok c => Connection.set_stream c (SocketStream.opened (Connection.stream c)) true
  | Raise _ => ConnectionSamples.cnx_two
  end.

End ConnectionSamples.

Module PipelineSamples.
Import Pipeline.

Definition accept_all (tr : list msg) (m : msg) : option exn := None.

Definition nothing_to_fetch (tr : list msg) : option exn := None.

Definition id_seven (s : Statement.t) : option Z := Some 7.

Definition repeated_when_one (s : Statement.t) : bool := Statement.exec_counter s =? 1.

Definition fresh_stmt : Statement.t :=
  {| Statement.stmt_id := None; Statement.prepared := false;
     Statement.changed := false; Statement.deallocate_prepare_execute := false;
     Statement.exec_counter := 0 |}.

Definition w_fresh : world :=
  {| cnx := ConnectionSamples.cnx_two; stmt := fresh_stmt; sent := [] |}.

Definition w_unsupported : world :=
  {| cnx := Connection.set_prepared ConnectionSamples.cnx_two [] false;
     stmt := fresh_stmt; sent := [] |}.

End PipelineSamples.

Module ClientSamples.
Import Client.

(** [max_idle_time=10 ** 400], a time whose seconds no float holds. *)
Definition idle_huge : gmap string value := {[ "max_idle_time" := VInt (10 ^ 400) ]}.

(** A [max_idle_time] one millisecond short of [2 ** 45] seconds. *)
Definition idle_rounded : gmap string value :=
  {[ "max_idle_time" := VInt 35184372088831999 ]}.



Definition size_three : gmap string value := {[ "max_size" := VInt 3 ]}.

(** The client built with [max_size=3] and no connect timeout. *)
Definition client_three : t :=
  match __init__ None size_three with
  | Ok cl => cl
  | Raise _ =>
      {| max_size := 0; max_idle_time := 0; queue_timeout := 0; pooling_enabled := false;
         settings_max_idle_time := 0; settings_queue_timeout := 0;
         settings_connect_timeout := 0 |}
  end.

End ClientSamples.

Module SessionSamples.
Import Session.

Definition polite : env :=
  {| closing := fun _ => BodyDone;
     return_to_pool := fun c => (Ok tt, c) |}.

Definition session0 : t :=
  {| _settings := ConnectionSamples.one_host; _connection := 0 |}.

End SessionSamples.

Module PrioritySamples.
Import RouterManager.
Import RouterSamples.

Definition too_high_routers : list Router.params := [mk "a" (Some 101)].

Definition mixed_routers : list Router.params := [mk "a" (Some 10); mk "b" None].

Definition three_routers : list Router.params :=
  [mk "c" (Some 50); mk "a" (Some 100); mk "b" (Some 100)].

(** Priorities [100, 100, 50] with the three routers marked unavailable. *)
Definition rm_all_down : t :=
  router_set_unavailable rm_last_single (InDirectory 50 0%nat).

(** The manager after a call of [get_next_router]. *)
Definition after_next (rm : t) : t :=
  match get_next_router first_of rm with
  | Some (_, rm') => rm'
  | None => rm
  end.

End PrioritySamples.

Module SettingsSamples.

(** Two routers without priority next to a [host]. *)
Definition host_and_routers : Settings.t :=
  {| Settings.user := Some "u"; Settings.password := None; Settings.schema := None;
     Settings.routers := Some [RouterSamples.mk "a" None; RouterSamples.mk "b" None];
     Settings.host := Some "db1"; Settings.port := Some 33060;
     Settings.socket := None; Settings.connect_timeout := None |}.

(** The same settings once a connection has been built from them. *)
Definition host_and_routers_after : Settings.t :=
  snd (Connection.__init__ host_and_routers None).

Definition cnx_host_and_routers : Connection.t :=
  match fst (Connection.__init__ host_and_routers None) with
  | Ok c => c
  | Raise _ => ConnectionSamples.cnx_two
  end.

(** A session over these settings, holding the connection built from
    them. *)
Definition session_host_and_routers : Session.t :=
  {| Session._settings := host_and_routers_after; Session._connection := 0 |}.

End SettingsSamples.

Module FailoverSamples.
Import Connection.

(** [cnx_two] after a [connect] whose attempts all timed out. *)
Definition cnx_two_exhausted : t :=
  match connect_attempts RouterSamples.first_of_turn ConnectionSamples.always_times_out
          ConnectionSamples.cnx_two with
  | Some (_, c') => c'
  | None => ConnectionSamples.cnx_two
  end.

(** A connection to the single host [db1]. *)
Definition cnx_one : t :=
  match fst (__init__ ConnectionSamples.one_host None) with
  | Ok c => c
  | Raise _ => ConnectionSamples.cnx_two
  end.

(** [cnx_one] after a [connect] that timed out. *)
Definition cnx_one_after : t :=
  match connect RouterSamples.first_of_turn ConnectionSamples.always_times_out cnx_one with
  | Some (_, c') => c'
  | None => cnx_one
  end.

(** A network on which the first attempt fails and the second one is
    accepted. *)
Definition second_accepts (n : nat) (p : Router.connection_params) (t : option Z)
  : attempt :=
  match n with
  | O => Failed {| is_socket_timeout := false; text := "[Errno 111] Connection refused" |}
           false
  | S _ => Established
  end.

(** [cnx_two] after a [connect] on that network. *)
Definition cnx_two_connected : t :=
  match connect RouterSamples.first_of_turn second_accepts ConnectionSamples.cnx_two with
  | Some (_, c') => c'
  | None => ConnectionSamples.cnx_two
  end.

End FailoverSamples.

Module DrainSamples.
Import ConnectionPool.

(** Three tracked connections, one of them idle in the queue. *)
Definition pool_idle : t :=
  set_queue (set_openned PoolSamples.pool0
               [PoolSamples.cnx1; PoolSamples.cnx2; PoolSamples.cnx3])
    [PoolSamples.cnx2].

Definition pool_idle_drained : t := snd (remove_connections PoolSamples.quiet pool_idle).

(** A connection the server has disconnected. *)
Definition cnx_lost : PooledConnection := {| cnx_id := 4; _server_disconnected := true |}.

End DrainSamples.

Module ChoiceSamples.
Import ConnectionPool.

(** A pool under a penalty of 60 seconds since clock value 0. *)
Definition pool_down : t := set_unavailable PoolSamples.pool0 60 0.

(** An unavailable pool followed by an available one, both of
    priority 0. *)
Definition down_then_up : list t := [pool_down; PoolSamples.pool0].

(** Two pools under penalty. *)
Definition all_down : list t := [pool_down; pool_down].

End ChoiceSamples.

Module HandshakeSamples.
Import Handshake.

(** A table with one alias per algorithm. *)
Definition aliases : gmap string string :=
  {[ "zstd" := "zstd_stream"; "zstd_stream" := "zstd_stream";
     "lz4" := "lz4_message"; "lz4_message" := "lz4_message";
     "deflate" := "deflate_stream"; "deflate_stream" := "deflate_stream" ]}.

Definition announced (algorithm : string) : option exn := None.

(** A server that offers deflate and lz4. *)
Definition deflate_and_lz4 : list (string * list string) :=
  [("algorithm", ["deflate_stream"; "lz4_message"])].

Definition zstd_then_lz4 : list string := ["zstd"; "lz4"].

(** A server that refuses [MYSQL41] and accepts the other methods. *)
Definition mysql41_refused (a : Auth) : result unit :=
  match a with
  | MYSQL41 => Raise (InterfaceError "Invalid user or password" None)
  | _ => Ok tt
  end.

Definition str_exn (e : exn) : string :=
  match e with
  | InterfaceError m _ => m
  | _ => "error"
  end.

End HandshakeSamples.

Module PathSamples.
Import Pipeline.



(** A prepared statement flagged for deallocate-prepare-execute. *)
Definition flagged_stmt : Statement.t :=
  {| Statement.stmt_id := Some 3; Statement.prepared := true;
     Statement.changed := false; Statement.deallocate_prepare_execute := true;
     Statement.exec_counter := 3 |}.

Definition w_flagged : world :=
  {| cnx := Connection.set_prepared ConnectionSamples.cnx_two [Some 3] true;
     stmt := flagged_stmt; sent := [] |}.

(** A server without prepared statements. *)
Definition rejecting (tr : list msg) (m : msg) : option exn :=
  match m with
  | PreparePrepare => Some NotSupportedError
  | _ => None
  end.

(** [w_flagged] once [_deallocate_statement] has run against that
    server. *)
Definition w_deallocated : world := snd (_deallocate_statement rejecting w_flagged).

(** [w_fresh] after a first execution. *)
Definition w_fresh_after : world :=
  snd (_execute_prepared_pipeline PipelineSamples.accept_all
         PipelineSamples.nothing_to_fetch PipelineSamples.id_seven
         PipelineSamples.repeated_when_one PipelineSamples.w_fresh).

End PathSamples.

Module SrvSamples.
Import SessionInit.

Definition two_records : list srv :=
  [ {| target := "db1.example.com"; srv_port := 33060; srv_priority := 0; weight := 5 |};
    {| target := "db2.example.com"; srv_port := 33060; srv_priority := 10; weight := 5 |} ].

End SrvSamples.

(* ================================================================= *)
(** * Properties *)

(** ** ConnectionPool: health flag *)

Module ConnectionPoolHealth.
Import ConnectionPool.
Import PoolSamples.

Lemma unavailable_pool_keeps_penalty (p : t) (time_out now : Z) :
  available p = false -> set_unavailable p time_out now = p.
Proof.
  unfold available, set_unavailable. intros H. rewrite H. reflexivity.
Qed.

(** C8: [set_unavailable] on a pool that is already unavailable changes
    nothing; the stored penalty and its time stamp keep their values. *)
Theorem set_unavailable_while_unavailable (p : t) (time_out now : Z) :
  available p = false ->
  set_unavailable p time_out now = p
  /\ get_timeout_stamp (set_unavailable p time_out now) = get_timeout_stamp p
  /\ available (set_unavailable p time_out now) = false.
Proof.
  intros H. rewrite (unavailable_pool_keeps_penalty p time_out now H). auto.
Qed.

Lemma set_unavailable_while_unavailable_witness :
  let p := set_unavailable pool0 86400 1000 in
  available p = false
  /\ set_unavailable p 60 5000 = p
  /\ get_timeout_stamp (set_unavailable p 60 5000) = (86400, 1000).
Proof.
  cbv zeta.
  pose proof (set_unavailable_while_unavailable
                (set_unavailable pool0 86400 1000) 60 5000 eq_refl) as [H1 [H2 H3]].
  split; [reflexivity | split; [exact H1 | rewrite H2; reflexivity]].
Defined.

End ConnectionPoolHealth.

(** ** PoolsManager: penalty classification *)

Module PoolsManagerPenalty.
Import PoolsManager.
Import PenaltySamples.

(** The table the module starts with. *)
Lemma by_err_no_table (err_no p : Z) :
  _TIMEOUT_PENALTIES_BY_ERR_NO !! err_no = Some p -> err_no = 1053 /\ p = 60.
Proof.
  unfold _TIMEOUT_PENALTIES_BY_ERR_NO, _PENALTY_RESTARTING.
  intros H. apply lookup_singleton_Some in H. destruct H; subst; auto.
Qed.

(** An update lets the new entries win and keeps the other ones. *)
Lemma update_lookup (by_err_no d : gmap Z Z) (err_no : Z) :
  update_timeout_penalties_by_error by_err_no (Some d) !! err_no
  = match d !! err_no with
    | Some p => Some p
    | None => by_err_no !! err_no
    end.
Proof.
  unfold update_timeout_penalties_by_error.
  destruct (bool_decide_reflect (d = ∅)) as [-> | _].
  - rewrite lookup_empty. reflexivity.
  - rewrite lookup_union. destruct (d !! err_no), (by_err_no !! err_no); reflexivity.
Qed.

(** The loop over the message table, unrolled: a later key that occurs
    in the message wins over an earlier one. *)
Lemma penalty_by_msg_unrolled (init : option Z) (m : string) :
  penalty_by_msg init m =
    if contains "Access denied" m then Some 86400
    else if contains "[Errno -2]" m then Some 3600
    else if contains "[Errno 11001]" m then Some 3600
    else if contains "[WinError 10060]" m then Some 3600
    else if contains "[Errno 111]" m then Some 1000000
    else if contains "[WinError 10061]" m then Some 1000000
    else if contains "[Errno 32]" m then Some 60
    else if contains "[WinError 10053]" m then Some 60
    else init.
Proof.
  unfold penalty_by_msg, _TIMEOUT_PENALTIES. cbn [fold_left fst snd].
  reflexivity.
Qed.

(** When the code gives no penalty, or the penalty 0, the message
    decides. *)
Lemma penalty_of_no_code (by_err_no : gmap Z Z) (err : error) :
  truthy (penalty_by_err_no by_err_no err) = false ->
  penalty_of by_err_no err = default 100000 (penalty_by_msg None (msg err)).
Proof.
  intros H. unfold penalty_of. cbv zeta. rewrite H. cbn [negb].
  rewrite !penalty_by_msg_unrolled.
  repeat match goal with
         | |- context [contains ?k ?m] => destruct (contains k m); [reflexivity|]
         end.
  destruct (penalty_by_err_no by_err_no err) as [v|]; [| reflexivity].
  rewrite H. reflexivity.
Qed.

(** The code gives no penalty, or the penalty 0. *)
Lemma no_penalty_by_code (by_err_no : gmap Z Z) (err : error) :
  truthy (penalty_by_err_no by_err_no err) = false
  <-> errno err = None
      \/ exists err_no, errno err = Some err_no
                        /\ (by_err_no !! err_no = None \/ by_err_no !! err_no = Some 0).
Proof.
  unfold penalty_by_err_no, truthy. destruct (errno err) as [n|].
  - destruct (by_err_no !! n) as [v|] eqn:E.
    + destruct (Z.eqb_spec v 0) as [-> | Hne]; cbn [negb].
      * split; [intros _; right; exists n; auto | reflexivity].
      * split; [discriminate|].
        intros [H | (m & [= <-] & [H | H])]; [discriminate H | congruence | congruence].
    + split; [intros _; right; exists n; auto | reflexivity].
  - split; [auto | reflexivity].
Qed.

(** C3 (as amended): whatever the code table holds after the updates
    made to it, a code found in it with a penalty other than 0 decides
    the penalty whatever the message says; without a code, with a code
    that is not in the table, or with a penalty of 0, the last entry of
    the message table whose key occurs in the message decides, so
    "Access denied" gives 86400 s, "[Errno 111]" gives 1000000 s when no
    later key occurs, and a message matching no key gives 100000 s. *)
Theorem set_pool_unavailable_penalty (by_err_no : gmap Z Z) (pool : ConnectionPool.t)
    (err : error) (now : Z) :
  (forall err_no p,
      errno err = Some err_no ->
      by_err_no !! err_no = Some p ->
      p <> 0 ->
      forall m, set_pool_unavailable by_err_no pool {| errno := errno err; msg := m |} now
                = ConnectionPool.set_unavailable pool p now)
  /\ (errno err = None
      \/ (exists err_no, errno err = Some err_no
                         /\ (by_err_no !! err_no = None \/ by_err_no !! err_no = Some 0)) ->
      (contains "Access denied" (msg err) = true ->
       set_pool_unavailable by_err_no pool err now
       = ConnectionPool.set_unavailable pool 86400 now)
      /\ (contains "[Errno 111]" (msg err) = true ->
          contains "[WinError 10060]" (msg err) = false ->
          contains "[Errno 11001]" (msg err) = false ->
          contains "[Errno -2]" (msg err) = false ->
          contains "Access denied" (msg err) = false ->
          set_pool_unavailable by_err_no pool err now
          = ConnectionPool.set_unavailable pool 1000000 now)
      /\ ((forall key value, In (key, value) _TIMEOUT_PENALTIES ->
                             contains key (msg err) = false) ->
          set_pool_unavailable by_err_no pool err now
          = ConnectionPool.set_unavailable pool 100000 now)).
Proof.
  split.
  - intros err_no p He Hl Hp m.
    unfold set_pool_unavailable, penalty_of, penalty_by_err_no.
    cbn [errno msg]. rewrite He, Hl. unfold truthy.
    destruct (Z.eqb_spec p 0) as [-> | _]; [contradiction|].
    cbn [negb]. destruct (Z.eqb_spec p 0) as [-> | _]; [contradiction | reflexivity].
  - intros Hnone. apply no_penalty_by_code in Hnone. unfold set_pool_unavailable.
    rewrite (penalty_of_no_code _ _ Hnone), penalty_by_msg_unrolled.
    split; [|split].
    + intros ->. reflexivity.
    + intros H111 H60 H11001 H2 Had.
      rewrite Had, H2, H11001, H60, H111. reflexivity.
    + intros Hno.
      assert (Hk : forall key, In key (map fst _TIMEOUT_PENALTIES) ->
                               contains key (msg err) = false).
      { intros key Hin. apply in_map_iff in Hin as [[k v] [<- Hin]]. eauto. }
      rewrite !Hk by (cbn; tauto).
      reflexivity.
Qed.

Lemma set_pool_unavailable_penalty_witness :
  set_pool_unavailable _TIMEOUT_PENALTIES_BY_ERR_NO PoolSamples.pool0
    {| errno := Some 1053; msg := "Access denied" |} 7
  = ConnectionPool.set_unavailable PoolSamples.pool0 60 7
  /\ set_pool_unavailable _TIMEOUT_PENALTIES_BY_ERR_NO PoolSamples.pool0
       {| errno := Some (-1); msg := "Access denied for user" |} 7
     = ConnectionPool.set_unavailable PoolSamples.pool0 86400 7
  /\ set_pool_unavailable _TIMEOUT_PENALTIES_BY_ERR_NO PoolSamples.pool0
       {| errno := Some (-1); msg := "[Errno 111] Connection refused" |} 7
     = ConnectionPool.set_unavailable PoolSamples.pool0 1000000 7
  /\ set_pool_unavailable _TIMEOUT_PENALTIES_BY_ERR_NO PoolSamples.pool0
       {| errno := None; msg := "boom" |} 7
     = ConnectionPool.set_unavailable PoolSamples.pool0 100000 7
  /\ set_pool_unavailable restarting_zeroed PoolSamples.pool0
       {| errno := Some 1053; msg := "Access denied for user" |} 7
     = ConnectionPool.set_unavailable PoolSamples.pool0 86400 7.
Proof.
  split; [|split; [|split; [|split]]].
  - apply (proj1 (set_pool_unavailable_penalty _TIMEOUT_PENALTIES_BY_ERR_NO
                    PoolSamples.pool0 {| errno := Some 1053; msg := "" |} 7)
                 1053 60 eq_refl eq_refl).
    discriminate.
  - apply (proj1 (proj2 (set_pool_unavailable_penalty _TIMEOUT_PENALTIES_BY_ERR_NO
                    PoolSamples.pool0
                    {| errno := Some (-1); msg := "Access denied for user" |} 7)
                    (or_intror (ex_intro _ (-1) (conj eq_refl (or_introl eq_refl)))))).
    reflexivity.
  - apply (proj1 (proj2 (proj2 (set_pool_unavailable_penalty _TIMEOUT_PENALTIES_BY_ERR_NO
                    PoolSamples.pool0
                    {| errno := Some (-1); msg := "[Errno 111] Connection refused" |} 7)
                    (or_intror (ex_intro _ (-1) (conj eq_refl (or_introl eq_refl)))))));
      reflexivity.
  - apply (proj2 (proj2 (proj2 (set_pool_unavailable_penalty _TIMEOUT_PENALTIES_BY_ERR_NO
                    PoolSamples.pool0 {| errno := None; msg := "boom" |} 7)
                    (or_introl eq_refl)))).
    intros key value Hin. unfold _TIMEOUT_PENALTIES in Hin. cbn [In] in Hin.
    repeat (destruct Hin as [Hin | Hin]; [inversion Hin; reflexivity|]).
    destruct Hin.
  - apply (proj1 (proj2 (set_pool_unavailable_penalty restarting_zeroed
                    PoolSamples.pool0
                    {| errno := Some 1053; msg := "Access denied for user" |} 7)
                    (or_intror (ex_intro _ 1053
                                  (conj eq_refl
                                     (or_intror (update_lookup _ _ 1053))))))).
    reflexivity.
Defined.

(** C3, as stated, fails: the message contains "[Errno 111]" and not
    "Access denied", no code matches, and the penalty is 3600 s. *)
Lemma errno_111_overridden :
  penalty_by_err_no _TIMEOUT_PENALTIES_BY_ERR_NO refused_then_unresolved = None
  /\ contains "[Errno 111]" (msg refused_then_unresolved) = true
  /\ contains "Access denied" (msg refused_then_unresolved) = false
  /\ penalty_of _TIMEOUT_PENALTIES_BY_ERR_NO refused_then_unresolved = 3600
  /\ set_pool_unavailable _TIMEOUT_PENALTIES_BY_ERR_NO PoolSamples.pool0
       refused_then_unresolved 7
     <> ConnectionPool.set_unavailable PoolSamples.pool0 1000000 7.
Proof.
  repeat split; try reflexivity. intros H. discriminate H.
Qed.

(** The first clause of C3 fails as well once the table holds a
    penalty of 0: the code 1053 is found in the table, and the message
    decides. *)
Lemma zero_penalty_consults_message :
  restarting_zeroed !! 1053 = Some 0
  /\ penalty_of restarting_zeroed {| errno := Some 1053; msg := "Access denied" |} = 86400
  /\ penalty_of restarting_zeroed {| errno := Some 1053; msg := "boom" |} = 100000.
Proof.
  split; [exact (update_lookup _ _ 1053)|].
  assert (H : forall m, truthy (penalty_by_err_no restarting_zeroed
                                  {| errno := Some 1053; msg := m |}) = false).
  { intros m. unfold penalty_by_err_no. cbn [errno].
    rewrite (update_lookup _ _ 1053 : restarting_zeroed !! 1053 = Some 0). reflexivity. }
  rewrite !penalty_of_no_code by apply H. split; reflexivity.
Qed.

End PoolsManagerPenalty.

(** ** PoolsManager: the penalty window *)

Module PoolsManagerWindow.
Import PoolsManager.

(** The end of a penalty, when there is one. *)
Lemma penalty_end_ok (T P D : Z) :
  penalty_end T P = Ok D <->
  (-999999999 <= P / 86400 <= 999999999)
  /\ 0 <= T + P * 1000000 <= datetime_max
  /\ D = T + P * 1000000.
Proof.
  unfold penalty_end, timedelta_seconds, datetime_add, is_datetime.
  destruct (Z.leb_spec (-999999999) (P / 86400));
    destruct (Z.leb_spec (P / 86400) 999999999); cbn [andb];
    try (split; [discriminate | lia]).
  destruct (Z.leb_spec 0 (T + P * 1000000));
    destruct (Z.leb_spec (T + P * 1000000) datetime_max); cbn [andb];
    try (split; [discriminate | lia]).
  split; [intros [= <-]; lia | intros (_ & _ & ->); reflexivity].
Qed.

(** Nothing but [OverflowError] comes out of it. *)
Lemma penalty_end_raises (T P : Z) (e : exn) :
  penalty_end T P = Raise e -> e = OverflowError.
Proof.
  unfold penalty_end, timedelta_seconds, datetime_add.
  destruct (_ && _); [| intros [= <-]; reflexivity].
  destruct (is_datetime _); [discriminate | intros [= <-]; reflexivity].
Qed.

Lemma marked_pool (pool : ConnectionPool.t) (P T : Z) :
  ConnectionPool.available pool = true ->
  ConnectionPool.available (ConnectionPool.set_unavailable pool P T) = false
  /\ ConnectionPool.get_timeout_stamp (ConnectionPool.set_unavailable pool P T) = (P, T).
Proof.
  unfold ConnectionPool.set_unavailable, ConnectionPool.available. intros ->. auto.
Qed.

(** A scan of an unavailable pool, by the end of its penalty. *)
Lemma check_unavailable (p : ConnectionPool.t) (now : Z) :
  ConnectionPool.available p = false ->
  check_pool None now p
  = match penalty_end (ConnectionPool._timeout_stamp p) (ConnectionPool._timeout p) with
    | Raise e => Raise e
    | Ok D => if D <? now then Ok (ConnectionPool.set_available p now) else Ok p
    end.
Proof. intros Hav. unfold check_pool. rewrite Hav. reflexivity. Qed.







(** A penalty that the code table can hold after an update and that
    leads past [datetime.max]: every scan raises, at any time. *)
Lemma penalty_beyond_datetime (T now : Z) :
  is_datetime T = true ->
  let p := set_pool_unavailable PenaltySamples.lost_connection_huge PoolSamples.pool0
             {| errno := Some 2013; msg := "Lost connection" |} T in
  ConnectionPool.get_timeout_stamp p = (1000000000000000, T)
  /\ check_pool None now p = Raise OverflowError.
Proof.
  intros HT. cbv zeta.
  assert (Hp : penalty_of PenaltySamples.lost_connection_huge
                 {| errno := Some 2013; msg := "Lost connection" |} = 1000000000000000).
  { unfold penalty_of, penalty_by_err_no. cbn [errno].
    rewrite (PoolsManagerPenalty.update_lookup _ _ 2013
             : PenaltySamples.lost_connection_huge !! 2013 = Some 1000000000000000).
    reflexivity. }
  unfold set_pool_unavailable. rewrite Hp.
  destruct (marked_pool PoolSamples.pool0 1000000000000000 T eq_refl) as [Hm Hs].
  split; [exact Hs|].
  rewrite (check_unavailable _ now Hm).
  change (ConnectionPool._timeout_stamp
            (ConnectionPool.set_unavailable PoolSamples.pool0 1000000000000000 T))
    with T.
  change (ConnectionPool._timeout
            (ConnectionPool.set_unavailable PoolSamples.pool0 1000000000000000 T))
    with 1000000000000000.
  destruct (penalty_end T 1000000000000000) as [D | e] eqn:E.
  - apply penalty_end_ok in E. unfold is_datetime, datetime_max in *.
    destruct (Z.leb_spec 0 T); [| discriminate]. lia.
  - apply penalty_end_raises in E. subst e. reflexivity.
Qed.

End PoolsManagerWindow.

(** ** ConnectionPool: capacity *)

Module ConnectionPoolCapacity.
Import ConnectionPool.
Import PoolSamples.

Lemma put_nowait_bounded (M : Z) (p : t) (c : PooledConnection) :
  0 < M -> bounded M p -> bounded M (snd (put_nowait p c)).
Proof.
  intros HM [[Hmax Hpm] Hq]. unfold put_nowait, full.
  destruct (Z.ltb_spec 0 (maxsize p)); [| lia].
  destruct (Z.leb_spec (maxsize p) (qsize p)); cbn [andb snd].
  - repeat split; assumption.
  - split; [split; assumption|].
    unfold qsize in *. cbn [set_queue queue]. rewrite length_app. cbn [length]. lia.
Qed.

Lemma get_bounded (M : Z) (p : t) (timeout : Z) :
  bounded M p -> bounded M (snd (get p timeout)).
Proof.
  intros [Hmax Hq]. unfold get.
  destruct (timeout <? 0); [split; assumption|].
  destruct (queue p) as [| c q] eqn:E; cbn [snd]; [split; assumption|].
  split; [exact Hmax|]. unfold qsize in *. rewrite E in Hq.
  cbn [set_queue queue length] in *. lia.
Qed.

Lemma remove_connection_bounded (M : Z) (p : t) (c : PooledConnection) :
  bounded M p -> bounded M (snd (remove_connection p c)).
Proof.
  intros Hb. unfold remove_connection.
  destruct (list_remove c (_connections_openned p)); exact Hb.
Qed.

Lemma remove_connections_from_bounded (M : Z) (ev : env) (items : list PooledConnection) :
  forall p, bounded M p -> bounded M (snd (remove_connections_from ev items p)).
Proof.
  induction items as [| c rest IH]; intros p Hb; cbn [remove_connections_from snd].
  - exact Hb.
  - pose proof (get_bounded M p (queue_timeout p) Hb) as Hg.
    destruct (get p (queue_timeout p)) as [[cnx | e] p1]; cbn [snd] in Hg.
    + pose proof (remove_connection_bounded M p1 cnx Hg) as Hr.
      destruct (remove_connection p1 cnx) as [[[] | e] p2]; cbn [snd] in Hr.
      * destruct (close_connection_outcome ev cnx); auto.
      * exact Hr.
    + destruct e; auto.
Qed.

Lemma queue_connection_bounded (M : Z) (ev : env) (p : t) (cnx : cnx_arg) :
  0 < M -> bounded M p -> bounded M (snd (queue_connection ev p cnx)).
Proof.
  intros HM Hb. unfold queue_connection. destruct cnx as [| c |]; try exact Hb.
  destruct (if reset_session p then reset_session_outcome ev c else Ok tt); [| exact Hb].
  pose proof (put_nowait_bounded M p c HM Hb) as Hp.
  destruct (put_nowait p c) as [[[] | e] p1]; cbn [snd] in *; [exact Hp|].
  destruct e; exact Hp.
Qed.

Lemma add_connection_bounded (M : Z) (ev : env) (p : t) (cnx : cnx_arg) :
  0 < M -> bounded M p -> bounded M (snd (add_connection ev p cnx)).
Proof.
  intros HM Hb. unfold add_connection. cbn [cnx_config_empty].
  destruct (full p); [exact Hb|].
  destruct cnx as [| c |]; [| | exact Hb].
  - destruct (new_connection ev) as [c | e]; [| exact Hb].
    apply queue_connection_bounded; [exact HM | exact Hb].
  - destruct (_server_disconnected c).
    + pose proof (remove_connections_from_bounded M ev (queue p) p Hb) as Hr.
      unfold remove_connections.
      destruct (remove_connections_from ev (queue p) p) as [[[] | e] p1]; exact Hr.
    + apply queue_connection_bounded; assumption.
Qed.

Lemma apply_bounded (M : Z) (p : t) (o : op) :
  0 < M -> bounded M p -> bounded M (apply p o).
Proof.
  intros HM Hb. destruct o; cbn [apply].
  - apply add_connection_bounded; assumption.
  - apply queue_connection_bounded; assumption.
  - apply remove_connections_from_bounded; assumption.
  - apply get_bounded; assumption.
  - exact Hb.
  - apply remove_connection_bounded; assumption.
  - unfold set_unavailable. destruct (_available p); exact Hb.
  - exact Hb.
Qed.

Lemma run_bounded (M : Z) (ops : list op) :
  forall p, 0 < M -> bounded M p -> bounded M (run p ops).
Proof.
  induction ops as [| o ops IH]; intros p HM Hb; [exact Hb|].
  unfold run. cbn [fold_left]. apply IH; [exact HM|].
  apply apply_bounded; assumption.
Qed.

Lemma init_bounded (pool_name : string) (kw : kwargs) (now : Z) (pool : t) :
  __init__ pool_name kw now = Ok pool ->
  bounded (pool_max_size pool) pool \/ pool_max_size pool < 0.
Proof.
  unfold __init__. destruct (_set_pool_name pool_name); [| discriminate].
  intros [= <-]. unfold bounded, qsize. cbn. lia.
Qed.

Lemma add_connection_when_full (ev : env) (p : t) (cnx : cnx_arg) :
  full p = true ->
  add_connection ev p cnx
  = (Raise (PoolError "Failed adding connection; queue is full"), p).
Proof.
  intros H. unfold add_connection. cbn [cnx_config_empty]. rewrite H. reflexivity.
Qed.

(** C5 (as amended): a pool constructed with a positive [max_size]
    never queues more than [max_size] connections, whatever is called
    on it, and [add_connection] on a pool whose queue holds [max_size]
    connections raises the pool-full [PoolError] and leaves the pool as
    it was. *)
Theorem pool_capacity (pool_name : string) (kw : kwargs) (now : Z)
    (pool : t) (ops : list op) :
  __init__ pool_name kw now = Ok pool ->
  0 < pool_max_size pool ->
  let p := run pool ops in
  qsize p <= pool_max_size pool
  /\ (qsize p = pool_max_size pool ->
      forall ev cnx,
        add_connection ev p cnx
        = (Raise (PoolError "Failed adding connection; queue is full"), p)).
Proof.
  intros Hinit HM p.
  destruct (init_bounded _ _ _ _ Hinit) as [Hb | Hneg]; [| lia].
  pose proof (run_bounded _ ops pool HM Hb) as [[Hmax Hpm] Hq]. fold p in Hmax, Hpm, Hq.
  split; [exact Hq|].
  intros Hfull ev cnx. apply add_connection_when_full.
  unfold full. rewrite Hmax, Hfull.
  destruct (Z.ltb_spec 0 (pool_max_size pool)); [| lia].
  destruct (Z.leb_spec (pool_max_size pool) (pool_max_size pool)); [reflexivity | lia].
Qed.

Lemma pool_capacity_witness :
  exists pool,
    __init__ "pool" kw2 0 = Ok pool
    /\ queue (run pool two_adds) = [cnx1; cnx2]
    /\ add_connection quiet (run pool two_adds) (Pooled cnx3)
       = (Raise (PoolError "Failed adding connection; queue is full"),
          run pool two_adds).
Proof.
  eexists. split; [reflexivity|]. split; [reflexivity|].
  refine (proj2 (pool_capacity "pool" kw2 0 _ two_adds eq_refl _) _ quiet (Pooled cnx3)).
  - reflexivity.
  - reflexivity.
Defined.

(** C5, as stated, fails for [max_size=0]: the inherited queue is then
    unbounded, so [add_connection] succeeds on a queue that already
    holds [max_size] connections and the queue outgrows [max_size]. *)
Lemma zero_capacity_unbounded :
  __init__ "pool" kw0 0 = Ok pool_zero
  /\ qsize pool_zero = pool_max_size pool_zero
  /\ fst (add_connection quiet pool_zero (Pooled cnx1)) = Ok tt
  /\ pool_max_size pool_zero
     < qsize (snd (add_connection quiet pool_zero (Pooled cnx1))).
Proof.
  split; [reflexivity|]. repeat split.
Qed.

End ConnectionPoolCapacity.

(** ** RouterManager: failover across priority tiers *)

Module RouterManagerFacts.
Import RouterManager.
Import RouterSamples.

Example rm3_priorities : routers_priority_list rm3 = [100; 50].
Proof. reflexivity. Qed.

Example rm3_first :
  option_map fst (get_next_router first_of rm3)
  = Some (Ok (Some (InDirectory 100 0%nat, Router.__init__ (mk "a" (Some 100))))).
Proof. vm_compute. reflexivity. Qed.

Section Search.
Variable randint : Z -> Z -> Z.

Lemma available_routers_elem (rm : t) (p : Z) (l : list (nat * Router.t))
    (pos : nat) (r : Router.t) :
  _get_available_routers rm p = Ok l ->
  (pos, r) ∈ l ->
  deref rm (InDirectory p pos) = Some r /\ Router.available r = true.
Proof.
  unfold _get_available_routers, deref.
  destruct (_routers_directory rm !! p) as [rl|]; [| discriminate].
  intros [= <-] Hin.
  apply list_elem_of_filter in Hin as [Hav Hin]. cbn in Hav.
  apply elem_of_lookup_imap in Hin as (i & x & Heq & Hl).
  inversion Heq; subst. auto.
Qed.

Lemma random_params_some (rm : t) (p : Z) (ir : nat * Router.t) :
  _get_random_connection_params randint rm p = Ok (Some ir) ->
  exists l, _get_available_routers rm p = Ok l /\ ir ∈ l.
Proof.
  unfold _get_random_connection_params.
  destruct (_get_available_routers rm p) as [l | e]; [| discriminate].
  destruct l as [| x [| y l]].
  - discriminate.
  - intros [= <-]. exists [x]. split; [reflexivity | apply list_elem_of_here].
  - cbv zeta. destruct (py_index _ _) as [r|] eqn:E; [| discriminate].
    intros [= <-]. eexists; split; [reflexivity|].
    unfold py_index in E.
    repeat case_match; try discriminate; eapply list_elem_of_lookup_2; exact E.
Qed.

Lemma random_params_none (rm : t) (p : Z) :
  _get_random_connection_params randint rm p = Ok None ->
  _get_available_routers rm p = Ok [].
Proof.
  unfold _get_random_connection_params.
  destruct (_get_available_routers rm p) as [l | e]; [| discriminate].
  destruct l as [| x [| y l]]; [reflexivity | discriminate |].
  cbv zeta. destruct (py_index _ _); discriminate.
Qed.

Lemma random_params_empty (rm : t) (p : Z) :
  _get_available_routers rm p = Ok [] ->
  _get_random_connection_params randint rm p = Ok None.
Proof. unfold _get_random_connection_params. intros ->. reflexivity. Qed.

Lemma random_params_single (rm : t) (p : Z) (ir : nat * Router.t) :
  _get_available_routers rm p = Ok [ir] ->
  _get_random_connection_params randint rm p = Ok (Some ir).
Proof. unfold _get_random_connection_params. intros ->. reflexivity. Qed.

(** What a successful search has done: the directory and the lists are
    untouched, the index has moved to the tier of the selected router,
    and failover is switched off exactly when that tier is the last
    one and holds fewer than two available routers. *)
Lemma search_sound (fuel : nat) :
  forall (rm : t) (cur : Z) (pos : nat) (prio : Z) (r : Router.t) (rm' : t),
    (routers_priority_list rm !! _cur_priority_idx rm = Some cur
     \/ _get_available_routers rm cur = Ok []) ->
    search randint fuel rm cur = Some (Ok (Some (pos, prio, r)), rm') ->
    _routers_directory rm' = _routers_directory rm
    /\ routers_priority_list rm' = routers_priority_list rm
    /\ _routers rm' = _routers rm
    /\ _settings rm' = _settings rm
    /\ (_cur_priority_idx rm <= _cur_priority_idx rm')%nat
    /\ routers_priority_list rm !! _cur_priority_idx rm' = Some prio
    /\ exists l, _get_available_routers rm prio = Ok l /\ (pos, r) ∈ l
       /\ _can_failover rm'
          = if (Z.of_nat (_cur_priority_idx rm') =? plen rm - 1) && (length l <? 2)%nat
            then false else _can_failover rm.
Proof.
  induction fuel as [| fuel IH]; intros rm cur pos prio r rm' Hcur H;
    [discriminate|].
  cbn [search] in H.
  destruct (_get_random_connection_params randint rm cur) as [[ir|] | e] eqn:Er;
    [| | discriminate].
  - destruct (random_params_some _ _ _ Er) as (l & Hl & Hin).
    destruct Hcur as [Hcur | Hcur];
      [| rewrite Hcur in Hl; inversion Hl; subst; inversion Hin].
    rewrite bool_decide_eq_true_2 in H by discriminate. cbn [orb] in H.
    fold (plen rm) in H.
    destruct (Z.eqb_spec (Z.of_nat (_cur_priority_idx rm)) (plen rm - 1)) as [Heq | Hne].
    + rewrite Hl in H. destruct ir as [i x]. cbn [option_map fst snd] in H.
      assert (Hcf : forall b : bool,
                 (if b then set_can_failover rm false else rm)
                 = set_can_failover rm (if b then false else _can_failover rm)).
      { intros []; [reflexivity | by destruct rm]. }
      rewrite Hcf in H. inversion H; subst; clear H.
      cbn [set_can_failover _routers_directory routers_priority_list _routers
             _settings _cur_priority_idx _can_failover].
      do 4 (split; [reflexivity|]). split; [lia|]. split; [exact Hcur|].
      exists l. split; [exact Hl | split; [exact Hin|]].
      rewrite (proj2 (Z.eqb_eq _ _) Heq). reflexivity.
    + destruct ir as [i x]. cbn in H. inversion H; subst; clear H.
      do 4 (split; [reflexivity|]). split; [lia|]. split; [exact Hcur|].
      exists l. split; [exact Hl | split; [exact Hin|]].
      rewrite (proj2 (Z.eqb_neq _ _) Hne). reflexivity.
  - pose proof (random_params_none _ _ Er) as Hempty.
    rewrite bool_decide_eq_false_2 in H by (intros Hc; apply Hc; reflexivity).
    cbn [orb] in H. fold (plen rm) in H.
    destruct (Nat.leb_spec (length (routers_priority_list rm)) (_cur_priority_idx rm))
      as [Hge | Hlt].
    + destruct (Z.of_nat (_cur_priority_idx rm) =? plen rm - 1).
      * rewrite Hempty in H. cbn in H. discriminate.
      * cbn in H. discriminate.
    + apply IH in H.
      * destruct H as (Hd & Hp & Hr & Hs & Hi & Hlk & l & Hl & Hin & Hcf).
        cbn in Hd, Hp, Hr, Hs, Hi, Hlk, Hl, Hcf.
        do 4 (split; [assumption|]). split; [lia|]. split; [exact Hlk|].
        exists l. auto.
      * cbn [set_idx _cur_priority_idx routers_priority_list].
        destruct (Nat.ltb_spec (_cur_priority_idx rm + 1)
                    (length (routers_priority_list rm))) as [Hin | Hout].
        -- left.
           destruct (lookup_lt_is_Some_2 (routers_priority_list rm)
                       (_cur_priority_idx rm + 1)) as [c Hc]; [exact Hin|].
           rewrite Hc. reflexivity.
        -- right. exact Hempty.
Qed.

End Search.

Section NextRouter.
Variable randint : Z -> Z -> Z.

(** The loop of [get_next_router] ends within its fuel. *)
Lemma search_total (fuel : nat) :
  forall (rm : t) (cur : Z),
    (length (routers_priority_list rm) - _cur_priority_idx rm < fuel)%nat ->
    is_Some (search randint fuel rm cur).
Proof.
  induction fuel as [| fuel IH]; intros rm cur Hf; [lia|].
  cbn [search].
  destruct (_get_random_connection_params randint rm cur) as [router | e]; [| eauto].
  destruct (bool_decide (router <> None)
            || (length (routers_priority_list rm) <=? _cur_priority_idx rm)%nat) eqn:Eb.
  - destruct (_ =? _); [| eauto].
    destruct (_get_available_routers rm cur); eauto.
  - apply orb_false_iff in Eb as [_ Hlt]. apply Nat.leb_gt in Hlt.
    apply IH. cbn. lia.
Qed.

Lemma get_next_router_total (rm : t) : is_Some (get_next_router randint rm).
Proof.
  unfold get_next_router. destruct (_routers rm); [eauto|].
  destruct (routers_priority_list rm !! _) as [cur|]; [| eauto].
  destruct (search_total (search_fuel rm) rm cur) as [[res rm'] Hs].
  { unfold search_fuel. lia. }
  rewrite Hs. destruct res as [[[[pos prio] r]|] | e]; eauto.
Qed.

Lemma get_next_router_sound (rm rm' : t) (ref : router_ref) (r : Router.t) :
  _routers rm <> [] ->
  get_next_router randint rm = Some (Ok (Some (ref, r)), rm') ->
  exists prio pos l,
    ref = InDirectory prio pos
    /\ _routers_directory rm' = _routers_directory rm
    /\ routers_priority_list rm' = routers_priority_list rm
    /\ _routers rm' = _routers rm
    /\ _settings rm' = _settings rm
    /\ routers_priority_list rm !! _cur_priority_idx rm' = Some prio
    /\ _get_available_routers rm prio = Ok l /\ (pos, r) ∈ l
    /\ _can_failover rm'
       = if (Z.of_nat (_cur_priority_idx rm') =? plen rm - 1) && (length l <? 2)%nat
         then false else _can_failover rm.
Proof.
  intros Hne. unfold get_next_router.
  destruct (_routers rm) as [| x xs] eqn:Erm; [congruence|].
  destruct (routers_priority_list rm !! _) as [cur|] eqn:Ecur; [| discriminate].
  destruct (search randint (search_fuel rm) rm cur) as [[res rm1]|] eqn:Es;
    [| discriminate].
  destruct res as [[[[pos prio] r0]|] | e]; try discriminate.
  intros [= <- <- <-].
  destruct (search_sound randint _ _ _ _ _ _ _ (or_introl Ecur) Es)
    as (Hd & Hp & Hr & Hs & _ & Hlk & l & Hl & Hin & Hcf).
  exists prio, pos, l. repeat (split; [assumption || reflexivity || congruence|]). exact Hcf.
Qed.

(** Tiers [i .. last-1] have no available router left and the last
    tier has exactly one: the search walks down to it. *)
Lemma search_to_last (n : nat) :
  forall (fuel : nat) (rm : t) (cur plast : Z) (pos : nat) (r : Router.t),
    (n < fuel)%nat ->
    S (_cur_priority_idx rm + n) = length (routers_priority_list rm) ->
    routers_priority_list rm !! _cur_priority_idx rm = Some cur ->
    (forall i p, (_cur_priority_idx rm <= i)%nat ->
                 (S i < length (routers_priority_list rm))%nat ->
                 routers_priority_list rm !! i = Some p ->
                 _get_available_routers rm p = Ok []) ->
    routers_priority_list rm !! (_cur_priority_idx rm + n)%nat = Some plast ->
    _get_available_routers rm plast = Ok [(pos, r)] ->
    search randint fuel rm cur
    = Some (Ok (Some (pos, plast, r)),
            set_can_failover (set_idx rm (_cur_priority_idx rm + n)) false).
Proof.
  induction n as [| n IH]; intros fuel rm cur plast pos r Hf Hn Hcur Hempty Hlast Hone;
    (destruct fuel as [| fuel]; [lia|]); cbn [search].
  - rewrite Nat.add_0_r in *.
    rewrite Hcur in Hlast. inversion Hlast; subst plast.
    rewrite (random_params_single randint _ _ _ Hone).
    rewrite bool_decide_eq_true_2 by discriminate. cbn [orb].
    replace (Z.of_nat (_cur_priority_idx rm)
             =? Z.of_nat (length (routers_priority_list rm)) - 1) with true
      by (symmetry; apply Z.eqb_eq; lia).
    rewrite Hone. cbn. reflexivity.
  - assert (Hc : _get_available_routers rm cur = Ok []).
    { apply (Hempty (_cur_priority_idx rm)); [lia | lia | exact Hcur]. }
    rewrite (random_params_empty randint _ _ Hc).
    rewrite bool_decide_eq_false_2 by (intros Hx; apply Hx; reflexivity).
    destruct (Nat.leb_spec (length (routers_priority_list rm)) (_cur_priority_idx rm))
      as [Hge | Hlt]; [lia|].
    cbn [orb]. cbn [set_idx _cur_priority_idx routers_priority_list].
    destruct (Nat.ltb_spec (_cur_priority_idx rm + 1) (length (routers_priority_list rm)))
      as [Hin | Hout]; [| lia].
    destruct (lookup_lt_is_Some_2 (routers_priority_list rm)
                (_cur_priority_idx rm + 1)) as [c Hcl]; [exact Hin|].
    rewrite Hcl. cbn [default from_option id].
    rewrite (IH fuel (set_idx rm (_cur_priority_idx rm + 1)) c plast pos r);
      cbn [set_idx _cur_priority_idx routers_priority_list _routers_directory].
    + do 3 f_equal. replace (_cur_priority_idx rm + 1 + n)%nat
        with (_cur_priority_idx rm + S n)%nat by lia. reflexivity.
    + lia.
    + lia.
    + exact Hcl.
    + intros i p Hi Hi' Hp. apply (Hempty i p); [lia | exact Hi' | exact Hp].
    + replace (_cur_priority_idx rm + 1 + n)%nat
        with (_cur_priority_idx rm + S n)%nat by lia. exact Hlast.
    + exact Hone.
Qed.

(** C4: a call of [get_next_router] that selects a router from the
    last tier while that tier holds fewer than two available routers
    switches failover off; and when the tiers from the current one on
    hold a single available router, in the last tier, the call
    returns that router, so it is tried once, and switches failover
    off, so it is not tried again. *)
Theorem last_tier_ends_failover (rm : t) :
  _routers rm <> [] ->
  (forall ref r rm' cur l,
      get_next_router randint rm = Some (Ok (Some (ref, r)), rm') ->
      Z.of_nat (_cur_priority_idx rm') = plen rm' - 1 ->
      routers_priority_list rm' !! _cur_priority_idx rm' = Some cur ->
      _get_available_routers rm' cur = Ok l ->
      (length l < 2)%nat ->
      can_failover rm' = false)
  /\ (forall plast pos r,
         Z.of_nat (_cur_priority_idx rm) < plen rm ->
         (forall i p, (_cur_priority_idx rm <= i)%nat ->
                      Z.of_nat i < plen rm - 1 ->
                      routers_priority_list rm !! i = Some p ->
                      _get_available_routers rm p = Ok []) ->
         routers_priority_list rm !! Z.to_nat (plen rm - 1) = Some plast ->
         _get_available_routers rm plast = Ok [(pos, r)] ->
         exists rm',
           get_next_router randint rm
           = Some (Ok (Some (InDirectory plast pos, r)), rm')
           /\ deref rm' (InDirectory plast pos) = Some r
           /\ Z.of_nat (_cur_priority_idx rm') = plen rm' - 1
           /\ can_failover rm' = false).
Proof.
  intros Hne. split.
  - intros ref r rm' cur l Hg Hidx Hcur Hl Hlen.
    destruct (get_next_router_sound _ _ _ _ Hne Hg)
      as (prio & pos & l0 & _ & Hd & Hp & _ & _ & Hlk & Hl0 & _ & Hcf).
    unfold plen in Hidx. rewrite Hp in Hidx, Hcur. rewrite Hcur in Hlk.
    inversion Hlk; subst prio.
    unfold _get_available_routers in Hl, Hl0. rewrite Hd in Hl. rewrite Hl in Hl0.
    inversion Hl0; subst l0.
    unfold can_failover. rewrite Hcf. unfold plen. rewrite Hidx, Z.eqb_refl.
    destruct (Nat.ltb_spec (length l) 2); [reflexivity | lia].
  - intros plast pos r Hidx Hempty Hlast Hone. unfold plen in *.
    set (n := (length (routers_priority_list rm) - 1 - _cur_priority_idx rm)%nat).
    assert (Hn : (_cur_priority_idx rm + n)%nat
                 = Z.to_nat (Z.of_nat (length (routers_priority_list rm)) - 1))
      by (subst n; lia).
    eexists. split; [| split; [| split]].
    + unfold get_next_router. destruct (_routers rm) as [| x xs]; [congruence|].
      destruct (lookup_lt_is_Some_2 (routers_priority_list rm)
                  (_cur_priority_idx rm)) as [cur Hcur]; [lia|].
      rewrite Hcur.
      rewrite (search_to_last n (search_fuel rm) rm cur plast pos r).
      * reflexivity.
      * unfold search_fuel. subst n. lia.
      * subst n. lia.
      * exact Hcur.
      * intros i p Hi Hi' Hp. apply (Hempty i p); [exact Hi | lia | exact Hp].
      * rewrite Hn. exact Hlast.
      * exact Hone.
    + apply (available_routers_elem _ plast [(pos, r)]);
        [exact Hone | apply list_elem_of_here].
    + cbn [set_can_failover set_idx _cur_priority_idx routers_priority_list]. lia.
    + reflexivity.
Qed.

End NextRouter.

Lemma last_tier_ends_failover_witness :
  exists rm',
    get_next_router first_of rm_last_single
    = Some (Ok (Some (InDirectory 50 0%nat, router_c)), rm')
    /\ deref rm' (InDirectory 50 0%nat) = Some router_c
    /\ Z.of_nat (_cur_priority_idx rm') = plen rm' - 1
    /\ can_failover rm' = false.
Proof.
  assert (Hne : _routers rm_last_single <> []) by (vm_compute; discriminate).
  apply (proj2 (last_tier_ends_failover first_of rm_last_single Hne) 50 0%nat router_c).
  - reflexivity.
  - intros i p Hlo Hhi Hp.
    change (plen rm_last_single - 1) with 1 in Hhi.
    assert (i = 0%nat) as -> by lia.
    vm_compute in Hp. inversion Hp; subst p. reflexivity.
  - reflexivity.
  - reflexivity.
Defined.

End RouterManagerFacts.

(** ** Connection.connect: exhausting the routers *)

Module ConnectionConnect.
Import Connection.
Import ConnectionSamples.

Lemma count_available_set_unavailable (l : list Router.t) :
  forall (pos : nat) (r : Router.t),
    l !! pos = Some r ->
    Router.available r = true ->
    S (RouterManager.count_available (<[pos := Router.set_unavailable r]> l))
    = RouterManager.count_available l.
Proof.
  unfold RouterManager.count_available.
  induction l as [| x l IH]; intros pos r Hl Hav; [discriminate|].
  destruct pos as [| pos]; cbn in Hl |- *.
  - inversion Hl; subst x.
    rewrite decide_False by discriminate. rewrite decide_True by exact Hav.
    reflexivity.
  - destruct (decide (Router.available x = true)) as [Hx | Hx]; cbn [length].
    + f_equal. apply IH; assumption.
    + apply IH; assumption.
Qed.

Lemma available_total_set_unavailable (rm : RouterManager.t)
    (prio : Z) (pos : nat) (r : Router.t) :
  RouterManager.deref rm (RouterManager.InDirectory prio pos) = Some r ->
  Router.available r = true ->
  S (RouterManager.available_total
       (RouterManager.router_set_unavailable rm (RouterManager.InDirectory prio pos)))
  = RouterManager.available_total rm.
Proof.
  unfold RouterManager.deref, RouterManager.router_set_unavailable.
  destruct (RouterManager._routers_directory rm !! prio) as [l|] eqn:Ed; [| discriminate].
  intros Hl Hav. rewrite Hl. unfold RouterManager.available_total.
  cbn [RouterManager.set_directory RouterManager._routers_directory].
  rewrite (map_fold_delete_L _ _ prio l (RouterManager._routers_directory rm));
    [| intros; lia | exact Ed].
  rewrite <- insert_delete_eq.
  rewrite map_fold_insert_L; [| intros; lia | apply lookup_delete_eq].
  rewrite <- (count_available_set_unavailable l pos r Hl Hav). lia.
Qed.

Section Loop.
Variable rng : nat -> Z -> Z -> Z.
Variable net : nat -> Router.connection_params -> option Z -> attempt.

Lemma exhausted_without_failover (fuel n : nat) (c : t)
    (error : option transport_error) :
  RouterManager.can_failover (router_manager c) = false ->
  connect_loop rng net fuel n c error = Some (Exhausted error, c).
Proof.
  intros H. destruct fuel; cbn [connect_loop]; rewrite H; reflexivity.
Qed.

(** The loop of [connect] ends within its fuel. *)
Lemma connect_loop_total (fuel : nat) :
  forall (n : nat) (c : t) (error : option transport_error),
    (RouterManager.available_total (router_manager c) < fuel)%nat ->
    is_Some (connect_loop rng net fuel n c error).
Proof.
  induction fuel as [| fuel IH]; intros n c error Hf; [lia|].
  cbn [connect_loop].
  destruct (RouterManager.can_failover (router_manager c)) eqn:Ecf; cbn [negb]; [| eauto].
  destruct (RouterManagerFacts.get_next_router_total (rng n) (router_manager c))
    as [[res rm] Hg].
  rewrite Hg. destruct res as [[[ref router]|] | e]; [| eauto | eauto].
  destruct (net n _ _) as [| err sc | e sc]; [eauto | | eauto].
  assert (Hrm : router_manager (after_attempt (set_router_manager c rm) sc) = rm)
    by (destruct sc; reflexivity).
  destruct (RouterManager._routers (router_manager c)) as [| x xs] eqn:Er.
  - unfold RouterManager.get_next_router in Hg. rewrite Er in Hg.
    inversion Hg; subst; clear Hg.
    rewrite exhausted_without_failover; [eauto|].
    cbn [set_router_manager router_manager]. rewrite Hrm. reflexivity.
  - destruct (RouterManagerFacts.get_next_router_sound (rng n) _ _ _ _
                ltac:(rewrite Er; discriminate) Hg)
      as (prio & pos & l & -> & Hd & _ & _ & _ & _ & Hl & Hin & _).
    destruct (RouterManagerFacts.available_routers_elem _ _ _ _ _ Hl Hin) as [Hde Hav].
    apply IH. cbn [set_router_manager router_manager]. rewrite Hrm.
    assert (Hde' : RouterManager.deref rm (RouterManager.InDirectory prio pos) = Some router).
    { unfold RouterManager.deref in *. rewrite Hd. exact Hde. }
    pose proof (available_total_set_unavailable rm prio pos router Hde' Hav) as Hdec.
    assert (Hsame : RouterManager.available_total rm
                    = RouterManager.available_total (router_manager c)).
    { unfold RouterManager.available_total. rewrite Hd. reflexivity. }
    lia.
Qed.

End Loop.

Section Exhausted.
Variable rng : nat -> Z -> Z -> Z.
Variable net : nat -> Router.connection_params -> option Z -> attempt.

Lemma after_attempt_frame (c : t) (sc : bool) :
  _routers (after_attempt c sc) = _routers c
  /\ _connect_timeout (after_attempt c sc) = _connect_timeout c
  /\ router_manager (after_attempt c sc) = router_manager c.
Proof. destruct sc; auto. Qed.

(** The loop leaves the configured routers and the timeout alone, and
    it is left through its condition only with failover off. *)
Lemma connect_loop_exit (fuel : nat) :
  forall (n : nat) (c c' : t) (error : option transport_error) (ex : loop_exit),
    connect_loop rng net fuel n c error = Some (ex, c') ->
    _routers c' = _routers c
    /\ _connect_timeout c' = _connect_timeout c
    /\ (forall err, ex = Exhausted err ->
                    RouterManager.can_failover (router_manager c') = false).
Proof.
  induction fuel as [| fuel IH]; intros n c c' error ex H; cbn [connect_loop] in H;
    destruct (RouterManager.can_failover (router_manager c)) eqn:Ecf; cbn [negb] in H;
    try discriminate;
    try (inversion H; subst; clear H; repeat split; intros; assumption).
  destruct (RouterManager.get_next_router (rng n) (router_manager c))
    as [[[[[ref router]|] | e] rm]|]; try discriminate;
    try (inversion H; subst; clear H; repeat split; intros; discriminate).
  destruct (net n _ _) as [| err sc | e sc].
  - inversion H; subst; clear H. repeat split; intros; discriminate.
  - apply IH in H. destruct H as (Hr & Ht & Hc).
    destruct (after_attempt_frame (set_router_manager c rm) sc) as (Hr' & Ht' & _).
    cbn [set_router_manager _routers _connect_timeout] in Hr, Ht.
    rewrite Hr' in Hr. rewrite Ht' in Ht. auto.
  - inversion H; subst; clear H.
    destruct (after_attempt_frame (set_router_manager c rm) sc) as (Hr' & Ht' & _).
    repeat split; [exact Hr' | exact Ht' | intros; discriminate].
Qed.

Lemma connect_attempts_total (c : t) : is_Some (connect_attempts rng net c).
Proof. apply connect_loop_total. unfold connect_fuel. lia. Qed.

(** C7: [connect] always ends, and when the loop has run out of
    candidates ([can_failover] is false, no connection made) it raises
    [TimeoutError] if the last stored error was a socket timeout and
    [InterfaceError] otherwise, with the single-endpoint message when
    at most one router is configured and the multi-endpoint message
    otherwise. *)
Theorem connect_exhausted (c : t) :
  is_Some (connect rng net c)
  /\ forall error c',
      connect_attempts rng net c = Some (Exhausted error, c') ->
      RouterManager.can_failover (router_manager c') = false
      /\ connect rng net c
         = Some (Raise
                   (if match error with
                       | Some err => is_socket_timeout err
                       | None => false
                       end
                    then
                      if (length (_routers c) <=? 1)%nat then
                        TimeoutError
                          ("Connection attempt to the server was aborted. Timeout of "
                           ++ str_opt_int (_connect_timeout c)
                           ++ " ms was exceeded")%string
                      else
                        TimeoutError
                          ("All server connection attempts were aborted. Timeout of "
                           ++ str_opt_int (_connect_timeout c)
                           ++ " ms was exceeded for each selected server")%string
                    else
                      if (length (_routers c) <=? 1)%nat then
                        InterfaceError
                          ("Cannot connect to host: " ++ str_error error)%string None
                      else
                        InterfaceError
                          "Unable to connect to any of the target hosts" (Some 4001)),
                 c').
Proof.
  split.
  - unfold connect. destruct (connect_attempts_total c) as [[ex c'] ->].
    destruct ex; eauto.
  - intros error c' H.
    destruct (connect_loop_exit _ _ _ _ _ _ H) as (Hr & Ht & Hc).
    split; [apply (Hc error); reflexivity|].
    unfold connect. rewrite H. unfold connect_failure. rewrite Hr, Ht. reflexivity.
Qed.

End Exhausted.

Lemma connect_exhausted_witness :
  exists c',
    connect_attempts RouterSamples.first_of_turn always_times_out cnx_two
    = Some (Exhausted (Some {| is_socket_timeout := true; text := "timed out" |}), c')
    /\ fst <$> connect RouterSamples.first_of_turn always_times_out cnx_two
       = Some (Raise (TimeoutError
                        "All server connection attempts were aborted. Timeout of 10000 ms was exceeded for each selected server")).
Proof.
  eexists. split; [vm_compute; reflexivity|].
  rewrite (proj2 (proj2 (connect_exhausted RouterSamples.first_of_turn
                           always_times_out cnx_two)
                    _ _ ltac:(vm_compute; reflexivity))).
  reflexivity.
Defined.

End ConnectionConnect.

(** ** The prepared-statement pipeline *)

Module PipelineFacts.
Import Pipeline.
Import PipelineSamples.

Lemma bind_ok {A B : Type} (m : M A) (k : A -> M B) (w w' : world) (b : B) :
  bind m k w = (Ok b, w') ->
  exists a w1, m w = (Ok a, w1) /\ k a w1 = (Ok b, w').
Proof.
  unfold bind. destruct (m w) as [[a | e] w1]; [eauto | discriminate].
Qed.

Section WithCodec.
Variable reply : list msg -> msg -> option exn.
Variable fetch_error : list msg -> option exn.
Variable prepared_id : Statement.t -> option Z.
Variable repeated : Statement.t -> bool.

Lemma send_ok (m : msg) (w w' : world) :
  send reply m w = (Ok tt, w') ->
  cnx w' = cnx w /\ stmt w' = stmt w /\ sent w' = (sent w ++ [m])%list.
Proof.
  unfold send. destruct (reply (sent w) m); [discriminate|].
  intros [= <-]. auto.
Qed.

Lemma deallocate_ok (w w' : world) :
  _deallocate_statement reply w = (Ok tt, w') ->
  same_counter w w'
  /\ Connection._prepared_stmt_supported (cnx w')
     = Connection._prepared_stmt_supported (cnx w).
Proof.
  unfold _deallocate_statement. intros H.
  apply bind_ok in H as (s & w1 & Hs & H). inversion Hs; subst; clear Hs.
  destruct (Statement.prepared (stmt w1)); [| inversion H; subst; split; reflexivity].
  apply bind_ok in H as ([] & w2 & Hsend & H).
  apply send_ok in Hsend as (Hc & Hst & _).
  apply bind_ok in H as (c & w3 & Hg & H). inversion Hg; subst; clear Hg.
  destruct (remove_id _ _); [| discriminate].
  inversion H; subst; clear H. unfold same_counter. cbn. rewrite Hc, Hst. auto.
Qed.

Lemma prepare_ok (w w' : world) :
  _prepare_statement reply fetch_error prepared_id w = (Ok tt, w') ->
  same_counter w w'.
Proof.
  unfold _prepare_statement, except_not_supported, fetch_active_result,
    send_prepare_prepare, send, bind, ret, update_cnx, update_stmt, get_stmt,
    same_counter.
  destruct (fetch_error (sent w)) as [[]|]; cbn; try discriminate;
    try (intros [= <-]; reflexivity).
  destruct (reply (sent w) PreparePrepare) as [[]|]; cbn; try discriminate;
    intros [= <-]; reflexivity.
Qed.

End WithCodec.

Section Dispatch.
Variable reply : list msg -> msg -> option exn.
Variable fetch_error : list msg -> option exn.
Variable prepared_id : Statement.t -> option Z.
Variable repeated : Statement.t -> bool.

Lemma supported_ok (w w' : world) (ps : bool) :
  supported w = (Ok ps, w') ->
  w' = w /\ ps = Connection._prepared_stmt_supported (cnx w).
Proof. intros [= <- <-]. auto. Qed.

Lemma send_prepare_execute_ok (w w' : world) :
  send_prepare_execute reply w = (Ok tt, w') ->
  cnx w' = cnx w /\ stmt w' = stmt w
  /\ sent w' = (sent w ++ [PrepareExecute (Statement.stmt_id (stmt w))])%list.
Proof.
  unfold send_prepare_execute. intros H.
  apply bind_ok in H as (s & w1 & [= <- <-] & H). exact (send_ok _ _ _ _ H).
Qed.

(** The one-shot fallback taken once the connection knows that the
    server has no prepared statements. *)
Lemma fallback_ok (w0 w w' : world) :
  same_counter w0 w ->
  Connection._prepared_stmt_supported (cnx w) = false ->
  send reply MsgWithoutPs w = (Ok tt, w') ->
  Connection._prepared_stmt_supported (cnx w') = false
  /\ same_counter w0 w'
  /\ exists before, sent w' = (before ++ [MsgWithoutPs])%list.
Proof.
  intros H0 Hf H. apply send_ok in H as (Hc & Hs & Hsent).
  unfold same_counter in *. rewrite Hc, Hs. eauto.
Qed.

(** C1 (as amended): a call of the pipeline that returns has applied
    [increment_exec_counter] exactly once, as its last step, on every
    path that leaves the prepared-statement flag of the connection
    set: the counter ends one above its value at entry, or at 1 on
    the paths that reset it first.  On the fallback paths, where the
    flag is or becomes false and the statement goes out as a one-shot
    message, the counter keeps its value. *)
Theorem exec_counter_after_dispatch (w w' : world) :
  _execute_prepared_pipeline reply fetch_error prepared_id repeated w = (Ok tt, w') ->
  if Connection._prepared_stmt_supported (cnx w') then
    Statement.exec_counter (stmt w')
    = (if Statement.deallocate_prepare_execute (stmt w) || Statement.changed (stmt w)
       then 0 else Statement.exec_counter (stmt w)) + 1
  else
    Statement.exec_counter (stmt w') = Statement.exec_counter (stmt w)
    /\ exists before, sent w' = (before ++ [MsgWithoutPs])%list.
Proof.
  unfold _execute_prepared_pipeline. intros H.
  apply bind_ok in H as (ps & w0 & Hps & H).
  apply supported_ok in Hps as [-> ->].
  destruct (Connection._prepared_stmt_supported (cnx w)) eqn:Esup; cbn [negb] in H.
  2: { destruct (fallback_ok w w w' eq_refl Esup H) as (-> & Hc & Hs). auto. }
  apply bind_ok in H as (s & w1 & [= <- <-] & H).
  destruct (Statement.deallocate_prepare_execute (stmt w)) eqn:Edpe; cbn [orb].
  { apply bind_ok in H as ([] & w2 & Hd & H). apply deallocate_ok in Hd as [Hd _].
    apply bind_ok in H as ([] & w3 & Hp & H). apply prepare_ok in Hp.
    apply bind_ok in H as (ps & w4 & Hps & H). apply supported_ok in Hps as [-> ->].
    assert (H03 : same_counter w w3) by (unfold same_counter in *; congruence).
    destruct (Connection._prepared_stmt_supported (cnx w3)) eqn:E3; cbn [negb] in H.
    - apply bind_ok in H as ([] & w5 & He & H).
      apply send_prepare_execute_ok in He as (Hc & Hs & _).
      inversion H; subst; clear H. cbn. rewrite Hc, E3. reflexivity.
    - destruct (fallback_ok w w3 w' H03 E3 H) as (-> & Hc & Hs). auto. }
  destruct (Statement.prepared (stmt w) && negb (Statement.changed (stmt w))) eqn:E1.
  { apply andb_true_iff in E1 as [_ Hch]. apply negb_true_iff in Hch. rewrite Hch.
    apply bind_ok in H as ([] & w5 & He & H).
    apply send_prepare_execute_ok in He as (Hc & Hs & _).
    inversion H; subst; clear H. cbn. rewrite Hc, Esup, Hs. reflexivity. }
  destruct (Statement.changed (stmt w) && negb (repeated (stmt w))) eqn:E2.
  { apply andb_true_iff in E2 as [Hch _]. rewrite Hch.
    apply bind_ok in H as ([] & w2 & Hd & H). apply deallocate_ok in Hd as [_ Hd].
    apply bind_ok in H as ([] & w3 & Hsd & H). apply send_ok in Hsd as (Hc & _ & _).
    inversion H; subst; clear H. cbn. rewrite Hc, Hd, Esup. reflexivity. }
  destruct (negb (Statement.changed (stmt w)) && negb (repeated (stmt w))) eqn:E3.
  { apply andb_true_iff in E3 as [Hch _]. apply negb_true_iff in Hch. rewrite Hch.
    apply bind_ok in H as ([] & w2 & Hp & H).
    assert (H02 : same_counter w w2).
    { destruct (Statement.prepared (stmt w)); cbn [negb] in Hp.
      - inversion Hp; subst. reflexivity.
      - exact (prepare_ok _ _ _ _ _ Hp). }
    apply bind_ok in H as (ps & w4 & Hps & H). apply supported_ok in Hps as [-> ->].
    destruct (Connection._prepared_stmt_supported (cnx w2)) eqn:E4; cbn [negb] in H.
    - apply bind_ok in H as ([] & w5 & He & H).
      apply send_prepare_execute_ok in He as (Hc & Hs & _).
      inversion H; subst; clear H. cbn. rewrite Hc, E4, Hs.
      unfold same_counter in H02. rewrite H02. reflexivity.
    - destruct (fallback_ok w w2 w' H02 E4 H) as (-> & Hc & Hs). auto. }
  destruct (Statement.changed (stmt w) && repeated (stmt w)) eqn:E4.
  { apply andb_true_iff in E4 as [Hch _]. rewrite Hch.
    apply bind_ok in H as ([] & w2 & Hd & H). apply deallocate_ok in Hd as [_ Hd].
    apply bind_ok in H as ([] & w3 & Hsd & H). apply send_ok in Hsd as (Hc & _ & _).
    inversion H; subst; clear H. cbn. rewrite Hc, Hd, Esup. reflexivity. }
  inversion H; subst; clear H. cbn. rewrite Esup.
  destruct (Statement.changed (stmt w)), (repeated (stmt w)); try discriminate.
  reflexivity.
Qed.

End Dispatch.

Section PrepareOnce.
Variable reply : list msg -> msg -> option exn.
Variable fetch_error : list msg -> option exn.
Variable prepared_id : Statement.t -> option Z.
Variable repeated : Statement.t -> bool.

(** The branch "prepare, then execute". *)
Lemma prepare_and_execute (w : world) :
  Connection._prepared_stmt_supported (cnx w) = true ->
  Statement.prepared (stmt w) = false ->
  Statement.changed (stmt w) = false ->
  repeated (stmt w) = false ->
  Statement.deallocate_prepare_execute (stmt w) = false ->
  fetch_error (sent w) = None ->
  reply (sent w) PreparePrepare = None ->
  reply (sent w ++ [PreparePrepare]) (PrepareExecute (prepared_id (stmt w))) = None ->
  _execute_prepared_pipeline reply fetch_error prepared_id repeated w
  = (Ok tt,
     {| cnx := Connection.set_prepared (cnx w)
                 (Connection._prepared_stmt_ids (cnx w) ++ [prepared_id (stmt w)])
                 true;
        stmt := Statement.increment_exec_counter
                  (Statement.set_prepared
                     (Statement.set_stmt_id (stmt w) (prepared_id (stmt w))) true);
        sent := (sent w ++ [PreparePrepare]) ++ [PrepareExecute (prepared_id (stmt w))] |}).
Proof.
  intros Hsup Hprep Hch Hrep Hdpe Hfetch Hpp Hpe.
  unfold _execute_prepared_pipeline, bind, supported, get_cnx, get_stmt, ret.
  cbn. rewrite Hsup. cbn. rewrite Hdpe, Hprep, Hch, Hrep. cbn.
  unfold _prepare_statement, except_not_supported, fetch_active_result,
    send_prepare_prepare, send_prepare_execute, send, increment, bind, ret,
    update_cnx, update_stmt, get_stmt, get_cnx.
  rewrite Hfetch, Hpp. cbn. rewrite Hsup. cbn. rewrite Hpe. reflexivity.
Qed.

(** The branch "execute only". *)
Lemma execute_only (w : world) :
  Connection._prepared_stmt_supported (cnx w) = true ->
  Statement.deallocate_prepare_execute (stmt w) = false ->
  Statement.prepared (stmt w) = true ->
  Statement.changed (stmt w) = false ->
  reply (sent w) (PrepareExecute (Statement.stmt_id (stmt w))) = None ->
  _execute_prepared_pipeline reply fetch_error prepared_id repeated w
  = (Ok tt,
     {| cnx := cnx w;
        stmt := Statement.increment_exec_counter (stmt w);
        sent := sent w ++ [PrepareExecute (Statement.stmt_id (stmt w))] |}).
Proof.
  intros Hsup Hdpe Hprep Hch Hpe.
  unfold _execute_prepared_pipeline, bind, supported, get_cnx, get_stmt, ret.
  cbn. rewrite Hsup. cbn. rewrite Hdpe, Hprep, Hch. cbn.
  unfold send_prepare_execute, send, increment, bind, update_stmt, get_stmt.
  cbn. rewrite Hpe. reflexivity.
Qed.

(** C2: on a connection that supports prepared statements and whose
    server accepts the messages, a statement that is neither prepared
    nor changed nor repeated nor flagged goes out as prepare followed
    by execute and is left prepared; its next execution, still
    unchanged, goes out as a single execute with the id recorded at
    the prepare. *)
Theorem prepare_then_execute_only (w : world) :
  let id := prepared_id (stmt w) in
  Connection._prepared_stmt_supported (cnx w) = true ->
  Statement.prepared (stmt w) = false ->
  Statement.changed (stmt w) = false ->
  repeated (stmt w) = false ->
  Statement.deallocate_prepare_execute (stmt w) = false ->
  fetch_error (sent w) = None ->
  reply (sent w) PreparePrepare = None ->
  reply (sent w ++ [PreparePrepare]) (PrepareExecute id) = None ->
  reply (sent w ++ [PreparePrepare; PrepareExecute id]) (PrepareExecute id) = None ->
  exists w1 w2,
    _execute_prepared_pipeline reply fetch_error prepared_id repeated w = (Ok tt, w1)
    /\ sent w1 = (sent w ++ [PreparePrepare; PrepareExecute id])%list
    /\ Statement.prepared (stmt w1) = true
    /\ Statement.changed (stmt w1) = false
    /\ Statement.stmt_id (stmt w1) = id
    /\ Connection._prepared_stmt_ids (cnx w1)
       = (Connection._prepared_stmt_ids (cnx w) ++ [id])%list
    /\ _execute_prepared_pipeline reply fetch_error prepared_id repeated w1 = (Ok tt, w2)
    /\ sent w2 = (sent w1 ++ [PrepareExecute id])%list
    /\ Statement.prepared (stmt w2) = true
    /\ Connection._prepared_stmt_ids (cnx w2) = Connection._prepared_stmt_ids (cnx w1)
    /\ Connection._prepared_stmt_supported (cnx w2) = true.
Proof.
  intros id Hsup Hprep Hch Hrep Hdpe Hfetch Hpp Hpe1 Hpe2.
  do 2 eexists.
  split; [apply prepare_and_execute; assumption|].
  cbn [sent stmt cnx]. rewrite <- app_assoc. cbn [app].
  split; [reflexivity|]. split; [reflexivity|]. split; [exact Hch|].
  split; [reflexivity|]. split; [reflexivity|].
  split; [apply execute_only; cbn; first [reflexivity | assumption]|].
  cbn. auto.
Qed.

End PrepareOnce.

Lemma prepare_then_execute_only_witness :
  exists w1 w2,
    _execute_prepared_pipeline accept_all nothing_to_fetch id_seven repeated_when_one w_fresh
    = (Ok tt, w1)
    /\ sent w1 = [PreparePrepare; PrepareExecute (Some 7)]
    /\ Statement.prepared (stmt w1) = true
    /\ _execute_prepared_pipeline accept_all nothing_to_fetch id_seven repeated_when_one w1
       = (Ok tt, w2)
    /\ sent w2 = [PreparePrepare; PrepareExecute (Some 7); PrepareExecute (Some 7)].
Proof.
  destruct (prepare_then_execute_only accept_all nothing_to_fetch id_seven
              repeated_when_one w_fresh
              eq_refl eq_refl eq_refl eq_refl eq_refl eq_refl eq_refl eq_refl eq_refl)
    as (w1 & w2 & H1 & Hs1 & Hp1 & _ & _ & _ & H2 & Hs2 & _).
  exists w1, w2. rewrite Hs2, Hs1. auto.
Defined.

Lemma exec_counter_after_dispatch_witness :
  exists w',
    _execute_prepared_pipeline accept_all nothing_to_fetch id_seven repeated_when_one w_fresh
    = (Ok tt, w')
    /\ Statement.exec_counter (stmt w') = 1.
Proof.
  eexists. split; [reflexivity|].
  exact (exec_counter_after_dispatch accept_all nothing_to_fetch id_seven
           repeated_when_one w_fresh _ eq_refl).
Defined.

(** C1, as stated, fails on the fallback path: with the
    prepared-statement flag of the connection false the statement is
    sent as a one-shot message and the counter is not incremented. *)
Lemma fallback_keeps_counter :
  let r := _execute_prepared_pipeline accept_all nothing_to_fetch id_seven
             repeated_when_one w_unsupported in
  fst r = Ok tt
  /\ sent (snd r) = [MsgWithoutPs]
  /\ Statement.exec_counter (stmt (snd r))
     <> Statement.exec_counter (stmt w_unsupported) + 1.
Proof.
  cbv zeta. split; [reflexivity|]. split; [reflexivity|]. cbn. discriminate.
Qed.

End PipelineFacts.

(** ** Client: the pool size option *)

Module ClientFacts.
Import Client.
Import ClientSamples.





End ClientFacts.

(** ** Session.close *)

Module SessionFacts.
Import Session.
Import SessionSamples.
Import ConnectionSamples.

Lemma init_unconnected (s : Settings.t) (owner : option string)
    (c : Connection.t) (s' : Settings.t) :
  Connection.__init__ s owner = (Ok c, s') ->
  Connection.stream c = SocketStream.__init__
  /\ Connection.protocol c = false
  /\ Connection.is_open c = false
  /\ Connection.pool c = owner.
Proof.
  unfold Connection.__init__.
  destruct (RouterManager.__init__ _ _) as [[rm | e] routers']; [| discriminate].
  intros [= <- <-]. auto.
Qed.

(** C10: when [Session.close()] returns, the session refers to a
    connection object that did not exist before the call, built by the
    [Connection] constructor from the session's settings and not
    connected, so [is_open()] is false; the object the session held
    before is a different one and the session no longer refers to it. *)
Theorem close_leaves_unconnected (ev : env) (objs objs' : store) (s s' : t)
    (old : Connection.t) :
  objs !! _connection s = Some old ->
  close ev objs s = (Ok tt, objs', s') ->
  exists fresh,
    objs' !! _connection s' = Some fresh
    /\ Connection.__init__ (_settings s) None = (Ok fresh, _settings s')
    /\ Connection.stream fresh = SocketStream.__init__
    /\ Connection.protocol fresh = false
    /\ is_open objs' s' = Some false
    /\ _connection s' <> _connection s
    /\ (length objs <= _connection s')%nat
    /\ (exists old', objs' !! _connection s = Some old'
                     /\ fst (close_session ev old) = Ok tt
                     /\ snd (close_session ev old) = old').
Proof.
  intros Hold. unfold close. rewrite Hold.
  destruct (close_session ev old) as [[[] | e] old'] eqn:Ec; [| discriminate].
  destruct (Connection.__init__ (_settings s) None) as [[fresh | e] settings'] eqn:Ei;
    [| discriminate].
  intros [= <- <-]. cbn [_connection _settings].
  destruct (init_unconnected _ _ _ _ Ei) as (Hs & Hp & Ho & _).
  pose proof (lookup_lt_Some _ _ _ Hold) as Hlt.
  exists fresh.
  assert (Hfresh : (<[_connection s := old']> objs ++ [fresh])%list
                     !! length (<[_connection s := old']> objs)
                   = Some fresh).
  { rewrite lookup_app_r by lia. rewrite Nat.sub_diag. reflexivity. }
  split; [exact Hfresh|]. split; [reflexivity|]. split; [exact Hs|]. split; [exact Hp|].
  split.
  { unfold is_open. cbn [_connection]. rewrite Hfresh. rewrite Hs. reflexivity. }
  rewrite length_insert.
  split; [lia|]. split; [lia|].
  exists old'. split; [| auto].
  rewrite lookup_app_l by (rewrite length_insert; lia).
  apply list_lookup_insert_eq. exact Hlt.
Qed.

Lemma close_leaves_unconnected_witness :
  is_open [open_cnx] session0 = Some true
  /\ exists objs' s' fresh,
      close polite [open_cnx] session0 = (Ok tt, objs', s')
      /\ objs' !! _connection s' = Some fresh
      /\ Connection.stream fresh = SocketStream.__init__
      /\ is_open objs' s' = Some false
      /\ _connection s' <> _connection session0.
Proof.
  split; [reflexivity|].
  destruct (close_leaves_unconnected polite [open_cnx]
              (snd (fst (close polite [open_cnx] session0)))
              session0
              (snd (close polite [open_cnx] session0))
              open_cnx eq_refl ltac:(vm_compute; reflexivity))
    as (fresh & Hl & _ & Hs & _ & Ho & Hne & _).
  exists (snd (fst (close polite [open_cnx] session0))),
         (snd (close polite [open_cnx] session0)), fresh.
  split; [vm_compute; reflexivity|]. auto.
Defined.

End SessionFacts.

(** ** RouterManager: the constructor *)

Module RouterManagerInit.
Import RouterManager.
Import Priorities.

Lemma default_priorities_too_high (routers : list Router.params) :
  forall n, existsb too_high routers = true ->
            snd (default_priorities routers n)
            = Raise (ProgrammingError "The priorities must be between 0 and 100" 4007).
Proof.
  induction routers as [| r rest IH]; intros n H; [discriminate|].
  cbn [default_priorities]. cbn [existsb] in H. unfold too_high in H at 1.
  destruct (Router.priority r) as [p|].
  - destruct (100 <? p); [reflexivity|]. cbn [orb] in H.
    specialize (IH n H). destruct (default_priorities rest n). exact IH.
  - cbn [orb] in H. specialize (IH (n + 1) H).
    destruct (default_priorities rest (n + 1)). exact IH.
Qed.

(** Without a priority above 100 the first loop ends normally: it has
    stored 100 where the priority was missing and counted those. *)
Lemma default_priorities_ok (routers : list Router.params) :
  forall n, existsb too_high routers = false ->
            default_priorities routers n
            = (map (fun r => if unset r then Router.set_priority r 100 else r) routers,
               Ok (n + Z.of_nat (length (filter (fun r => unset r = true) routers)))).
Proof.
  induction routers as [| r rest IH]; intros n H.
  - cbn. f_equal. f_equal. lia.
  - cbn [default_priorities map]. cbn [existsb] in H.
    apply orb_false_iff in H as [Hr Hrest]. unfold too_high in Hr.
    destruct (Router.priority r) as [p|] eqn:Ep.
    + assert (Hu : unset r = false) by (unfold unset; rewrite Ep; reflexivity).
      rewrite Hu, Hr, (IH n Hrest).
      rewrite filter_cons_False by (rewrite Hu; discriminate).
      reflexivity.
    + assert (Hu : unset r = true) by (unfold unset; rewrite Ep; reflexivity).
      rewrite Hu, (IH (n + 1) Hrest).
      rewrite filter_cons_True by exact Hu.
      cbn [length]. f_equal. f_equal. lia.
Qed.

Lemma count_unset_pos (routers : list Router.params) :
  existsb unset routers = true <->
  (0 < length (filter (fun r => unset r = true) routers))%nat.
Proof.
  induction routers as [| r rest IH]; [cbn; split; [discriminate | lia]|].
  cbn [existsb]. destruct (unset r) eqn:E.
  - rewrite filter_cons_True by exact E. cbn. split; [lia | reflexivity].
  - rewrite filter_cons_False by (rewrite E; discriminate). exact IH.
Qed.

Lemma count_unset_all (routers : list Router.params) :
  forallb unset routers = true <->
  length (filter (fun r => unset r = true) routers) = length routers.
Proof.
  induction routers as [| r rest IH]; [cbn; tauto|].
  cbn [forallb]. destruct (unset r) eqn:E.
  - rewrite filter_cons_True by exact E. cbn [andb length]. rewrite IH. lia.
  - rewrite filter_cons_False by (rewrite E; discriminate). cbn [andb length].
    pose proof (length_filter (fun r => unset r = true) rest). split; [discriminate | lia].
Qed.

(** X1: the constructor raises [ProgrammingError] 4007 as soon as some
    router has a priority above 100, raises [ProgrammingError] 4000 when
    some routers have a priority and others have none, and builds the
    manager in every other case. *)
Theorem constructor_outcome (routers : list Router.params) (settings : Settings.t) :
  (existsb too_high routers = true ->
   fst (__init__ routers settings)
   = Raise (ProgrammingError "The priorities must be between 0 and 100" 4007))
  /\ (existsb too_high routers = false ->
      existsb unset routers = true ->
      forallb unset routers = false ->
      fst (__init__ routers settings)
      = Raise (ProgrammingError
                 "You must either assign no priority to any of the routers or give a priority for every router"
                 4000))
  /\ (existsb too_high routers = false ->
      existsb unset routers = false \/ forallb unset routers = true ->
      exists rm, fst (__init__ routers settings) = Ok rm).
Proof.
  split; [| split].
  - intros H. unfold __init__.
    pose proof (default_priorities_too_high routers 0 H) as Hd.
    destruct (default_priorities routers 0) as [l r]. cbn in Hd. rewrite Hd. reflexivity.
  - intros H Hsome Hall. unfold __init__. rewrite (default_priorities_ok routers 0 H).
    rewrite length_map.
    apply count_unset_pos in Hsome.
    assert (Hlt : (length (filter (fun r => unset r = true) routers) < length routers)%nat).
    { pose proof (length_filter (fun r => unset r = true) routers) as Hle.
      destruct (decide (length (filter (fun r => unset r = true) routers) = length routers))
        as [Heq | Hne]; [| lia].
      apply count_unset_all in Heq. congruence. }
    destruct (Z.ltb_spec 0 (0 + Z.of_nat (length (filter (fun r => unset r = true) routers))));
      [| lia].
    destruct (Z.ltb_spec (0 + Z.of_nat (length (filter (fun r => unset r = true) routers)))
                (Z.of_nat (length routers))); [| lia].
    reflexivity.
  - intros H Hcase. unfold __init__. rewrite (default_priorities_ok routers 0 H).
    rewrite length_map.
    assert (Hc : (0 <? 0 + Z.of_nat (length (filter (fun r => unset r = true) routers)))
                 && (0 + Z.of_nat (length (filter (fun r => unset r = true) routers))
                     <? Z.of_nat (length routers)) = false).
    { destruct Hcase as [Hnone | Hall].
      - destruct (Z.ltb_spec 0 (0 + Z.of_nat (length (filter (fun r => unset r = true) routers))));
          [| reflexivity].
        assert (existsb unset routers = true) by (apply count_unset_pos; lia). congruence.
      - apply count_unset_all in Hall. rewrite Hall.
        destruct (Z.ltb_spec (0 + Z.of_nat (length routers)) (Z.of_nat (length routers)));
          [lia | apply andb_false_r]. }
    rewrite Hc. destruct (group _). eauto.
Qed.

Lemma constructor_outcome_witness :
  fst (__init__ PrioritySamples.too_high_routers RouterSamples.no_settings)
  = Raise (ProgrammingError "The priorities must be between 0 and 100" 4007)
  /\ fst (__init__ PrioritySamples.mixed_routers RouterSamples.no_settings)
     = Raise (ProgrammingError
                "You must either assign no priority to any of the routers or give a priority for every router"
                4000)
  /\ exists rm, fst (__init__ PrioritySamples.three_routers RouterSamples.no_settings) = Ok rm.
Proof.
  split; [| split].
  - apply (proj1 (constructor_outcome PrioritySamples.too_high_routers
                    RouterSamples.no_settings)).
    reflexivity.
  - apply (proj1 (proj2 (constructor_outcome PrioritySamples.mixed_routers
                           RouterSamples.no_settings))); reflexivity.
  - apply (proj2 (proj2 (constructor_outcome PrioritySamples.three_routers
                           RouterSamples.no_settings)));
      [reflexivity | left; reflexivity].
Defined.

End RouterManagerInit.

(** ** RouterManager: sorting and grouping *)

Module RouterManagerOrder.
Import RouterManager.
Import Priorities.

Lemma insert_desc_perm (r : Router.params) (l : list Router.params) :
  insert_desc r l ≡ₚ r :: l.
Proof.
  induction l as [| x l IH]; cbn [insert_desc]; [reflexivity|].
  destruct (priority_key x <=? priority_key r); [reflexivity|].
  rewrite IH. apply Permutation_swap.
Qed.

Lemma sort_desc_perm (l : list Router.params) : sort_desc l ≡ₚ l.
Proof.
  induction l as [| x l IH]; cbn; [reflexivity|].
  rewrite insert_desc_perm. rewrite IH. reflexivity.
Qed.

Lemma insert_desc_sorted (r : Router.params) (l : list Router.params) :
  StronglySorted not_below l -> StronglySorted not_below (insert_desc r l).
Proof.
  induction l as [| x l IH]; intros Hs; cbn [insert_desc].
  - repeat constructor.
  - apply StronglySorted_cons in Hs as [Hx Hl].
    destruct (Z.leb_spec (priority_key x) (priority_key r)) as [Hle | Hgt].
    + constructor; [constructor; assumption|].
      constructor; [exact Hle|].
      eapply Forall_impl; [exact Hx|]. unfold not_below. intros y Hy. lia.
    + constructor; [apply IH; exact Hl|].
      rewrite insert_desc_perm. constructor; [unfold not_below; lia | exact Hx].
Qed.

Lemma sort_desc_sorted (l : list Router.params) : StronglySorted not_below (sort_desc l).
Proof.
  induction l as [| x l IH]; cbn; [constructor|]. apply insert_desc_sorted. exact IH.
Qed.

(** Inserting a router leaves the routers of another priority alone and
    puts it in front of those of its own priority. *)
Lemma insert_desc_with_priority (k : Z) (r : Router.params) (l : list Router.params) :
  with_priority k (insert_desc r l) = with_priority k (r :: l).
Proof.
  unfold with_priority.
  induction l as [| x l IH]; cbn [insert_desc]; [reflexivity|].
  destruct (Z.leb_spec (priority_key x) (priority_key r)) as [Hle | Hgt]; [reflexivity|].
  destruct (decide (priority_key x = k)) as [Hx | Hx].
  - rewrite (filter_cons_True _ x) by exact Hx. rewrite IH.
    assert (Hr : priority_key r <> k) by lia.
    rewrite !(filter_cons_False _ r) by exact Hr.
    rewrite (filter_cons_True _ x) by exact Hx. reflexivity.
  - rewrite (filter_cons_False _ x) by exact Hx. rewrite IH.
    destruct (decide (priority_key r = k)) as [Hr | Hr].
    + rewrite !(filter_cons_True _ r) by exact Hr.
      rewrite (filter_cons_False _ x) by exact Hx. reflexivity.
    + rewrite !(filter_cons_False _ r) by exact Hr.
      rewrite (filter_cons_False _ x) by exact Hx. reflexivity.
Qed.

Lemma sort_desc_stable (k : Z) (l : list Router.params) :
  with_priority k (sort_desc l) = with_priority k l.
Proof.
  induction l as [| x l IH]; [reflexivity|].
  cbn [sort_desc fold_right]. rewrite insert_desc_with_priority.
  unfold with_priority in *. fold (sort_desc l).
  destruct (decide (priority_key x = k)) as [Hx | Hx].
  - rewrite !(filter_cons_True _ x) by exact Hx. rewrite IH. reflexivity.
  - rewrite !(filter_cons_False _ x) by exact Hx. exact IH.
Qed.

Lemma init_ok_shape (routers : list Router.params) (settings : Settings.t) (rm : t) :
  fst (__init__ routers settings) = Ok rm ->
  _routers rm = sort_desc (defaulted routers)
  /\ (_routers_directory rm, routers_priority_list rm) = group (_routers rm)
  /\ _cur_priority_idx rm = 0%nat /\ _can_failover rm = true.
Proof.
  unfold __init__. intros H.
  destruct (existsb too_high routers) eqn:Eh.
  - pose proof (RouterManagerInit.default_priorities_too_high routers 0 Eh) as Hd.
    destruct (default_priorities routers 0) as [l r]. cbn in Hd. subst r. discriminate.
  - rewrite (RouterManagerInit.default_priorities_ok routers 0 Eh) in H.
    destruct (_ && _); [discriminate|].
    fold (defaulted routers) in H.
    destruct (group (sort_desc (defaulted routers))) as [d pl] eqn:Eg.
    cbn [fst] in H. inversion H; subst rm.
    cbn [_routers _routers_directory routers_priority_list _cur_priority_idx _can_failover].
    rewrite Eg. auto.
Qed.

(** X2: the constructor leaves in [_routers] the configured routers,
    missing priorities set to 100, ordered by descending priority, and
    routers of the same priority keep their configured order. *)
Theorem constructor_sorts_routers (routers : list Router.params)
    (settings : Settings.t) (rm : t) :
  fst (__init__ routers settings) = Ok rm ->
  _routers rm ≡ₚ defaulted routers
  /\ StronglySorted not_below (_routers rm)
  /\ (forall k, with_priority k (_routers rm) = with_priority k (defaulted routers))
  /\ snd (__init__ routers settings) = _routers rm.
Proof.
  intros H. destruct (init_ok_shape _ _ _ H) as (Hr & _).
  rewrite Hr. split; [apply sort_desc_perm|]. split; [apply sort_desc_sorted|].
  split; [intros k; apply sort_desc_stable|].
  rewrite <- Hr. unfold __init__ in *.
  destruct (default_priorities routers 0) as [l [n | e]]; [| discriminate].
  destruct (_ && _); [discriminate|].
  destruct (group (sort_desc l)). cbn in *. inversion H. reflexivity.
Qed.

Lemma tiers_of_insert_other (dir : gmap Z (list Router.t)) (k : Z) (v : list Router.t)
    (pl : list Z) :
  k ∉ pl -> tiers_of (<[k := v]> dir) pl = tiers_of dir pl.
Proof.
  unfold tiers_of. induction pl as [| p pl IH]; intros Hk; [reflexivity|].
  cbn [flat_map]. apply not_elem_of_cons in Hk as [Hne Hk].
  rewrite lookup_insert_ne by congruence. rewrite IH by exact Hk. reflexivity.
Qed.

Lemma tiers_of_app (dir : gmap Z (list Router.t)) (pl1 pl2 : list Z) :
  tiers_of dir (pl1 ++ pl2) = (tiers_of dir pl1 ++ tiers_of dir pl2)%list.
Proof. unfold tiers_of. apply flat_map_app. Qed.

(** In a strictly decreasing list, a member that nothing is below is
    the last one. *)
Lemma lowest_is_last (pl : list Z) (k : Z) :
  StronglySorted Z.gt pl -> k ∈ pl -> (forall p, p ∈ pl -> k <= p) ->
  exists pl0, pl = (pl0 ++ [k])%list /\ k ∉ pl0.
Proof.
  intros Hs Hin Hlow.
  apply list_elem_of_split in Hin as (l1 & l2 & ->).
  destruct l2 as [| y l2].
  - exists l1. split; [reflexivity|].
    intros Hk. apply StronglySorted_app in Hs as (H12 & _ & _).
    specialize (H12 k k Hk ltac:(apply list_elem_of_here)). lia.
  - exfalso. apply StronglySorted_app_1_r in Hs.
    apply StronglySorted_cons in Hs as [Hy _].
    apply Forall_cons in Hy as [Hy _].
    specialize (Hlow y ltac:(rewrite elem_of_app; right; do 2 constructor)). lia.
Qed.

Lemma group_step_grouped (dir : gmap Z (list Router.t)) (pl : list Z)
    (done : list Router.params) (x : Router.params) :
  grouped dir pl done ->
  (forall p, p ∈ pl -> priority_key x <= p) ->
  grouped (fst (group_step (dir, pl) x)) (snd (group_step (dir, pl) x)) (done ++ [x])
  /\ (forall p, p ∈ snd (group_step (dir, pl) x) -> p ∈ pl \/ p = priority_key x).
Proof.
  intros (Hs & Hdom & Hflat & Htier) Hlow. unfold group_step.
  set (k := priority_key x) in *.
  destruct (dir !! k) as [l|] eqn:Ek; cbn [fst snd].
  - assert (Hk : k ∈ pl) by (apply Hdom; eauto).
    destruct (lowest_is_last pl k Hs Hk Hlow) as (pl0 & -> & Hk0).
    split; [| auto].
    split; [exact Hs|]. split; [| split].
    + intros p. rewrite <- Hdom. destruct (decide (p = k)) as [-> | Hne].
      * rewrite lookup_insert_eq, Ek. split; eauto.
      * rewrite lookup_insert_ne by congruence. reflexivity.
    + rewrite tiers_of_app in Hflat |- *.
      rewrite tiers_of_insert_other by exact Hk0.
      unfold tiers_of at 2. unfold tiers_of at 2 in Hflat. cbn [flat_map] in Hflat |- *.
      rewrite lookup_insert_eq. rewrite Ek in Hflat. cbn [default from_option id] in *.
      rewrite app_nil_r in *. rewrite map_app. cbn [map].
      rewrite <- Hflat. rewrite app_assoc. reflexivity.
    + intros p l'. destruct (decide (p = k)) as [-> | Hne].
      * rewrite lookup_insert_eq. intros [= <-].
        destruct (Htier k l Ek) as [_ Hall].
        split; [destruct l; discriminate|].
        apply Forall_app. split; [exact Hall|]. repeat constructor.
      * rewrite lookup_insert_ne by congruence. apply Htier.
  - assert (Hk : k ∉ pl).
    { intros Hin. apply Hdom in Hin as [l Hl]. congruence. }
    split; [| intros p Hp; apply elem_of_app in Hp as [Hp | Hp];
              [auto | apply list_elem_of_singleton in Hp; auto]].
    split; [| split; [| split]].
    + apply StronglySorted_app_2; [| exact Hs | repeat constructor].
      intros p q Hp Hq. apply list_elem_of_singleton in Hq as ->.
      specialize (Hlow p Hp). assert (p <> k) by (intros ->; auto). lia.
    + intros p. rewrite elem_of_app, list_elem_of_singleton, <- Hdom.
      destruct (decide (p = k)) as [-> | Hne].
      * rewrite lookup_insert_eq. split; eauto.
      * rewrite lookup_insert_ne by congruence. split; [auto | intros [? | ?]; [auto | congruence]].
    + rewrite tiers_of_app, tiers_of_insert_other by exact Hk.
      unfold tiers_of at 2. cbn [flat_map]. rewrite lookup_insert_eq.
      cbn [default from_option id]. rewrite app_nil_r, map_app, Hflat. reflexivity.
    + intros p l'. destruct (decide (p = k)) as [-> | Hne].
      * rewrite lookup_insert_eq. intros [= <-]. split; [discriminate|]. repeat constructor.
      * rewrite lookup_insert_ne by congruence. apply Htier.
Qed.

Lemma group_fold_grouped (todo : list Router.params) :
  forall (dir : gmap Z (list Router.t)) (pl : list Z) (done : list Router.params),
    grouped dir pl done ->
    StronglySorted not_below todo ->
    (forall p r, p ∈ pl -> r ∈ todo -> priority_key r <= p) ->
    grouped (fst (fold_left group_step todo (dir, pl)))
            (snd (fold_left group_step todo (dir, pl))) (done ++ todo).
Proof.
  induction todo as [| x todo IH]; intros dir pl done Hg Hs Hlow.
  - rewrite app_nil_r. exact Hg.
  - cbn [fold_left]. apply StronglySorted_cons in Hs as [Hx Hs].
    destruct (group_step_grouped dir pl done x Hg) as [Hg' Hsub].
    { intros p Hp. apply (Hlow p x Hp). apply list_elem_of_here. }
    destruct (group_step (dir, pl) x) as [dir' pl'] eqn:Estep. cbn [fst snd] in *.
    replace (done ++ x :: todo)%list with ((done ++ [x]) ++ todo)%list
      by (rewrite <- app_assoc; reflexivity).
    apply IH; [exact Hg' | exact Hs|].
    intros p r Hp Hr. destruct (Hsub p Hp) as [Hp' | ->].
    + apply (Hlow p r Hp'). apply list_elem_of_further. exact Hr.
    + rewrite Forall_forall in Hx. apply (Hx r). exact Hr.
Qed.

(** X3: the directory of a constructed manager groups the sorted
    routers: the priority list strictly decreases, its members are the
    keys of the directory, the tiers taken in that order are the sorted
    routers, each wrapped in a [Router], and no tier is empty or holds a
    router of another priority. *)
Theorem constructor_groups_routers (routers : list Router.params)
    (settings : Settings.t) (rm : t) :
  fst (__init__ routers settings) = Ok rm ->
  grouped (_routers_directory rm) (routers_priority_list rm) (_routers rm).
Proof.
  intros H. destruct (init_ok_shape _ _ _ H) as (Hr & Hg & _).
  pose proof (group_fold_grouped (_routers rm) ∅ [] []) as Hf.
  unfold group in Hg. rewrite <- Hg in Hf. cbn [fst snd app] in Hf.
  apply Hf.
  - split; [constructor|]. split; [| split].
    + intros p. rewrite lookup_empty. split; [intros [? ?]; discriminate | inversion 1].
    + reflexivity.
    + intros p l. rewrite lookup_empty. discriminate.
  - rewrite Hr. apply sort_desc_sorted.
  - intros p r Hp. inversion Hp.
Qed.

Lemma constructor_sorts_routers_witness :
  _routers RouterSamples.rm3 ≡ₚ defaulted PrioritySamples.three_routers
  /\ StronglySorted not_below (_routers RouterSamples.rm3)
  /\ (forall k, with_priority k (_routers RouterSamples.rm3)
                = with_priority k (defaulted PrioritySamples.three_routers))
  /\ snd (__init__ PrioritySamples.three_routers RouterSamples.no_settings)
     = _routers RouterSamples.rm3.
Proof.
  apply (constructor_sorts_routers PrioritySamples.three_routers RouterSamples.no_settings).
  vm_compute. reflexivity.
Defined.

Lemma constructor_groups_routers_witness :
  grouped (_routers_directory RouterSamples.rm3) (routers_priority_list RouterSamples.rm3)
    (_routers RouterSamples.rm3).
Proof.
  apply (constructor_groups_routers PrioritySamples.three_routers RouterSamples.no_settings).
  vm_compute. reflexivity.
Defined.

End RouterManagerOrder.

(** ** RouterManager: which router comes next *)

Module RouterManagerSelection.
Import RouterManager.
Import Priorities.

Lemma no_available_router (rm : t) (p : Z) :
  _get_available_routers rm p = Ok [] -> tier_available rm p = false.
Proof.
  unfold _get_available_routers, tier_available, tier.
  destruct (_routers_directory rm !! p) as [l|]; [| discriminate].
  intros [= H]. cbn [default from_option id].
  destruct (existsb Router.available l) eqn:E; [| reflexivity].
  apply existsb_exists in E as (r & Hin & Hav).
  apply list_elem_of_In, list_elem_of_lookup in Hin as [i Hi].
  assert (Hmem : (i, r) ∈ filter (fun ir : nat * Router.t => Router.available (snd ir) = true)
                          (imap pair l)).
  { apply list_elem_of_filter. split; [exact Hav|].
    apply elem_of_lookup_imap. eauto. }
  rewrite H in Hmem. inversion Hmem.
Qed.

Section Selection.
Variable randint : Z -> Z -> Z.

(** The tiers a search walks past hold no available router, and the
    search gives up only behind the last tier. *)
Lemma search_skipped (fuel : nat) :
  forall (rm : t) (cur : Z) (res : option (nat * Z * Router.t)) (rm' : t),
    (routers_priority_list rm !! _cur_priority_idx rm = Some cur
     \/ (length (routers_priority_list rm) <= _cur_priority_idx rm)%nat) ->
    search randint fuel rm cur = Some (Ok res, rm') ->
    (forall i p, (_cur_priority_idx rm <= i)%nat -> (i < _cur_priority_idx rm')%nat ->
                 routers_priority_list rm !! i = Some p ->
                 _get_available_routers rm p = Ok [])
    /\ (res = None -> (length (routers_priority_list rm) <= _cur_priority_idx rm')%nat).
Proof.
  induction fuel as [| fuel IH]; intros rm cur res rm' Hcur H; [discriminate|].
  cbn [search] in H.
  destruct (_get_random_connection_params randint rm cur) as [[ir|] | e] eqn:Er;
    [| | discriminate].
  - rewrite bool_decide_eq_true_2 in H by discriminate. cbn [orb] in H.
    assert (Hidx : _cur_priority_idx rm' = _cur_priority_idx rm /\ res <> None).
    { destruct (_ =? _).
      - destruct (_get_available_routers rm cur) as [l|]; [| discriminate].
        inversion H; subst. destruct (length l <? 2)%nat; split; (reflexivity || discriminate).
      - inversion H; subst. split; (reflexivity || discriminate). }
    destruct Hidx as [Hi Hres]. split; [intros; lia | intros; contradiction].
  - pose proof (RouterManagerFacts.random_params_none _ _ _ Er) as Hempty.
    rewrite bool_decide_eq_false_2 in H by (intros Hc; apply Hc; reflexivity).
    cbn [orb] in H.
    destruct (Nat.leb_spec (length (routers_priority_list rm)) (_cur_priority_idx rm))
      as [Hge | Hlt].
    + assert (Hi : _cur_priority_idx rm' = _cur_priority_idx rm).
      { destruct (_ =? _).
        - rewrite Hempty in H. inversion H; subst. reflexivity.
        - inversion H; subst. reflexivity. }
      split; intros; lia.
    + destruct Hcur as [Hcur | Hcur]; [| lia].
      apply IH in H.
      * destruct H as [Hskip Hnone].
        cbn [set_idx _cur_priority_idx routers_priority_list] in Hskip, Hnone.
        split; [| exact Hnone].
        intros i p Hlo Hhi Hp.
        destruct (decide (i = _cur_priority_idx rm)) as [-> | Hne].
        -- rewrite Hcur in Hp. inversion Hp; subst p. exact Hempty.
        -- apply (Hskip i p); [lia | exact Hhi | exact Hp].
      * cbn [set_idx _cur_priority_idx routers_priority_list].
        destruct (Nat.ltb_spec (_cur_priority_idx rm + 1)
                    (length (routers_priority_list rm))) as [Hin | Hout].
        -- left.
           destruct (lookup_lt_is_Some_2 (routers_priority_list rm)
                       (_cur_priority_idx rm + 1)) as [c Hc]; [exact Hin|].
           rewrite Hc. reflexivity.
        -- right. lia.
Qed.

Lemma next_router_index (rm rm' : t) (ref : router_ref) (r : Router.t) :
  _routers rm <> [] ->
  get_next_router randint rm = Some (Ok (Some (ref, r)), rm') ->
  (_cur_priority_idx rm <= _cur_priority_idx rm')%nat.
Proof.
  intros Hne Hg. unfold get_next_router in Hg.
  destruct (_routers rm) as [| x xs]; [congruence|].
  destruct (routers_priority_list rm !! _cur_priority_idx rm) as [cur|] eqn:Ecur;
    [| discriminate].
  destruct (search randint (search_fuel rm) rm cur) as [[[[[[q c] y]|] | e] rm1]|] eqn:Es;
    try discriminate.
  inversion Hg; subst.
  destruct (RouterManagerFacts.search_sound randint _ _ _ _ _ _ _ (or_introl Ecur) Es)
    as (_ & _ & _ & _ & Hi & _). exact Hi.
Qed.

Lemma next_router_none (rm rm' : t) :
  _routers rm <> [] ->
  get_next_router randint rm = Some (Ok None, rm') ->
  forall i p, (_cur_priority_idx rm <= i)%nat ->
              routers_priority_list rm !! i = Some p ->
              tier_available rm p = false.
Proof.
  intros Hne Hg. unfold get_next_router in Hg.
  destruct (_routers rm) as [| x xs]; [congruence|].
  destruct (routers_priority_list rm !! _cur_priority_idx rm) as [cur|] eqn:Ecur;
    [| discriminate].
  destruct (search randint (search_fuel rm) rm cur) as [[[[[[q c] y]|] | e] rm1]|] eqn:Es;
    try discriminate.
  inversion Hg; subst.
  destruct (search_skipped _ _ _ _ _ (or_introl Ecur) Es) as [Hskip Hnone].
  specialize (Hnone eq_refl).
  intros i p Hlo Hp. apply no_available_router. apply (Hskip i p Hlo); [| exact Hp].
  apply lookup_lt_Some in Hp. lia.
Qed.

Lemma next_router_skips (rm rm' : t) (ref : router_ref) (r : Router.t) :
  _routers rm <> [] ->
  get_next_router randint rm = Some (Ok (Some (ref, r)), rm') ->
  forall i p, (_cur_priority_idx rm <= i)%nat -> (i < _cur_priority_idx rm')%nat ->
              routers_priority_list rm !! i = Some p ->
              tier_available rm p = false.
Proof.
  intros Hne Hg. unfold get_next_router in Hg.
  destruct (_routers rm) as [| x xs]; [congruence|].
  destruct (routers_priority_list rm !! _cur_priority_idx rm) as [cur|] eqn:Ecur;
    [| discriminate].
  destruct (search randint (search_fuel rm) rm cur) as [[[[[[q c] y]|] | e] rm1]|] eqn:Es;
    try discriminate.
  inversion Hg; subst.
  destruct (search_skipped _ _ _ _ _ (or_introl Ecur) Es) as [Hskip _].
  intros i p Hlo Hhi Hp. apply no_available_router. eapply Hskip; eassumption.
Qed.

(** X5: [get_next_router] returns an available router of the first
    tier, from the current one on, that has one: every tier it skipped
    holds no available router.  It returns [None] only when no tier from
    the current one on has an available router. *)
Theorem next_router_is_highest_available (rm rm' : t) :
  _routers rm <> [] ->
  (forall ref r,
      get_next_router randint rm = Some (Ok (Some (ref, r)), rm') ->
      exists prio pos,
        ref = InDirectory prio pos
        /\ deref rm ref = Some r
        /\ Router.available r = true
        /\ routers_priority_list rm !! _cur_priority_idx rm' = Some prio
        /\ forall i p, (_cur_priority_idx rm <= i)%nat -> (i < _cur_priority_idx rm')%nat ->
                       routers_priority_list rm !! i = Some p ->
                       tier_available rm p = false)
  /\ (get_next_router randint rm = Some (Ok None, rm') ->
      forall i p, (_cur_priority_idx rm <= i)%nat ->
                  routers_priority_list rm !! i = Some p ->
                  tier_available rm p = false).
Proof.
  intros Hne. split.
  - intros ref r Hg.
    destruct (RouterManagerFacts.get_next_router_sound randint _ _ _ _ Hne Hg)
      as (prio & pos & l & -> & _ & _ & _ & _ & Hlk & Hl & Hin & _).
    destruct (RouterManagerFacts.available_routers_elem _ _ _ _ _ Hl Hin) as [Hd Hav].
    exists prio, pos. do 4 (split; [assumption || reflexivity|]).
    unfold get_next_router in Hg. destruct (_routers rm) as [| x xs]; [congruence|].
    destruct (routers_priority_list rm !! _cur_priority_idx rm) as [cur|] eqn:Ecur;
      [| discriminate].
    destruct (search randint (search_fuel rm) rm cur) as [[[[[[q c] y]|] | e] rm1]|] eqn:Es;
      try discriminate.
    inversion Hg; subst.
    destruct (search_skipped _ _ _ _ _ (or_introl Ecur) Es) as [Hskip _].
    intros i p Hlo Hhi Hp. apply no_available_router. eapply Hskip; eassumption.
  - intros Hg.
    unfold get_next_router in Hg. destruct (_routers rm) as [| x xs]; [congruence|].
    destruct (routers_priority_list rm !! _cur_priority_idx rm) as [cur|] eqn:Ecur;
      [| discriminate].
    destruct (search randint (search_fuel rm) rm cur) as [[[[[[q c] y]|] | e] rm1]|] eqn:Es;
      try discriminate.
    inversion Hg; subst.
    destruct (search_skipped _ _ _ _ _ (or_introl Ecur) Es) as [Hskip Hnone].
    specialize (Hnone eq_refl).
    intros i p Hlo Hp. apply no_available_router. apply (Hskip i p Hlo); [| exact Hp].
    apply lookup_lt_Some in Hp. lia.
Qed.

(** No exception escapes a search whose priorities are all keys of the
    directory, when [randint] respects its bounds. *)
Lemma search_no_raise (fuel : nat) :
  forall (rm : t) (cur : Z) (res : result (option (nat * Z * Router.t))) (rm' : t),
    directory_complete rm -> randint_in_range randint ->
    is_Some (_routers_directory rm !! cur) ->
    search randint fuel rm cur = Some (res, rm') ->
    exists x, res = Ok x.
Proof.
  induction fuel as [| fuel IH]; intros rm cur res rm' Hc Hr [l Hl] H; [discriminate|].
  cbn [search] in H.
  assert (Hav : exists al, _get_available_routers rm cur = Ok al).
  { unfold _get_available_routers. rewrite Hl. eauto. }
  destruct Hav as [al Hal].
  assert (Hrand : exists router, _get_random_connection_params randint rm cur = Ok router).
  { unfold _get_random_connection_params. rewrite Hal.
    destruct al as [| x [| y al]]; [eauto | eauto |].
    cbv zeta. set (n := length (x :: y :: al)).
    pose proof (Hr 0 (Z.of_nat n - 1) ltac:(subst n; cbn [length]; lia)) as Hbound.
    unfold py_index. destruct (Z.leb_spec 0 (randint 0 (Z.of_nat n - 1))); [| lia].
    destruct (lookup_lt_is_Some_2 (x :: y :: al) (Z.to_nat (randint 0 (Z.of_nat n - 1))))
      as [r Hlk]; [fold n; lia|].
    fold n. rewrite Hlk. eauto. }
  destruct Hrand as [router Hrand]. rewrite Hrand in H.
  destruct (bool_decide (router <> None) || _).
  - rewrite Hal in H. destruct (_ =? _); inversion H; eauto.
  - apply IH in H; [exact H | exact Hc | exact Hr |].
    cbn [set_idx _cur_priority_idx routers_priority_list _routers_directory].
    destruct (_ <? _)%nat; [| eauto].
    destruct (routers_priority_list rm !! (_cur_priority_idx rm + 1)%nat) as [c|] eqn:Ec;
      cbn [default from_option id]; [| eauto].
    apply Hc. eapply list_elem_of_lookup_2. exact Ec.
Qed.

Lemma next_router_ok (rm : t) :
  directory_complete rm -> randint_in_range randint ->
  (_cur_priority_idx rm < length (routers_priority_list rm))%nat ->
  exists x rm', get_next_router randint rm = Some (Ok x, rm').
Proof.
  intros Hc Hr Hlt. unfold get_next_router.
  destruct (_routers rm) as [| x xs]; [eauto|].
  destruct (lookup_lt_is_Some_2 _ _ Hlt) as [cur Hcur]. rewrite Hcur.
  destruct (RouterManagerFacts.search_total randint (search_fuel rm) rm cur)
    as [[res rm'] Hs]; [unfold search_fuel; lia|].
  rewrite Hs.
  destruct (search_no_raise _ _ _ _ _ Hc Hr
              ltac:(apply Hc; eapply list_elem_of_lookup_2; exact Hcur) Hs) as [x' ->].
  destruct x' as [[[pos prio] r]|]; eauto.
Qed.

(** A search leaves the routers, the directory and the priority list as
    they are, whatever it returns. *)
Lemma search_frame (fuel : nat) :
  forall (rm : t) (cur : Z) (res : result (option (nat * Z * Router.t))) (rm' : t),
    search randint fuel rm cur = Some (res, rm') ->
    _routers rm' = _routers rm
    /\ _routers_directory rm' = _routers_directory rm
    /\ routers_priority_list rm' = routers_priority_list rm.
Proof.
  induction fuel as [| fuel IH]; intros rm cur res rm' H; [discriminate|].
  cbn [search] in H.
  destruct (_get_random_connection_params randint rm cur) as [router | e];
    [| inversion H; subst; auto].
  destruct (bool_decide (router <> None) || _).
  - destruct (_ =? _); [| inversion H; subst; auto].
    destruct (_get_available_routers rm cur) as [l | e]; [| inversion H; subst; auto].
    destruct (length l <? 2)%nat; inversion H; subst; auto.
  - apply IH in H. exact H.
Qed.

(** X4: with every priority of the list a key of the directory and
    [randint] within its bounds, [get_next_router] raises nothing as
    long as the index is inside the priority list.  Once it has returned
    [None] the index is behind the list, and the next call raises
    [IndexError]. *)
Theorem next_router_exceptions (rm : t) :
  (directory_complete rm -> randint_in_range randint ->
   _routers rm = [] \/ (_cur_priority_idx rm < length (routers_priority_list rm))%nat ->
   exists x rm', get_next_router randint rm = Some (Ok x, rm'))
  /\ (forall rm', _routers rm <> [] ->
                  get_next_router randint rm = Some (Ok None, rm') ->
                  get_next_router randint rm' = Some (Raise IndexError, rm')).
Proof.
  split.
  - intros Hc Hr Hcase. unfold get_next_router.
    destruct (_routers rm) as [| x xs]; [eauto|].
    destruct Hcase as [Hnil | Hlt]; [discriminate|].
    destruct (lookup_lt_is_Some_2 _ _ Hlt) as [cur Hcur]. rewrite Hcur.
    destruct (RouterManagerFacts.search_total randint (search_fuel rm) rm cur)
      as [[res rm'] Hs]; [unfold search_fuel; lia|].
    rewrite Hs.
    destruct (search_no_raise _ _ _ _ _ Hc Hr
                ltac:(apply Hc; eapply list_elem_of_lookup_2; exact Hcur) Hs) as [x' ->].
    destruct x' as [[[pos prio] r]|]; eauto.
  - intros rm' Hne Hg. unfold get_next_router in Hg.
    destruct (_routers rm) as [| x xs] eqn:Erm; [congruence|].
    destruct (routers_priority_list rm !! _cur_priority_idx rm) as [cur|] eqn:Ecur;
      [| discriminate].
    destruct (search randint (search_fuel rm) rm cur) as [[[[[[q c] y]|] | e] rm1]|] eqn:Es;
      try discriminate.
    inversion Hg; subst rm1.
    destruct (search_skipped _ _ _ _ _ (or_introl Ecur) Es) as [_ Hnone].
    specialize (Hnone eq_refl).
    destruct (search_frame _ _ _ _ _ Es) as (Hr & _ & Hp).
    unfold get_next_router. rewrite Hr, Erm, Hp.
    rewrite (lookup_ge_None_2 _ _ Hnone). reflexivity.
Qed.

End Selection.

Lemma next_router_is_highest_available_witness :
  (exists prio pos,
      InDirectory 50 0%nat = InDirectory prio pos
      /\ deref RouterSamples.rm_last_single (InDirectory 50 0%nat) = Some RouterSamples.router_c
      /\ Router.available RouterSamples.router_c = true
      /\ routers_priority_list RouterSamples.rm_last_single
           !! _cur_priority_idx (PrioritySamples.after_next RouterSamples.rm_last_single)
         = Some prio
      /\ forall i p,
          (_cur_priority_idx RouterSamples.rm_last_single <= i)%nat ->
          (i < _cur_priority_idx (PrioritySamples.after_next RouterSamples.rm_last_single))%nat ->
          routers_priority_list RouterSamples.rm_last_single !! i = Some p ->
          tier_available RouterSamples.rm_last_single p = false)
  /\ (forall i p,
         (_cur_priority_idx PrioritySamples.rm_all_down <= i)%nat ->
         routers_priority_list PrioritySamples.rm_all_down !! i = Some p ->
         tier_available PrioritySamples.rm_all_down p = false).
Proof.
  split.
  - apply (proj1 (next_router_is_highest_available RouterSamples.first_of
                    RouterSamples.rm_last_single
                    (PrioritySamples.after_next RouterSamples.rm_last_single)
                    ltac:(discriminate))).
    vm_compute. reflexivity.
  - apply (proj2 (next_router_is_highest_available RouterSamples.first_of
                    PrioritySamples.rm_all_down
                    (PrioritySamples.after_next PrioritySamples.rm_all_down)
                    ltac:(discriminate))).
    vm_compute. reflexivity.
Defined.

Lemma next_router_exceptions_witness :
  (exists x rm', get_next_router RouterSamples.first_of RouterSamples.rm3 = Some (Ok x, rm'))
  /\ get_next_router RouterSamples.first_of
       (PrioritySamples.after_next PrioritySamples.rm_all_down)
     = Some (Raise IndexError, PrioritySamples.after_next PrioritySamples.rm_all_down).
Proof.
  split.
  - apply (proj1 (next_router_exceptions RouterSamples.first_of RouterSamples.rm3)).
    + intros p Hp.
      assert (Hl : routers_priority_list RouterSamples.rm3 = [100; 50])
        by (vm_compute; reflexivity).
      rewrite Hl in Hp. apply list_elem_of_In in Hp.
      destruct Hp as [<- | [<- | []]]; vm_compute; eexists; reflexivity.
    + intros lo hi H. unfold RouterSamples.first_of. lia.
    + right. vm_compute. lia.
  - apply (proj2 (next_router_exceptions RouterSamples.first_of PrioritySamples.rm_all_down)).
    + discriminate.
    + vm_compute. reflexivity.
Defined.

End RouterManagerSelection.

(** ** Connection: constructing twice from the same settings *)

Module ConnectionInit.
Import Connection.
Import Priorities.

Lemma init_ok_inv (routers routers' : list Router.params) (st : Settings.t)
    (rm : RouterManager.t) :
  RouterManager.__init__ routers st = (Ok rm, routers') ->
  existsb too_high routers = false
  /\ routers' = RouterManager.sort_desc (defaulted routers)
  /\ RouterManager._routers rm = routers'.
Proof.
  intros H. destruct (existsb too_high routers) eqn:Eh.
  - pose proof (RouterManagerInit.default_priorities_too_high routers 0 Eh) as Hd.
    unfold RouterManager.__init__ in H.
    destruct (RouterManager.default_priorities routers 0) as [r1 [n | e]];
      cbn [snd] in Hd; [discriminate | inversion H].
  - split; [reflexivity|].
    unfold RouterManager.__init__ in H.
    rewrite (RouterManagerInit.default_priorities_ok routers 0 Eh) in H.
    fold (defaulted routers) in H.
    destruct (_ && _); [inversion H|].
    destruct (RouterManager.group _) as [d pl]. inversion H; subst. auto.
Qed.

Lemma defaulted_have_priority (routers : list Router.params) :
  existsb too_high routers = false ->
  Forall (fun r => too_high r = false /\ unset r = false) (defaulted routers).
Proof.
  induction routers as [| r l IH]; intros H; [constructor|].
  cbn [existsb] in H. apply orb_false_iff in H as [Hr Hl].
  cbn [defaulted map]. constructor; [| apply IH; exact Hl].
  unfold too_high, unset in *. destruct (Router.priority r) eqn:Ep.
  - rewrite Ep. auto.
  - cbn. auto.
Qed.

Lemma with_priorities_then_host (l : list Router.params) (x : Router.params) :
  Forall (fun r => too_high r = false /\ unset r = false) l ->
  too_high x = false -> unset x = true ->
  existsb too_high (l ++ [x])%list = false
  /\ length (filter (fun r => unset r = true) (l ++ [x])%list) = 1%nat.
Proof.
  intros Hl Hx Hu. induction Hl as [| r l [Hr Hur] _ IH].
  - cbn [app existsb]. rewrite Hx. split; [reflexivity|].
    rewrite filter_cons_True by exact Hu. reflexivity.
  - destruct IH as [IH1 IH2]. cbn [app existsb]. rewrite Hr, IH1. split; [reflexivity|].
    rewrite filter_cons_False by (rewrite Hur; discriminate). exact IH2.
Qed.

(** The entry the constructor appends for the [host] of the settings. *)
Lemma initial_routers_host (s : Settings.t) (l : list Router.params) (h : string) :
  Settings.routers s = Some l -> Settings.host s = Some h -> h <> "" ->
  initial_routers s
  = (l ++ [ {| Router.host := h; Router.port := Settings.port s;
               Router.socket := None; Router.priority := None;
               Router.p_available := None |} ])%list.
Proof.
  intros Hr Hh Hne. unfold initial_routers. rewrite Hr, Hh. cbn [default from_option id].
  destruct (String.eqb_spec h ""); [contradiction | reflexivity].
Qed.

(** What a successful construction leaves in the settings: the list
    under [routers] is the sorted list of the connection, one entry
    longer than before, and every entry now carries a priority. *)
Lemma construction_leaves (s s' : Settings.t) (owner : option string) (c : t)
    (l : list Router.params) (h : string) :
  Settings.routers s = Some l -> Settings.host s = Some h -> h <> "" ->
  __init__ s owner = (Ok c, s') ->
  s' = Settings.set_routers s (_routers c)
  /\ length (_routers c) = S (length l)
  /\ Forall (fun r => too_high r = false /\ unset r = false) (_routers c).
Proof.
  intros Hr Hh Hne H. unfold __init__ in H.
  destruct (RouterManager.__init__ (initial_routers s)
              (settings_after s (initial_routers s))) as [[rm | e] routers'] eqn:Ei;
    [| inversion H].
  inversion H; subst c s'; clear H. cbn [_routers].
  destruct (init_ok_inv _ _ _ _ Ei) as (Hth & Hsorted & _).
  split; [unfold settings_after; rewrite Hr; reflexivity|].
  split.
  - rewrite Hsorted, (RouterManagerOrder.sort_desc_perm _). unfold defaulted.
    rewrite length_map, (initial_routers_host s l h Hr Hh Hne), length_app. cbn. lia.
  - rewrite Hsorted. rewrite (RouterManagerOrder.sort_desc_perm _).
    apply defaulted_have_priority. exact Hth.
Qed.

(** A [host] next to a non-empty [routers] list whose entries all carry
    a priority is rejected. *)
Lemma host_after_priorities (s : Settings.t) (owner : option string)
    (l : list Router.params) (h : string) :
  Settings.routers s = Some l -> Settings.host s = Some h -> h <> "" ->
  l <> [] ->
  Forall (fun r => too_high r = false /\ unset r = false) l ->
  __init__ s owner
  = (Raise (ProgrammingError
              "You must either assign no priority to any of the routers or give a priority for every router"
              4000),
     Settings.set_routers s
       (l ++ [ {| Router.host := h; Router.port := Settings.port s;
                  Router.socket := None; Router.priority := Some 100;
                  Router.p_available := None |} ])%list).
Proof.
  intros Hr Hh Hne Hnil Hall.
  pose proof (initial_routers_host s l h Hr Hh Hne) as Hin.
  destruct (with_priorities_then_host l _ Hall
              (eq_refl : too_high {| Router.host := h; Router.port := Settings.port s;
                                     Router.socket := None; Router.priority := None;
                                     Router.p_available := None |} = false)
              eq_refl) as [Hth Hcount].
  assert (Hdef : defaulted (l ++ [ {| Router.host := h; Router.port := Settings.port s;
                                      Router.socket := None; Router.priority := None;
                                      Router.p_available := None |} ])%list
                 = (l ++ [ {| Router.host := h; Router.port := Settings.port s;
                              Router.socket := None; Router.priority := Some 100;
                              Router.p_available := None |} ])%list).
  { unfold defaulted. rewrite map_app. f_equal.
    clear -Hall. induction Hall as [| r l [_ Hu] _ IH]; [reflexivity|].
    cbn [map]. rewrite Hu, IH. reflexivity. }
  unfold __init__, RouterManager.__init__. rewrite Hin.
  rewrite (RouterManagerInit.default_priorities_ok _ 0 Hth), Hcount.
  fold (defaulted (l ++ [ {| Router.host := h; Router.port := Settings.port s;
                             Router.socket := None; Router.priority := None;
                             Router.p_available := None |} ])%list).
  rewrite Hdef, length_app. cbn [length].
  replace ((0 <? 0 + Z.of_nat 1) && (0 + Z.of_nat 1 <? Z.of_nat (length l + 1)))
    with true.
  - unfold settings_after. rewrite Hr. reflexivity.
  - symmetry. apply andb_true_iff. destruct l; [congruence|].
    split; apply Z.ltb_lt; cbn [length]; lia.
Qed.

(** X6: the constructor appends the [host] entry to the very list the
    settings hold under [routers] and stores a priority in each entry.
    So once a connection has been built from settings with a [routers]
    list and a non-empty [host], building another one from the same
    settings finds one entry without priority among entries with one,
    and raises [ProgrammingError] 4000. *)
Theorem second_construction_raises (s s' : Settings.t) (owner owner' : option string)
    (c : t) (l : list Router.params) (h : string) :
  Settings.routers s = Some l ->
  Settings.host s = Some h ->
  h <> "" ->
  __init__ s owner = (Ok c, s') ->
  Settings.routers s' = Some (_routers c)
  /\ length (_routers c) = S (length l)
  /\ fst (__init__ s' owner')
     = Raise (ProgrammingError
                "You must either assign no priority to any of the routers or give a priority for every router"
                4000).
Proof.
  intros Hr Hh Hne H.
  destruct (construction_leaves _ _ _ _ _ _ Hr Hh Hne H) as (-> & Hlen & Hall).
  split; [reflexivity|]. split; [exact Hlen|].
  rewrite (host_after_priorities (Settings.set_routers s (_routers c)) owner'
             (_routers c) h); [reflexivity | reflexivity | exact Hh | exact Hne | | exact Hall].
  intros Hnil. rewrite Hnil in Hlen. discriminate.
Qed.

Lemma second_construction_raises_witness :
  Settings.routers SettingsSamples.host_and_routers_after
  = Some (_routers SettingsSamples.cnx_host_and_routers)
  /\ length (_routers SettingsSamples.cnx_host_and_routers) = 3%nat
  /\ fst (__init__ SettingsSamples.host_and_routers_after None)
     = Raise (ProgrammingError
                "You must either assign no priority to any of the routers or give a priority for every router"
                4000).
Proof.
  apply (second_construction_raises SettingsSamples.host_and_routers
           SettingsSamples.host_and_routers_after None None
           SettingsSamples.cnx_host_and_routers
           [RouterSamples.mk "a" None; RouterSamples.mk "b" None] "db1");
    [reflexivity | reflexivity | discriminate | vm_compute; reflexivity].
Defined.

End ConnectionInit.

(** ** Session.close when the new connection cannot be built *)

Module SessionClose.
Import Session.
Import Priorities.

(** X7: a session built, without pooling, from settings that hold a
    [routers] list and a non-empty [host] cannot be closed normally:
    [close] always raises, the session keeps referring to its old
    connection, and when closing that connection succeeded the error is
    the [ProgrammingError] 4000 of the constructor. *)
Theorem close_raises_with_host_and_routers (ev : env) (objs : store) (s : t)
    (old c0 : Connection.t) (s0 : Settings.t) (l : list Router.params) (h : string) :
  Settings.routers s0 = Some l ->
  Settings.host s0 = Some h ->
  h <> "" ->
  Connection.__init__ s0 None = (Ok c0, _settings s) ->
  objs !! _connection s = Some old ->
  exists e objs' s',
    close ev objs s = (Raise e, objs', s')
    /\ _connection s' = _connection s
    /\ objs' = <[_connection s := snd (close_session ev old)]> objs
    /\ (fst (close_session ev old) = Ok tt ->
        e = ProgrammingError
              "You must either assign no priority to any of the routers or give a priority for every router"
              4000).
Proof.
  intros Hr Hh Hne Hinit Hold.
  destruct (ConnectionInit.construction_leaves _ _ _ _ _ _ Hr Hh Hne Hinit)
    as (Hs & Hlen & Hall).
  unfold close. rewrite Hold.
  destruct (close_session ev old) as [[[] | e] old'] eqn:Ec; cbn [fst snd].
  - rewrite (ConnectionInit.host_after_priorities (_settings s) None
               (Connection._routers c0) h).
    + eexists _, _, _. split; [reflexivity|]. split; [reflexivity|].
      split; [reflexivity|]. reflexivity.
    + rewrite Hs. reflexivity.
    + rewrite Hs. exact Hh.
    + exact Hne.
    + intros Hnil. rewrite Hnil in Hlen. discriminate.
    + exact Hall.
  - eexists _, _, _. split; [reflexivity|]. split; [reflexivity|].
    split; [reflexivity|]. discriminate.
Qed.

Lemma close_raises_with_host_and_routers_witness :
  exists e objs' s',
    close SessionSamples.polite [SettingsSamples.cnx_host_and_routers]
      SettingsSamples.session_host_and_routers
    = (Raise e, objs', s')
    /\ _connection s' = _connection SettingsSamples.session_host_and_routers
    /\ objs' = <[_connection SettingsSamples.session_host_and_routers
                 := snd (close_session SessionSamples.polite
                           SettingsSamples.cnx_host_and_routers)]>
                 [SettingsSamples.cnx_host_and_routers]
    /\ (fst (close_session SessionSamples.polite SettingsSamples.cnx_host_and_routers)
        = Ok tt ->
        e = ProgrammingError
              "You must either assign no priority to any of the routers or give a priority for every router"
              4000).
Proof.
  apply (close_raises_with_host_and_routers SessionSamples.polite
           [SettingsSamples.cnx_host_and_routers] SettingsSamples.session_host_and_routers
           SettingsSamples.cnx_host_and_routers SettingsSamples.cnx_host_and_routers
           SettingsSamples.host_and_routers
           [RouterSamples.mk "a" None; RouterSamples.mk "b" None] "db1");
    [reflexivity | reflexivity | discriminate | vm_compute; reflexivity | reflexivity].
Defined.

(** X24: [Session.close] on a session over a plain connection leaves
    the stream of that connection closed on every outcome, also when
    the exchange with the server or the construction of the new
    connection raises: the old connection object stays where it was,
    with no socket. *)
Theorem close_always_closes_stream (ev : env) (objs : store) (s : t)
    (old : Connection.t) :
  objs !! _connection s = Some old ->
  Connection.pool old = None ->
  exists old',
    snd (fst (close ev objs s)) !! _connection s = Some old'
    /\ Connection.is_open old' = false
    /\ Connection._prepared_stmt_ids old' = Connection._prepared_stmt_ids old
    /\ Connection.router_manager old' = Connection.router_manager old.
Proof.
  intros Hold Hplain.
  assert (Hlt : (_connection s < length objs)%nat) by (eapply lookup_lt_Some; exact Hold).
  assert (Hcs : exists old', snd (close_session ev old) = old'
                             /\ Connection.is_open old' = false
                             /\ Connection._prepared_stmt_ids old'
                                = Connection._prepared_stmt_ids old
                             /\ Connection.router_manager old'
                                = Connection.router_manager old).
  { unfold close_session. rewrite Hplain.
    destruct (Connection.is_open old) eqn:Eo; cbn [negb].
    - assert (Hr : forall b, Connection.is_open (close_stream (reset_stmt_counter old b))
                             = false
                             /\ Connection._prepared_stmt_ids
                                  (close_stream (reset_stmt_counter old b))
                                = Connection._prepared_stmt_ids old
                             /\ Connection.router_manager
                                  (close_stream (reset_stmt_counter old b))
                                = Connection.router_manager old)
        by (intros []; auto).
      destruct (closing ev old) as [| b | e b]; cbn [snd]; eauto.
    - cbn [snd]. eauto. }
  destruct Hcs as (old' & Hsnd & Hclosed).
  exists old'. split; [| exact Hclosed].
  unfold close. rewrite Hold.
  destruct (close_session ev old) as [[[] | e] o] eqn:Ec; cbn [snd] in Hsnd; subst o.
  - destruct (Connection.__init__ (_settings s) None) as [[fresh | e] st]; cbn [fst snd].
    + rewrite lookup_app_l by (rewrite length_insert; exact Hlt).
      apply list_lookup_insert_eq. exact Hlt.
    + apply list_lookup_insert_eq. exact Hlt.
  - cbn [fst snd]. apply list_lookup_insert_eq. exact Hlt.
Qed.

Lemma close_always_closes_stream_witness :
  exists old',
    snd (fst (close SessionSamples.polite [ConnectionSamples.open_cnx]
                SessionSamples.session0))
      !! _connection SessionSamples.session0 = Some old'
    /\ Connection.is_open old' = false
    /\ Connection._prepared_stmt_ids old'
       = Connection._prepared_stmt_ids ConnectionSamples.open_cnx
    /\ Connection.router_manager old'
       = Connection.router_manager ConnectionSamples.open_cnx.
Proof.
  apply (close_always_closes_stream SessionSamples.polite [ConnectionSamples.open_cnx]
           SessionSamples.session0 ConnectionSamples.open_cnx);
    reflexivity.
Defined.

End SessionClose.

(** ** Connection.connect: how far failover goes *)

Module ConnectionFailover.
Import Connection.
Import Priorities.
Import Failover.

Lemma rsu_frame (rm : RouterManager.t) (ref : RouterManager.router_ref) :
  RouterManager.routers_priority_list (RouterManager.router_set_unavailable rm ref)
  = RouterManager.routers_priority_list rm
  /\ RouterManager._cur_priority_idx (RouterManager.router_set_unavailable rm ref)
     = RouterManager._cur_priority_idx rm
  /\ RouterManager._can_failover (RouterManager.router_set_unavailable rm ref)
     = RouterManager._can_failover rm
  /\ RouterManager._routers (RouterManager.router_set_unavailable rm ref)
     = RouterManager._routers rm.
Proof.
  destruct ref as [prio pos | r]; cbn [RouterManager.router_set_unavailable]; [| auto].
  destruct (RouterManager._routers_directory rm !! prio) as [l|]; [| auto].
  destruct (l !! pos); auto.
Qed.

Lemma rsu_keys (rm : RouterManager.t) (ref : RouterManager.router_ref) (p : Z) :
  is_Some (RouterManager._routers_directory (RouterManager.router_set_unavailable rm ref) !! p)
  -> is_Some (RouterManager._routers_directory rm !! p).
Proof.
  destruct ref as [prio pos | r]; cbn [RouterManager.router_set_unavailable]; [| auto].
  destruct (RouterManager._routers_directory rm !! prio) as [l|] eqn:El; [| auto].
  destruct (l !! pos); [| auto].
  cbn [RouterManager.set_directory RouterManager._routers_directory].
  destruct (decide (p = prio)) as [-> | Hne].
  - intros _. rewrite El. eauto.
  - rewrite lookup_insert_ne by congruence. auto.
Qed.

Lemma existsb_insert_false (l : list Router.t) (pos : nat) (u : Router.t) :
  existsb Router.available l = false -> Router.available u = false ->
  existsb Router.available (<[pos := u]> l) = false.
Proof.
  revert pos. induction l as [| x l IH]; intros pos H Hu; [reflexivity|].
  cbn [existsb] in H. apply orb_false_iff in H as [Hx Hl].
  destruct pos as [| pos]; cbn.
  - rewrite Hu, Hl. reflexivity.
  - rewrite Hx. apply IH; assumption.
Qed.

(** Marking a router unavailable makes no tier available. *)
Lemma rsu_tier_available (rm : RouterManager.t) (ref : RouterManager.router_ref) (p : Z) :
  tier_available rm p = false ->
  tier_available (RouterManager.router_set_unavailable rm ref) p = false.
Proof.
  destruct ref as [prio pos | r]; cbn [RouterManager.router_set_unavailable]; [| auto].
  destruct (RouterManager._routers_directory rm !! prio) as [l|] eqn:El; [| auto].
  destruct (l !! pos) as [r|]; [| auto].
  unfold tier_available, tier.
  cbn [RouterManager.set_directory RouterManager._routers_directory].
  destruct (decide (p = prio)) as [-> | Hne].
  - rewrite lookup_insert_eq, El. cbn [default from_option id].
    intros H. apply existsb_insert_false; [exact H | reflexivity].
  - rewrite lookup_insert_ne by congruence. auto.
Qed.

(** Marking the only available router of a tier unavailable leaves the
    tier without one. *)
Lemma rsu_last_available (rm : RouterManager.t) (prio : Z) (pos : nat) (r : Router.t) :
  RouterManager._get_available_routers rm prio = Ok [(pos, r)] ->
  tier_available
    (RouterManager.router_set_unavailable rm (RouterManager.InDirectory prio pos)) prio
  = false.
Proof.
  unfold RouterManager._get_available_routers.
  destruct (RouterManager._routers_directory rm !! prio) as [l0|] eqn:El; [| discriminate].
  intros [= Hf].
  assert (Hpos : l0 !! pos = Some r).
  { assert (Hin : (pos, r) ∈ filter (fun ir : nat * Router.t =>
                                       Router.available (snd ir) = true) (imap pair l0))
      by (rewrite Hf; apply list_elem_of_here).
    apply list_elem_of_filter in Hin as [_ Hin].
    apply elem_of_lookup_imap in Hin as (i & x & Heq & Hl). inversion Heq; subst. exact Hl. }
  cbn [RouterManager.router_set_unavailable]. rewrite El, Hpos.
  unfold tier_available, tier.
  cbn [RouterManager.set_directory RouterManager._routers_directory].
  rewrite lookup_insert_eq. cbn [default from_option id].
  destruct (existsb Router.available (<[pos := Router.set_unavailable r]> l0)) eqn:E;
    [| reflexivity].
  apply existsb_exists in E as (x & Hin & Hav).
  apply list_elem_of_In, list_elem_of_lookup in Hin as [j Hj].
  apply list_lookup_insert_Some in Hj as [(-> & <- & _) | (Hne & Hj)].
  - discriminate.
  - assert (Hmem : (j, x) ∈ filter (fun ir : nat * Router.t =>
                                      Router.available (snd ir) = true) (imap pair l0)).
    { apply list_elem_of_filter. split; [exact Hav|].
      apply elem_of_lookup_imap. eauto. }
    rewrite Hf in Hmem. apply list_elem_of_singleton in Hmem. congruence.
Qed.

(** A manager the constructor has just built. *)
Lemma fresh_manager (routers : list Router.params) (st : Settings.t)
    (rm : RouterManager.t) :
  fst (RouterManager.__init__ routers st) = Ok rm ->
  covered rm /\ RouterManager._can_failover rm = true /\ RouterManager._settings rm = st.
Proof.
  intros H. destruct (RouterManagerOrder.init_ok_shape _ _ _ H) as (Hr & Hg & Hi & Hc).
  assert (Hst : RouterManager._settings rm = st).
  { unfold RouterManager.__init__ in H.
    destruct (RouterManager.default_priorities routers 0) as [r1 [n | e]];
      [| discriminate].
    destruct (_ && _); [discriminate|].
    destruct (RouterManager.group _); cbn [fst] in H. inversion H; reflexivity. }
  split; [| auto]. split; [| split].
  - split.
    + pose proof (RouterManagerOrder.group_fold_grouped
                    (RouterManager._routers rm) ∅ [] []) as Hf.
      unfold RouterManager.group in Hg. rewrite <- Hg in Hf. cbn [fst snd app] in Hf.
      destruct Hf as (_ & Hk & _).
      * split; [constructor|]. split; [| split].
        -- intros p. rewrite lookup_empty. split; [intros [? ?]; discriminate | inversion 1].
        -- reflexivity.
        -- intros p l. rewrite lookup_empty. discriminate.
      * rewrite Hr. apply RouterManagerOrder.sort_desc_sorted.
      * intros p r Hp. inversion Hp.
      * intros p. apply Hk.
    + intros Hnil. rewrite Hnil in Hg. cbn in Hg. congruence.
  - intros i p Hlt. rewrite Hi in Hlt. lia.
  - intros Hcf. congruence.
Qed.

Section Failover.
Variable rng : nat -> Z -> Z -> Z.
Variable net : nat -> Router.connection_params -> option Z -> attempt.

(** A turn of the loop that fails keeps the manager covered. *)
Lemma failed_turn_covered (randint : Z -> Z -> Z) (rm rm1 : RouterManager.t)
    (ref : RouterManager.router_ref) (router : Router.t) :
  covered rm ->
  RouterManager._can_failover rm = true ->
  RouterManager.get_next_router randint rm = Some (Ok (Some (ref, router)), rm1) ->
  covered (RouterManager.router_set_unavailable rm1 ref).
Proof.
  intros ((Hk & He) & Hs & _) Hcf Hg.
  destruct (rsu_frame rm1 ref) as (Hpl & Hidx & Hcf2 & Hrs).
  destruct (RouterManager._routers rm) as [| x xs] eqn:Erm.
  - unfold RouterManager.get_next_router in Hg. rewrite Erm in Hg.
    inversion Hg; subst rm1 ref; clear Hg.
    specialize (He eq_refl).
    cbn [RouterManager.router_set_unavailable].
    unfold covered, keys_listed, higher_tiers_tried, listed_tiers_tried.
    cbn [RouterManager.set_can_failover RouterManager.routers_priority_list
           RouterManager._routers_directory RouterManager._routers
           RouterManager._cur_priority_idx RouterManager._can_failover].
    rewrite He.
    split; [| split].
    + split; [| reflexivity]. intros p Hp. rewrite <- He. apply Hk. exact Hp.
    + intros i p _ Hp. discriminate.
    + intros _ i p Hp. discriminate.
  - assert (Hne : RouterManager._routers rm <> []) by (rewrite Erm; discriminate).
    destruct (RouterManagerFacts.get_next_router_sound randint _ _ _ _ Hne Hg)
      as (prio & pos & l & -> & Hd & Hp & Hr & _ & Hlk & Hl & Hin & Hcf1).
    pose proof (RouterManagerSelection.next_router_skips randint rm rm1
                  (RouterManager.InDirectory prio pos) router Hne Hg) as Hskip.
    assert (Hta : forall q, tier_available rm1 q = tier_available rm q).
    { intros q. unfold tier_available, tier. rewrite Hd. reflexivity. }
    split; [| split].
    + split.
      * intros p Hsome. rewrite Hpl, Hp. apply Hk.
        apply rsu_keys in Hsome. rewrite Hd in Hsome. exact Hsome.
      * rewrite Hrs, Hr, Erm. discriminate.
    + intros i p Hlt Hi. rewrite Hidx in Hlt. rewrite Hpl, Hp in Hi.
      apply rsu_tier_available. rewrite Hta.
      destruct (Nat.lt_ge_cases i (RouterManager._cur_priority_idx rm)) as [Hlo | Hhi].
      * apply (Hs i p Hlo Hi).
      * apply (Hskip i p Hhi Hlt Hi).
    + rewrite Hcf2, Hcf1, Hcf. intros Hlast i p Hi. rewrite Hpl, Hp in Hi.
      destruct (Z.eqb_spec (Z.of_nat (RouterManager._cur_priority_idx rm1))
                  (RouterManager.plen rm - 1)) as [Hidx1 | Hidx1];
        [| cbn [andb] in Hlast; discriminate].
      cbn [andb] in Hlast.
      destruct (Nat.ltb_spec (length l) 2) as [Hlen | Hlen]; [| discriminate].
      assert (Hl1 : l = [(pos, router)]).
      { destruct l as [| a [| b l]]; [inversion Hin | | cbn in Hlen; lia].
        apply list_elem_of_singleton in Hin. congruence. }
      subst l.
      assert (Hi' : (i < length (RouterManager.routers_priority_list rm))%nat)
        by (eapply lookup_lt_Some; exact Hi).
      unfold RouterManager.plen in Hidx1.
      destruct (Nat.lt_ge_cases i (RouterManager._cur_priority_idx rm1)) as [Hlo | Hhi].
      * apply rsu_tier_available. rewrite Hta.
        destruct (Nat.lt_ge_cases i (RouterManager._cur_priority_idx rm)) as [Hlo' | Hhi'].
        -- apply (Hs i p Hlo' Hi).
        -- apply (Hskip i p Hhi' Hlo Hi).
      * assert (i = RouterManager._cur_priority_idx rm1) by lia. subst i.
        rewrite Hlk in Hi. inversion Hi; subst p.
        apply (rsu_last_available rm1 prio pos router).
        unfold RouterManager._get_available_routers in *. rewrite Hd. exact Hl.
Qed.

Lemma after_attempt_manager (c : t) (sc : bool) :
  router_manager (after_attempt c sc) = router_manager c.
Proof. destruct sc; reflexivity. Qed.

(** When the loop gives up, a stored error says why and every listed
    tier is without an available router. *)
Lemma loop_gives_up (fuel : nat) :
  forall (n : nat) (c c' : t) (error error' : option transport_error),
    covered (router_manager c) ->
    RouterManager._can_failover (router_manager c) = true \/ is_Some error ->
    connect_loop rng net fuel n c error = Some (Exhausted error', c') ->
    is_Some error'
    /\ keys_listed (router_manager c')
    /\ listed_tiers_tried (router_manager c').
Proof.
  induction fuel as [| fuel IH]; intros n c c' error error' Hcov Herr H;
    cbn [connect_loop] in H; unfold RouterManager.can_failover in H;
    destruct (RouterManager._can_failover (router_manager c)) eqn:Ecf; cbn [negb] in H;
    try discriminate.
  - inversion H; subst; clear H. destruct Hcov as (Hk & _ & Hall).
    destruct Herr as [? | Herr]; [discriminate|]. auto.
  - destruct (RouterManager.get_next_router (rng n) (router_manager c))
      as [[[[[ref router]|] | e] rm]|] eqn:Eg; try discriminate.
    destruct (net n _ _) as [| err sc | e sc]; try discriminate.
    apply IH in H; [exact H | |].
    + cbn [set_router_manager router_manager].
      rewrite after_attempt_manager. cbn [set_router_manager router_manager].
      eapply failed_turn_covered; eassumption.
    + right. eauto.
  - inversion H; subst; clear H. destruct Hcov as (Hk & _ & Hall).
    destruct Herr as [? | Herr]; [discriminate|]. auto.
Qed.

Lemma built_manager (s s' : Settings.t) (owner : option string) (c : t) :
  __init__ s owner = (Ok c, s') ->
  fst (RouterManager.__init__ (initial_routers s) (settings_after s (initial_routers s)))
  = Ok (router_manager c)
  /\ _routers c = RouterManager._routers (router_manager c)
  /\ stream c = SocketStream.__init__.
Proof.
  unfold __init__. intros H.
  destruct (RouterManager.__init__ (initial_routers s)
              (settings_after s (initial_routers s))) as [[rm | e] routers'] eqn:Ei;
    [| inversion H].
  destruct (ConnectionInit.init_ok_inv _ _ _ _ Ei) as (_ & _ & Hrs).
  inversion H; subst; cbn [router_manager _routers stream fst]. auto.
Qed.

(** X8: [connect] on a connection that has just been built gives up
    only after failover has covered every router: when the loop ends
    without a connection, an error of a failed attempt is stored and no
    router of the directory is available any more. *)
Theorem gives_up_after_every_router (s s' : Settings.t) (owner : option string)
    (c c' : t) (error : option transport_error) :
  __init__ s owner = (Ok c, s') ->
  connect_attempts rng net c = Some (Exhausted error, c') ->
  is_Some error /\ all_unavailable (router_manager c').
Proof.
  intros Hinit Hloop.
  destruct (built_manager _ _ _ _ Hinit) as (Hrm & _ & _).
  destruct (fresh_manager _ _ _ Hrm) as (Hcov & Hcf & _).
  destruct (loop_gives_up _ _ _ _ _ _ Hcov (or_introl Hcf) Hloop)
    as (Herr & (Hk & _) & Hall).
  split; [exact Herr|].
  intros p r Hin. unfold tier in Hin.
  destruct (RouterManager._routers_directory (router_manager c') !! p) as [l|] eqn:El;
    cbn [default from_option id] in Hin; [| inversion Hin].
  assert (Hp : p ∈ RouterManager.routers_priority_list (router_manager c'))
    by (apply Hk; rewrite El; eauto).
  apply list_elem_of_lookup in Hp as [i Hi].
  specialize (Hall i p Hi). unfold tier_available, tier in Hall. rewrite El in Hall.
  cbn [default from_option id] in Hall.
  destruct (Router.available r) eqn:Hav; [| reflexivity].
  assert (Hex : existsb Router.available l = true).
  { apply existsb_exists. exists r. split; [apply list_elem_of_In; exact Hin | exact Hav]. }
  congruence.
Qed.

(** X9: settings with neither routers nor host give a connection that
    makes exactly one attempt, to the socket of the settings or else to
    their host (["localhost"] when the key is missing) and their port
    (33060 when missing); the outcome of that attempt is the outcome of
    [connect]. *)
Theorem connect_without_routers (s : Settings.t) (owner : option string) :
  initial_routers s = [] ->
  exists c s',
    __init__ s owner = (Ok c, s')
    /\ option_map fst (connect rng net c)
       = Some (match net 0%nat
                       (match Settings.socket s with
                        | Some path => Router.UnixSocket path
                        | None => Router.HostPort (default "localhost" (Settings.host s))
                                    (Some (default 33060 (Settings.port s)))
                        end)
                       (_connect_timeout c) with
               | Established => Ok tt
               | Aborted e _ => Raise e
               | Failed err _ =>
                   Raise (if is_socket_timeout err then
                            TimeoutError
                              ("Connection attempt to the server was aborted. Timeout of "
                               ++ str_opt_int (_connect_timeout c)
                               ++ " ms was exceeded")%string
                          else
                            InterfaceError ("Cannot connect to host: " ++ text err)%string None)
               end).
Proof.
  intros Hnil. unfold __init__. rewrite Hnil.
  assert (Hst : Settings.socket (settings_after s []) = Settings.socket s
                /\ Settings.host (settings_after s []) = Settings.host s
                /\ Settings.port (settings_after s []) = Settings.port s).
  { unfold settings_after. destruct (Settings.routers s); auto. }
  destruct Hst as (Hsock & Hhost & Hport).
  cbn [RouterManager.__init__ RouterManager.default_priorities RouterManager.sort_desc
         fold_right RouterManager.group fold_left length Z.of_nat Z.ltb Z.compare andb].
  eexists _, _. split; [reflexivity|].
  unfold connect, connect_attempts, connect_fuel, RouterManager.available_total.
  cbn [router_manager RouterManager._routers_directory].
  rewrite map_fold_empty.
  cbn [connect_loop router_manager RouterManager.can_failover RouterManager._can_failover
         negb RouterManager.get_next_router RouterManager._routers
         RouterManager._settings _connect_timeout Router.get_connection_params
         Router.__init__ Router.r_params Router.socket Router.host Router.port].
  rewrite Hsock, Hhost, Hport.
  destruct (Settings.socket s) as [path|];
    (destruct (net 0%nat _ _) as [| err sc | e sc]; [reflexivity | | reflexivity]);
    (destruct sc; unfold connect_failure, after_attempt; cbn;
     destruct (is_socket_timeout err); reflexivity).
Qed.

End Failover.

Section Connected.
Variable rng : nat -> Z -> Z -> Z.
Variable net : nat -> Router.connection_params -> option Z -> attempt.

(** The router [get_next_router] hands out is available, and it is a
    router of the manager as the call leaves it. *)
Lemma next_router_handed_out (randint : Z -> Z -> Z) (rm rm' : RouterManager.t)
    (ref : RouterManager.router_ref) (router : Router.t) :
  RouterManager.get_next_router randint rm = Some (Ok (Some (ref, router)), rm') ->
  Router.available router = true /\ handed_out rm' router.
Proof.
  intros Hg. destruct (RouterManager._routers rm) as [| x xs] eqn:Erm.
  - unfold RouterManager.get_next_router in Hg. rewrite Erm in Hg.
    inversion Hg; subst. split; [reflexivity|].
    unfold handed_out. cbn [RouterManager.set_can_failover RouterManager._routers
                              RouterManager._settings].
    rewrite Erm. reflexivity.
  - destruct (RouterManagerFacts.get_next_router_sound randint _ _ _ _
                ltac:(rewrite Erm; discriminate) Hg)
      as (prio & pos & l & -> & Hdir & Hlist & Hrs & _ & Hcur & Hl & Hin & _).
    destruct (RouterManagerFacts.available_routers_elem _ _ _ _ _ Hl Hin) as [Hde Hav].
    split; [exact Hav|].
    unfold handed_out. rewrite Hrs, Erm. exists prio, pos.
    split; [rewrite Hlist; exact Hcur|].
    unfold RouterManager.deref in *. rewrite Hdir. exact Hde.
Qed.

Lemma loop_connected (fuel : nat) :
  forall (n : nat) (c c' : t) (error : option transport_error),
    connect_loop rng net fuel n c error = Some (Connected, c') ->
    is_open c' = true /\ protocol c' = true
    /\ exists n' router,
        net n' (Router.get_connection_params router) (_connect_timeout c) = Established
        /\ Router.available router = true
        /\ handed_out (router_manager c') router.
Proof.
  induction fuel as [| fuel IH]; intros n c c' error H; cbn [connect_loop] in H;
    destruct (RouterManager.can_failover (router_manager c)); cbn [negb] in H;
    try discriminate.
  destruct (RouterManager.get_next_router (rng n) (router_manager c))
    as [[[[[ref router]|] | e] rm]|] eqn:Eg; try discriminate.
  destruct (net n _ _) as [| err sc | e sc] eqn:En; try discriminate.
  - inversion H; subst; clear H. split; [reflexivity|]. split; [reflexivity|].
    destruct (next_router_handed_out _ _ _ _ _ Eg) as [Hav Hout].
    exists n, router. split; [exact En|]. split; [exact Hav|]. exact Hout.
  - apply IH in H. destruct H as (Ho & Hp & n' & r' & Hn & Hr).
    split; [exact Ho|]. split; [exact Hp|]. exists n', r'. split; [| exact Hr].
    cbn [set_router_manager _connect_timeout] in Hn.
    rewrite (proj1 (proj2 (ConnectionConnect.after_attempt_frame _ sc))) in Hn.
    exact Hn.
Qed.

(** X25: when [connect] returns, the stream is open and the protocol
    is set, the configured routers are as before, and the attempt that
    succeeded was made, with the connect timeout of the connection, on
    a router that is available and that belongs to the router manager
    the connection is left with: an entry of its directory under the
    priority the manager stands at or, when no router is configured,
    the default router built from its settings. *)
Theorem connect_returns_connected (c c' : t) :
  connect rng net c = Some (Ok tt, c') ->
  is_open c' = true
  /\ protocol c' = true
  /\ _routers c' = _routers c
  /\ exists n router,
      net n (Router.get_connection_params router) (_connect_timeout c) = Established
      /\ Router.available router = true
      /\ handed_out (router_manager c') router.
Proof.
  unfold connect, connect_attempts. intros H.
  destruct (connect_loop rng net (connect_fuel c) 0 c None) as [[ex c1]|] eqn:El;
    [| discriminate].
  destruct ex; inversion H; subst; clear H.
  destruct (loop_connected _ _ _ _ _ El) as (Ho & Hp & Hex).
  destruct (ConnectionConnect.connect_loop_exit rng net _ _ _ _ _ _ El) as (Hr & _ & _).
  auto.
Qed.

End Connected.

(** With failover off, [connect] consults nothing and raises. *)
Lemma connect_with_failover_off (rng : nat -> Z -> Z -> Z)
    (net : nat -> Router.connection_params -> option Z -> attempt) (c : t) :
  RouterManager.can_failover (router_manager c) = false ->
  connect rng net c = Some (Raise (connect_failure c None), c).
Proof.
  intros H. unfold connect, connect_attempts, connect_fuel. cbn [connect_loop].
  rewrite H. reflexivity.
Qed.

(** The manager of a single router without priority. *)
Lemma single_router_manager (x : Router.params) (st : Settings.t) :
  Router.priority x = None ->
  RouterManager.__init__ [x] st
  = (Ok {| RouterManager._routers := [Router.set_priority x 100];
           RouterManager._settings := st;
           RouterManager._cur_priority_idx := 0%nat;
           RouterManager._can_failover := true;
           RouterManager._routers_directory :=
             {[ 100 := [Router.__init__ (Router.set_priority x 100)] ]};
           RouterManager.routers_priority_list := [100] |},
     [Router.set_priority x 100]).
Proof.
  intros Hp. unfold RouterManager.__init__. cbn [RouterManager.default_priorities].
  rewrite Hp. cbn [length Z.of_nat Z.add Z.ltb Z.compare Pos.compare Pos.compare_cont andb
                     Pos.of_succ_nat RouterManager.sort_desc fold_right
                     RouterManager.insert_desc].
  unfold RouterManager.group. cbn [fold_left]. unfold RouterManager.group_step.
  unfold RouterManager.priority_key. cbn [Router.set_priority Router.priority default
                                            from_option id].
  rewrite lookup_empty. reflexivity.
Qed.

Lemma single_router_next (randint : Z -> Z -> Z) (x : Router.params) (st : Settings.t)
    (rm : RouterManager.t) :
  Router.priority x = None -> Router.p_available x = None ->
  RouterManager.__init__ [x] st = (Ok rm, [Router.set_priority x 100]) ->
  RouterManager.get_next_router randint rm
  = Some (Ok (Some (RouterManager.InDirectory 100 0%nat,
                    Router.__init__ (Router.set_priority x 100))),
          RouterManager.set_can_failover rm false).
Proof.
  intros Hp Ha H. rewrite (single_router_manager x st Hp) in H.
  inversion H; subst rm; clear H.
  unfold RouterManager.get_next_router, RouterManager.search_fuel.
  cbn [RouterManager._routers RouterManager.routers_priority_list
         RouterManager._cur_priority_idx lookup list_lookup length Nat.sub
         RouterManager.search].
  unfold RouterManager._get_random_connection_params, RouterManager._get_available_routers.
  cbn [RouterManager._routers_directory]. rewrite lookup_singleton_eq.
  cbn [imap]. rewrite filter_cons_True.
  2:{ cbn [snd Router.__init__ Router.available Router.r_available Router.set_priority
             Router.p_available]. rewrite Ha. reflexivity. }
  rewrite filter_nil.
  rewrite bool_decide_eq_true_2 by discriminate.
  cbn [orb RouterManager._cur_priority_idx RouterManager.routers_priority_list length
         Z.of_nat Pos.of_succ_nat Z.sub Z.add Z.opp Z.pos_sub Z.eqb Nat.ltb Nat.leb
         option_map fst snd].
  reflexivity.
Qed.

(** X10: a connection built for a single host tries that host once.
    Whatever the first [connect] did, connected or not, failover is off
    afterwards, and every later [connect] on the same object raises
    [InterfaceError] without consulting the network, its message
    naming no cause. *)
Theorem single_host_connects_once (rng rng' : nat -> Z -> Z -> Z)
    (net net' : nat -> Router.connection_params -> option Z -> attempt)
    (s s' : Settings.t) (owner : option string) (h : string) (c c' : t)
    (r : result unit) :
  Settings.routers s = None ->
  Settings.host s = Some h ->
  h <> "" ->
  __init__ s owner = (Ok c, s') ->
  connect rng net c = Some (r, c') ->
  RouterManager.can_failover (router_manager c') = false
  /\ connect rng' net' c'
     = Some (Raise (InterfaceError "Cannot connect to host: None" None), c').
Proof.
  intros Hr Hh Hne Hinit Hconn.
  set (x := {| Router.host := h; Router.port := Settings.port s;
               Router.socket := None; Router.priority := None;
               Router.p_available := None |}).
  assert (Hin : initial_routers s = [x]).
  { unfold initial_routers. rewrite Hr, Hh. cbn [default from_option id].
    destruct (String.eqb_spec h ""); [contradiction | reflexivity]. }
  assert (Hafter : forall l, settings_after s l = s)
    by (intros l; unfold settings_after; rewrite Hr; reflexivity).
  pose proof (single_router_manager x s eq_refl) as Hrm.
  unfold __init__ in Hinit. rewrite Hin, !Hafter, Hrm in Hinit.
  inversion Hinit; subst c s'; clear Hinit.
  match type of Hrm with _ = (Ok ?m, _) => set (rm := m) in * end.
  pose proof (single_router_next (rng 0%nat) x s rm eq_refl eq_refl Hrm) as Hnext.
  assert (Hgoal : RouterManager.can_failover (router_manager c') = false
                  /\ _routers c' = [Router.set_priority x 100]).
  { unfold connect, connect_attempts, connect_fuel in Hconn.
    cbn [connect_loop router_manager] in Hconn.
    replace (RouterManager.can_failover rm) with true in Hconn by reflexivity.
    cbn [negb] in Hconn. rewrite Hnext in Hconn.
    destruct (net 0%nat _ _) as [| err sc | e sc].
    - inversion Hconn; subst. split; reflexivity.
    - match type of Hconn with
      | context [connect_loop _ _ _ _ ?c2 _] =>
          assert (Hoff : RouterManager.can_failover (router_manager c2) = false)
      end.
      { cbn [set_router_manager router_manager]. rewrite after_attempt_manager.
        cbn [set_router_manager router_manager].
        unfold RouterManager.can_failover.
        rewrite (proj1 (proj2 (proj2 (rsu_frame _ _)))). reflexivity. }
      match type of Hconn with
      | context [connect_loop _ _ ?f _ _ _] => destruct f
      end;
        cbn [connect_loop] in Hconn; rewrite Hoff in Hconn;
        cbn [negb] in Hconn; inversion Hconn; subst;
        (split; [exact Hoff | destruct sc; reflexivity]).
    - inversion Hconn; subst. split; destruct sc; reflexivity. }
  destruct Hgoal as [Hoff Hrs]. split; [exact Hoff|].
  rewrite (connect_with_failover_off rng' net' c' Hoff).
  unfold connect_failure. rewrite Hrs. reflexivity.
Qed.

Lemma gives_up_after_every_router_witness :
  is_Some (Some {| is_socket_timeout := true; text := "timed out" |})
  /\ all_unavailable (router_manager FailoverSamples.cnx_two_exhausted).
Proof.
  apply (gives_up_after_every_router RouterSamples.first_of_turn
           ConnectionSamples.always_times_out ConnectionSamples.two_routers
           (snd (__init__ ConnectionSamples.two_routers None)) None
           ConnectionSamples.cnx_two FailoverSamples.cnx_two_exhausted);
    vm_compute; reflexivity.
Defined.

Lemma connect_without_routers_witness :
  exists c s',
    __init__ RouterSamples.no_settings None = (Ok c, s')
    /\ option_map fst (connect RouterSamples.first_of_turn
                         ConnectionSamples.always_times_out c)
       = Some (Raise (TimeoutError
                        ("Connection attempt to the server was aborted. Timeout of "
                         ++ str_opt_int (_connect_timeout c) ++ " ms was exceeded")%string)).
Proof.
  apply (connect_without_routers RouterSamples.first_of_turn
           ConnectionSamples.always_times_out RouterSamples.no_settings None).
  reflexivity.
Defined.

Lemma single_host_connects_once_witness :
  RouterManager.can_failover (router_manager FailoverSamples.cnx_one_after) = false
  /\ connect RouterSamples.first_of_turn ConnectionSamples.always_times_out
       FailoverSamples.cnx_one_after
     = Some (Raise (InterfaceError "Cannot connect to host: None" None),
             FailoverSamples.cnx_one_after).
Proof.
  apply (single_host_connects_once RouterSamples.first_of_turn RouterSamples.first_of_turn
           ConnectionSamples.always_times_out ConnectionSamples.always_times_out
           ConnectionSamples.one_host (snd (__init__ ConnectionSamples.one_host None))
           None "db1" FailoverSamples.cnx_one FailoverSamples.cnx_one_after
           (Raise (TimeoutError
                     "Connection attempt to the server was aborted. Timeout of 10000 ms was exceeded")));
    [reflexivity | reflexivity | discriminate | vm_compute; reflexivity
     | vm_compute; reflexivity].
Defined.

Lemma connect_returns_connected_witness :
  is_open FailoverSamples.cnx_two_connected = true
  /\ protocol FailoverSamples.cnx_two_connected = true
  /\ _routers FailoverSamples.cnx_two_connected = _routers ConnectionSamples.cnx_two
  /\ exists n router,
      FailoverSamples.second_accepts n (Router.get_connection_params router)
        (_connect_timeout ConnectionSamples.cnx_two) = Established
      /\ Router.available router = true
      /\ handed_out (router_manager FailoverSamples.cnx_two_connected) router.
Proof.
  apply (connect_returns_connected RouterSamples.first_of_turn
           FailoverSamples.second_accepts ConnectionSamples.cnx_two
           FailoverSamples.cnx_two_connected).
  vm_compute. reflexivity.
Defined.

End ConnectionFailover.

(** ** ConnectionPool: draining the idle queue *)

Module ConnectionPoolDrain.
Import ConnectionPool.

Lemma list_remove_sublist (c : PooledConnection) (l l' : list PooledConnection) :
  list_remove c l = Some l' -> l' `sublist_of` l /\ S (length l') = length l.
Proof.
  revert l'. induction l as [| x l IH]; intros l' H; [discriminate|].
  cbn [list_remove] in H. destruct (cnx_id x =? cnx_id c)%nat.
  - inversion H; subst. split; [apply sublist_cons, reflexivity | reflexivity].
  - destruct (list_remove c l) as [r|]; [| discriminate].
    inversion H; subst. destruct (IH r eq_refl) as [Hs Hl].
    split; [apply sublist_skip; exact Hs | cbn [length]; lia].
Qed.

(** What the loop of [remove_connections] does on any outcome: it only
    takes connections off the queue and off the tracked list, and
    touches nothing else. *)
Lemma drain_frame (ev : env) (items : list PooledConnection) :
  forall (p p' : t) (r : result unit),
    remove_connections_from ev items p = (r, p') ->
    queue p' `suffix_of` queue p
    /\ _connections_openned p' `sublist_of` _connections_openned p
    /\ maxsize p' = maxsize p /\ pool_max_size p' = pool_max_size p
    /\ _available p' = _available p /\ get_timeout_stamp p' = get_timeout_stamp p.
Proof.
  induction items as [| i items IH]; intros p p' r H; cbn [remove_connections_from] in H.
  - inversion H; subst. repeat split; reflexivity.
  - unfold get in H. destruct (queue_timeout p <? 0).
    + inversion H; subst. repeat split; reflexivity.
    + destruct (queue p) as [| c q] eqn:Eq.
      * apply IH in H. rewrite Eq in H. exact H.
      * unfold remove_connection in H.
        cbn [set_queue _connections_openned] in H.
        destruct (list_remove c (_connections_openned p)) as [l|] eqn:El.
        -- destruct (list_remove_sublist _ _ _ El) as [Hsub _].
           assert (Hstep : forall p2 r2,
                      remove_connections_from ev items (set_openned (set_queue p q) l)
                      = (r2, p2) ->
                      queue p2 `suffix_of` (c :: q)
                      /\ _connections_openned p2 `sublist_of` _connections_openned p
                      /\ maxsize p2 = maxsize p /\ pool_max_size p2 = pool_max_size p
                      /\ _available p2 = _available p
                      /\ get_timeout_stamp p2 = get_timeout_stamp p).
           { intros p2 r2 H2. apply IH in H2.
             destruct H2 as (Hq & Ho & Hm & Hpm & Ha & Ht).
             cbn [set_openned set_queue queue _connections_openned maxsize pool_max_size
                    _available] in Hq, Ho, Hm, Hpm, Ha.
             split; [apply suffix_cons_r; exact Hq|].
             split; [etransitivity; eassumption|]. auto. }
           destruct (close_connection_outcome ev c); eauto.
           inversion H; subst.
           split; [apply suffix_cons_r; reflexivity|].
           split; [exact Hsub|]. repeat split; reflexivity.
        -- inversion H; subst. cbn [set_queue queue _connections_openned maxsize
                                      pool_max_size _available].
           split; [apply suffix_cons_r; reflexivity|]. repeat split; reflexivity.
Qed.

(** A loop that ends normally has emptied the queue, one tracked
    connection going with each queued one. *)
Lemma drain_done (ev : env) (items : list PooledConnection) :
  forall (p p' : t),
    length items = length (queue p) ->
    remove_connections_from ev items p = (Ok tt, p') ->
    queue p' = []
    /\ (length (_connections_openned p') + length items)%nat
       = length (_connections_openned p).
Proof.
  induction items as [| i items IH]; intros p p' Hlen H; cbn [remove_connections_from] in H.
  - inversion H; subst. split; [| cbn; lia].
    destruct (queue p'); [reflexivity | discriminate].
  - unfold get in H. destruct (queue_timeout p <? 0); [discriminate|].
    destruct (queue p) as [| c q] eqn:Eq; [discriminate|].
    unfold remove_connection in H. cbn [set_queue _connections_openned] in H.
    destruct (list_remove c (_connections_openned p)) as [l|] eqn:El; [| discriminate].
    destruct (list_remove_sublist _ _ _ El) as [_ Hl].
    assert (Hrest : remove_connections_from ev items (set_openned (set_queue p q) l)
                    = (Ok tt, p')).
    { destruct (close_connection_outcome ev c); [exact H | exact H | discriminate]. }
    apply IH in Hrest; [| cbn [set_openned set_queue queue]; cbn [length] in Hlen; lia].
    cbn [set_openned set_queue _connections_openned] in Hrest.
    destruct Hrest as [Hq Hc]. split; [exact Hq | cbn [length]; lia].
Qed.

(** X11: when [remove_connections] returns, the idle queue is empty,
    one tracked connection per drained one has left the tracked list,
    whose remaining entries keep their order, and capacity, availability
    and penalty of the pool are as before. *)
Theorem remove_connections_empties_queue (ev : env) (p p' : t) :
  remove_connections ev p = (Ok tt, p') ->
  queue p' = []
  /\ (length (_connections_openned p') + length (queue p))%nat
     = length (_connections_openned p)
  /\ _connections_openned p' `sublist_of` _connections_openned p
  /\ maxsize p' = maxsize p
  /\ _available p' = _available p
  /\ get_timeout_stamp p' = get_timeout_stamp p.
Proof.
  unfold remove_connections. intros H.
  destruct (drain_done ev _ _ _ eq_refl H) as [Hq Hlen].
  destruct (drain_frame ev _ _ _ _ H) as (_ & Hsub & Hm & _ & Ha & Ht).
  auto 10.
Qed.

(** X12: [add_connection] never accepts a connection that is flagged as
    disconnected by the server.  It always raises: the pool-full error
    on a full queue; otherwise the error of [remove_connections] if
    that raises; otherwise, the queue being empty by then,
    [AttributeError] for the [close] method that a pooled connection
    lacks.  The connection is not queued: the queue can only have
    shrunk. *)
Theorem add_disconnected_connection_raises (ev : env) (p : t) (c : PooledConnection) :
  _server_disconnected c = true ->
  exists e p',
    add_connection ev p (Pooled c) = (Raise e, p')
    /\ queue p' `suffix_of` queue p
    /\ maxsize p' = maxsize p
    /\ ((full p = true /\ p' = p
         /\ e = PoolError "Failed adding connection; queue is full")
        \/ (full p = false /\ remove_connections ev p = (Raise e, p'))
        \/ (full p = false /\ remove_connections ev p = (Ok tt, p') /\ queue p' = []
            /\ e = AttributeError "'PooledConnection' object has no attribute 'close'")).
Proof.
  intros Hd. unfold add_connection. cbn [cnx_config_empty].
  destruct (full p) eqn:Ef.
  - eexists _, _. split; [reflexivity|]. split; [reflexivity|]. split; [reflexivity|].
    left. auto.
  - rewrite Hd. destruct (remove_connections ev p) as [[[] | e] p1] eqn:Er.
    + destruct (drain_done ev _ _ _ eq_refl Er) as [Hq _].
      destruct (drain_frame ev _ _ _ _ Er) as (Hs & _ & Hm & _).
      eexists _, _. split; [reflexivity|]. split; [exact Hs|]. split; [exact Hm|].
      right. right. auto.
    + destruct (drain_frame ev _ _ _ _ Er) as (Hs & _ & Hm & _).
      eexists _, _. split; [reflexivity|]. split; [exact Hs|]. split; [exact Hm|].
      right. left. auto.
Qed.

Lemma remove_connections_empties_queue_witness :
  queue DrainSamples.pool_idle_drained = []
  /\ (length (_connections_openned DrainSamples.pool_idle_drained)
      + length (queue DrainSamples.pool_idle))%nat
     = length (_connections_openned DrainSamples.pool_idle)
  /\ _connections_openned DrainSamples.pool_idle_drained
       `sublist_of` _connections_openned DrainSamples.pool_idle
  /\ maxsize DrainSamples.pool_idle_drained = maxsize DrainSamples.pool_idle
  /\ _available DrainSamples.pool_idle_drained = _available DrainSamples.pool_idle
  /\ get_timeout_stamp DrainSamples.pool_idle_drained
     = get_timeout_stamp DrainSamples.pool_idle.
Proof.
  apply (remove_connections_empties_queue PoolSamples.quiet DrainSamples.pool_idle).
  vm_compute. reflexivity.
Defined.

Lemma add_disconnected_connection_raises_witness :
  exists e p',
    add_connection PoolSamples.quiet DrainSamples.pool_idle (Pooled DrainSamples.cnx_lost)
    = (Raise e, p')
    /\ queue p' `suffix_of` queue DrainSamples.pool_idle
    /\ maxsize p' = maxsize DrainSamples.pool_idle
    /\ ((full DrainSamples.pool_idle = true /\ p' = DrainSamples.pool_idle
         /\ e = PoolError "Failed adding connection; queue is full")
        \/ (full DrainSamples.pool_idle = false
            /\ remove_connections PoolSamples.quiet DrainSamples.pool_idle = (Raise e, p'))
        \/ (full DrainSamples.pool_idle = false
            /\ remove_connections PoolSamples.quiet DrainSamples.pool_idle = (Ok tt, p')
            /\ queue p' = []
            /\ e = AttributeError "'PooledConnection' object has no attribute 'close'")).
Proof.
  apply (add_disconnected_connection_raises PoolSamples.quiet DrainSamples.pool_idle
           DrainSamples.cnx_lost).
  reflexivity.
Defined.

End ConnectionPoolDrain.

(** ** PoolsManager: which pool is tried *)

Module PoolChoiceFacts.
Import PoolChoice.
Import Priorities.

Lemma sublist_from_sound (rest : list ConnectionPool.t) (cur : Z) (x : ConnectionPool.t) :
  x ∈ sublist_from rest cur -> x ∈ rest /\ candidate cur x.
Proof.
  induction rest as [| p rest IH]; cbn [sublist_from]; [inversion 1|].
  destruct (Z.eqb_spec cur (ConnectionPool.priority p)) as [Heq | Hne]; cbn [andb negb].
  - destruct (ConnectionPool.available p) eqn:Ha.
    + intros [-> | Hin]%elem_of_cons.
      * split; [apply list_elem_of_here | split; [exact Ha | congruence]].
      * destruct (IH Hin). split; [apply list_elem_of_further; assumption | assumption].
    + intros Hin. destruct (IH Hin). split; [apply list_elem_of_further|]; assumption.
  - inversion 1.
Qed.

Lemma sublist_from_head (p : ConnectionPool.t) (rest : list ConnectionPool.t) (cur : Z) :
  candidate cur p -> sublist_from (p :: rest) cur = p :: sublist_from rest cur.
Proof.
  intros [Ha Hp]. cbn [sublist_from]. rewrite Ha, Hp, Z.eqb_refl. reflexivity.
Qed.

(** Where the [for] loop stops: at the first pool that can be chosen,
    or behind the list. *)
Lemma first_candidate_spec (pools : list ConnectionPool.t) (cur : Z) :
  (first_candidate pools cur <= length pools)%nat
  /\ (forall j x, (j < first_candidate pools cur)%nat -> pools !! j = Some x ->
                  ~ candidate cur x)
  /\ ((first_candidate pools cur < length pools)%nat ->
      exists x, pools !! first_candidate pools cur = Some x /\ candidate cur x).
Proof.
  induction pools as [| p pools (IH1 & IH2 & IH3)]; cbn [first_candidate length].
  - split; [lia|]. split; intros; lia.
  - destruct (ConnectionPool.available p) eqn:Ha; cbn [andb].
    + destruct (Z.eqb_spec cur (ConnectionPool.priority p)) as [Heq | Hne].
      * split; [lia|]. split; [intros; lia|]. intros _. exists p.
        split; [reflexivity | split; [exact Ha | congruence]].
      * split; [lia|]. split.
        -- intros [| j] x Hj Hx; [| apply (IH2 j x); [lia | exact Hx]].
           inversion Hx; subst. intros [_ Hp]. congruence.
        -- intros Hlt. apply IH3. lia.
    + split; [lia|]. split.
      * intros [| j] x Hj Hx; [| apply (IH2 j x); [lia | exact Hx]].
        inversion Hx; subst. intros [Hav _]. congruence.
      * intros Hlt. apply IH3. lia.
Qed.

(** The sublist the [while] loop ends with. *)
Lemma next_sublist (pools : list ConnectionPool.t) (cur : Z) :
  let index := first_candidate pools cur in
  let sub := first_sublist (length pools - index) pools index cur in
  (forall x, x ∈ sub -> x ∈ pools /\ candidate cur x)
  /\ (sub = [] <-> forall x, x ∈ pools -> ~ candidate cur x).
Proof.
  cbv zeta. destruct (first_candidate_spec pools cur) as (Hle & Hbefore & Hat).
  destruct (Nat.eq_dec (first_candidate pools cur) (length pools)) as [Hend | Hin].
  - rewrite Hend, Nat.sub_diag. cbn [first_sublist]. split; [inversion 1|].
    split; [| reflexivity]. intros _ x Hx.
    apply list_elem_of_lookup in Hx as [j Hj].
    apply (Hbefore j x); [| exact Hj]. apply lookup_lt_Some in Hj. lia.
  - destruct Hat as (x & Hx & Hc); [lia|].
    destruct (length pools - first_candidate pools cur)%nat as [| todo] eqn:Et; [lia|].
    cbn [first_sublist]. unfold _get_sublist.
    rewrite (drop_S _ _ _ Hx), (sublist_from_head _ _ _ Hc).
    split.
    + intros y Hy. rewrite <- (sublist_from_head _ _ _ Hc) in Hy.
      apply sublist_from_sound in Hy as [Hy Hcy]. split; [| exact Hcy].
      rewrite <- (drop_S _ _ _ Hx) in Hy.
      apply list_elem_of_lookup in Hy as [j Hj]. rewrite lookup_drop in Hj.
      eapply list_elem_of_lookup_2. exact Hj.
    + split; [discriminate|]. intros Hnone. exfalso.
      apply (Hnone x); [eapply list_elem_of_lookup_2; exact Hx | exact Hc].
Qed.

Section WithRandom.
Variable randint : Z -> Z -> Z.

Lemma random_pool_sound (l : list ConnectionPool.t) :
  (forall x, _get_random_pool randint l = Ok (Some x) -> x ∈ l)
  /\ (_get_random_pool randint l = Ok None <-> l = [])
  /\ (randint_in_range randint -> exists r, _get_random_pool randint l = Ok r).
Proof.
  unfold _get_random_pool. destruct l as [| a [| b l]].
  - split; [discriminate|]. split; [tauto | eauto].
  - split; [intros x [= <-]; apply list_elem_of_here|].
    split; [split; discriminate | eauto].
  - cbv zeta. set (n := length (a :: b :: l)).
    split; [| split].
    + intros x. destruct (RouterManager.py_index _ _) as [y|] eqn:E; [| discriminate].
      intros [= <-]. unfold RouterManager.py_index in E.
      repeat case_match; try discriminate; eapply list_elem_of_lookup_2; exact E.
    + split; [| discriminate]. destruct (RouterManager.py_index _ _); discriminate.
    + intros Hr.
      pose proof (Hr 0 (Z.of_nat n - 1) ltac:(subst n; cbn [length]; lia)) as Hb.
      unfold RouterManager.py_index.
      destruct (Z.leb_spec 0 (randint 0 (Z.of_nat n - 1))); [| lia].
      destruct (lookup_lt_is_Some_2 (a :: b :: l) (Z.to_nat (randint 0 (Z.of_nat n - 1))))
        as [y Hy]; [fold n; lia|].
      rewrite Hy. eauto.
Qed.

(** X13: [_get_next_pool] returns only an available pool of the list
    that has the given priority, and returns [None] exactly when the
    list holds no such pool; it raises nothing when [randint] respects
    its bounds. *)
Theorem next_pool_is_candidate (pools : list ConnectionPool.t) (cur_priority : Z) :
  (forall pool, _get_next_pool randint pools cur_priority = Ok (Some pool) ->
                pool ∈ pools /\ candidate cur_priority pool)
  /\ (_get_next_pool randint pools cur_priority = Ok None <->
      forall pool, pool ∈ pools -> ~ candidate cur_priority pool)
  /\ (randint_in_range randint ->
      exists r, _get_next_pool randint pools cur_priority = Ok r).
Proof.
  unfold _get_next_pool. cbv zeta.
  destruct (next_sublist pools cur_priority) as [Hsound Hnone].
  destruct (random_pool_sound
              (first_sublist (length pools - first_candidate pools cur_priority) pools
                 (first_candidate pools cur_priority) cur_priority))
    as (Hin & Hempty & Hok).
  split; [| split].
  - intros pool H. apply Hsound, Hin, H.
  - rewrite Hempty. exact Hnone.
  - exact Hok.
Qed.

(** A scan raises nothing but [OverflowError], and [get_connection]
    lets it through. *)
Lemma scan_raises_overflow (pools left : list ConnectionPool.t) (revive : option Z)
    (now : Z) (e : exn) :
  PoolsManager._check_unavailable_pools pools revive now = (Raise e, left) ->
  e = OverflowError.
Proof.
  revert left. induction pools as [| pool rest IH]; intros left H; [discriminate|].
  cbn [PoolsManager._check_unavailable_pools] in H.
  destruct (PoolsManager.check_pool revive now pool) as [pool' | e'] eqn:Ec.
  - destruct (PoolsManager._check_unavailable_pools rest revive now) as [r rest'].
    inversion H; subst. eapply IH. reflexivity.
  - inversion H; subst. unfold PoolsManager.check_pool in Ec.
    destruct (ConnectionPool.available pool); [discriminate|].
    destruct (ConnectionPool.get_timeout_stamp pool) as [timeout stamp].
    destruct (PoolsManager.penalty_end _ _) eqn:Ee;
      [destruct (_ <? _); discriminate|].
    inversion Ec; subst. eapply PoolsManagerWindow.penalty_end_raises. exact Ee.
Qed.

(** The scan returns when the penalty of every unavailable pool ends
    at a [datetime]. *)
Lemma scan_returns (pools : list ConnectionPool.t) (now : Z) :
  Forall (fun pool =>
            ConnectionPool.available pool = true
            \/ exists D, PoolsManager.penalty_end (ConnectionPool._timeout_stamp pool)
                           (ConnectionPool._timeout pool) = Ok D) pools ->
  exists scanned, PoolsManager._check_unavailable_pools pools None now = (Ok tt, scanned).
Proof.
  induction 1 as [| pool rest Hp _ [scanned IH]]; [exists []; reflexivity|].
  cbn [PoolsManager._check_unavailable_pools]. rewrite IH.
  unfold PoolsManager.check_pool.
  destruct Hp as [-> | [D HD]]; [eauto|].
  destruct (ConnectionPool.available pool); [eauto|].
  cbn [ConnectionPool.get_timeout_stamp]. rewrite HD.
  destruct (D <? now); eauto.
Qed.

Lemma first_pool_scan_raises (pools left : list ConnectionPool.t)
    (cur_priority : option Z) (now : Z) (e : exn) :
  PoolsManager._check_unavailable_pools pools None now = (Raise e, left) ->
  e = OverflowError /\ first_pool randint pools cur_priority now = Raise OverflowError.
Proof.
  intros H. pose proof (scan_raises_overflow _ _ _ _ _ H) as ->.
  split; [reflexivity|]. unfold first_pool. rewrite H. reflexivity.
Qed.

(** X14: whatever priority was stored by an earlier call, the first
    pool [get_connection] tries is chosen by the first available pool
    of the list: when the scan returns and leaves some pool available
    and [randint] respects its bounds, the priority becomes that of the
    first available pool and the pool tried is an available pool of
    that priority.  A scan that raises ends the call with its
    [OverflowError]. *)
Theorem first_pool_is_available (pools : list ConnectionPool.t) (c0 c1 : Z) (now : Z) :
  randint_in_range randint ->
  first_pool randint pools (Some c0) now = first_pool randint pools (Some c1) now
  /\ (forall scanned,
        PoolsManager._check_unavailable_pools pools None now = (Ok tt, scanned) ->
        (exists pool, pool ∈ scanned /\ ConnectionPool.available pool = true) ->
        exists first pool,
          find ConnectionPool.available scanned = Some first
          /\ first_pool randint pools (Some c0) now
             = Ok (ConnectionPool.priority first, Some pool)
          /\ pool ∈ scanned
          /\ candidate (ConnectionPool.priority first) pool)
  /\ (forall e left,
        PoolsManager._check_unavailable_pools pools None now = (Raise e, left) ->
        e = OverflowError
        /\ first_pool randint pools (Some c0) now = Raise OverflowError).
Proof.
  intros Hr. split; [| split; [| intros e left; apply first_pool_scan_raises]].
  { unfold first_pool.
    destruct (PoolsManager._check_unavailable_pools pools None now) as [[[] | e] scanned];
      reflexivity. }
  intros scanned Hscan (a & Ha & Hav).
  unfold first_pool. rewrite Hscan.
  destruct (find ConnectionPool.available scanned) as [first|] eqn:Ef.
  - apply find_some in Ef as Hfirst. destruct Hfirst as [Hin Hfa].
    exists first.
    assert (Hp : _get_next_priority scanned (Some c0) = Ok (ConnectionPool.priority first))
      by (unfold _get_next_priority; rewrite Ef; reflexivity).
    rewrite Hp. unfold _get_next_pool. cbv zeta.
    destruct (next_sublist scanned (ConnectionPool.priority first)) as [Hsound Hnone].
    destruct (random_pool_sound
                (first_sublist
                   (length scanned
                    - first_candidate scanned (ConnectionPool.priority first))
                   scanned (first_candidate scanned (ConnectionPool.priority first))
                   (ConnectionPool.priority first)))
      as (Hmem & Hempty & Hok).
    destruct (Hok Hr) as [[pool|] Hres].
    + exists pool. rewrite Hres. split; [reflexivity|]. split; [reflexivity|].
      apply Hsound, Hmem, Hres.
    + exfalso. apply Hempty in Hres. apply (proj1 Hnone Hres first).
      * apply list_elem_of_In. exact Hin.
      * split; [exact Hfa | reflexivity].
  - exfalso. apply list_elem_of_In in Ha.
    pose proof (find_none _ _ Ef a Ha) as Hno. congruence.
Qed.

(** X28: when the scan returns and leaves no pool available,
    [get_connection] finds no pool to try, whatever priority was
    stored: the priority becomes that of the first pool of the list and
    the pool is [None]; with no pool at all, [_get_next_priority]
    raises [IndexError].  A scan that raises ends the call with its
    [OverflowError]. *)
Theorem first_pool_none_available (pools : list ConnectionPool.t)
    (cur_priority : option Z) (now : Z) :
  (forall scanned,
      PoolsManager._check_unavailable_pools pools None now = (Ok tt, scanned) ->
      (forall pool, pool ∈ scanned -> ConnectionPool.available pool = false) ->
      first_pool randint pools cur_priority now
      = match scanned with
        | [] => Raise IndexError
        | pool :: _ => Ok (ConnectionPool.priority pool, None)
        end)
  /\ (forall e left,
        PoolsManager._check_unavailable_pools pools None now = (Raise e, left) ->
        e = OverflowError
        /\ first_pool randint pools cur_priority now = Raise OverflowError).
Proof.
  split; [| intros e left; apply first_pool_scan_raises].
  intros scanned Hscan Hnone. unfold first_pool. rewrite Hscan.
  assert (Hfind : find ConnectionPool.available scanned = None).
  { clear -Hnone. induction scanned as [| x l IH]; [reflexivity|].
    cbn [find]. rewrite (Hnone x (list_elem_of_here _ _)).
    apply IH. intros y Hy. apply Hnone. apply list_elem_of_further. exact Hy. }
  assert (Hpool : forall p, _get_next_pool randint scanned p = Ok None).
  { intros p. unfold _get_next_pool. cbv zeta.
    apply (proj1 (proj2 (random_pool_sound _))).
    apply (proj2 (next_sublist scanned p)).
    intros x Hx [Hav _]. rewrite (Hnone x Hx) in Hav. discriminate. }
  unfold _get_next_priority. rewrite Hfind.
  destruct scanned as [| x l]; [destruct cur_priority; reflexivity|].
  destruct cur_priority; rewrite Hpool; reflexivity.
Qed.

End WithRandom.

Lemma next_pool_is_candidate_witness :
  (PoolSamples.pool0 ∈ ChoiceSamples.down_then_up /\ candidate 0 PoolSamples.pool0)
  /\ exists r, _get_next_pool RouterSamples.first_of ChoiceSamples.down_then_up 0 = Ok r.
Proof.
  split.
  - apply (proj1 (next_pool_is_candidate RouterSamples.first_of
                    ChoiceSamples.down_then_up 0) PoolSamples.pool0).
    vm_compute. reflexivity.
  - apply (proj2 (proj2 (next_pool_is_candidate RouterSamples.first_of
                           ChoiceSamples.down_then_up 0))).
    intros lo hi H. unfold RouterSamples.first_of. lia.
Defined.

Lemma first_pool_is_available_witness :
  first_pool RouterSamples.first_of ChoiceSamples.down_then_up (Some 5) 10
  = first_pool RouterSamples.first_of ChoiceSamples.down_then_up (Some 7) 10
  /\ exists first pool,
      find ConnectionPool.available ChoiceSamples.down_then_up = Some first
      /\ first_pool RouterSamples.first_of ChoiceSamples.down_then_up (Some 5) 10
         = Ok (ConnectionPool.priority first, Some pool)
      /\ pool ∈ ChoiceSamples.down_then_up
      /\ candidate (ConnectionPool.priority first) pool.
Proof.
  destruct (first_pool_is_available RouterSamples.first_of ChoiceSamples.down_then_up
              5 7 10) as (Hsame & Hfirst & _).
  - intros lo hi H. unfold RouterSamples.first_of. lia.
  - split; [exact Hsame|].
    apply (Hfirst ChoiceSamples.down_then_up); [reflexivity|].
    exists PoolSamples.pool0. split; [| reflexivity].
    apply list_elem_of_further, list_elem_of_here.
Defined.

Lemma first_pool_none_available_witness :
  first_pool RouterSamples.first_of ChoiceSamples.all_down (Some 5) 10
  = Ok (ConnectionPool.priority ChoiceSamples.pool_down, None).
Proof.
  apply (proj1 (first_pool_none_available RouterSamples.first_of ChoiceSamples.all_down
                  (Some 5) 10) ChoiceSamples.all_down).
  - reflexivity.
  - intros pool Hin.
    apply elem_of_cons in Hin as [-> | Hin]; [reflexivity|].
    apply list_elem_of_singleton in Hin. subst pool. reflexivity.
Defined.

End PoolChoiceFacts.

(** ** Compression negotiation and authentication *)

Module HandshakeFacts.
Import Handshake.

Section Compress.
Variable COMPRESSION_ALGORITHMS : gmap string string.
Variable HAVE_ZSTD : bool.
Variable HAVE_LZ4 : bool.
Variable set_capabilities : string -> option exn.

Lemma mem_elem (item : string) (l : list string) : mem item l = true <-> item ∈ l.
Proof. unfold mem. apply bool_decide_eq_true. Qed.

Lemma settle_spec (compression : Compression) (server : list string)
    (algorithm : option string) :
  let r := settle HAVE_ZSTD HAVE_LZ4 set_capabilities compression server algorithm in
  (forall a, r = Ok (Some a) -> a ∈ server /\ set_capabilities a = None)
  /\ (is_required compression = true -> r <> Ok None)
  /\ (is_required compression = false ->
      forall e, r = Raise e -> exists a, a ∈ server /\ set_capabilities a = Some e).
Proof.
  cbv zeta. unfold settle.
  set (alg := default (default_algorithm HAVE_ZSTD HAVE_LZ4 server) algorithm).
  destruct (mem alg server) eqn:Em; cbn [negb].
  - apply mem_elem in Em.
    destruct (set_capabilities alg) as [e|] eqn:Es.
    + split; [discriminate|]. split; [discriminate|].
      intros _ e' [= <-]. eauto.
    + split; [intros a [= <-]; auto|]. split; [discriminate | discriminate].
  - destruct (is_required compression).
    + split; [discriminate|]. split; [discriminate | discriminate].
    + split; [discriminate|]. split; [discriminate | discriminate].
Qed.

(** X15: what the negotiation can end with.  A returned algorithm is
    one the server offers and has been announced to it; with
    [REQUIRED] the negotiation never ends without an algorithm, it
    raises instead; with another setting the negotiation itself never
    raises, only announcing an algorithm of the server can. *)
Theorem negotiation_outcome (compression_data : option (list (string * list string)))
    (compression : Compression) (algorithms : option (list string)) :
  let r := negotiate COMPRESSION_ALGORITHMS HAVE_ZSTD HAVE_LZ4 set_capabilities
             compression_data compression algorithms in
  (forall a, r = Ok (Some a) ->
             compression <> DISABLED
             /\ exists fld, compression_data = Some fld
                            /\ a ∈ server_algorithms fld
                            /\ set_capabilities a = None)
  /\ (compression = REQUIRED -> r <> Ok None)
  /\ (compression <> REQUIRED ->
      forall e, r = Raise e ->
                exists fld a, compression_data = Some fld
                              /\ a ∈ server_algorithms fld
                              /\ set_capabilities a = Some e).
Proof.
  cbv zeta. unfold negotiate, _set_compression_capabilities.
  destruct compression.
  - split; [discriminate|]. split; [discriminate|]. discriminate.
  - destruct compression_data as [fld|]; cbn [is_required].
    + assert (Hs := fun alg => settle_spec PREFERRED (server_algorithms fld) alg).
      cbv zeta in Hs. cbn [is_required] in Hs.
      destruct algorithms as [[| x algorithms] |].
      * destruct (Hs None) as (H1 & _ & H3).
        split; [intros a Ha; split; [discriminate | eauto] |].
        split; [discriminate|]. intros _ e He. destruct (H3 eq_refl e He) as (a & ? & ?).
        eauto.
      * destruct (matched _ _ _) as [| first rest].
        -- split; [discriminate|]. split; [discriminate | discriminate].
        -- destruct (Hs (COMPRESSION_ALGORITHMS !! first)) as (H1 & _ & H3).
           split; [intros a Ha; split; [discriminate | eauto] |].
           split; [discriminate|]. intros _ e He.
           destruct (H3 eq_refl e He) as (a & ? & ?). eauto.
      * destruct (Hs None) as (H1 & _ & H3).
        split; [intros a Ha; split; [discriminate | eauto] |].
        split; [discriminate|]. intros _ e He. destruct (H3 eq_refl e He) as (a & ? & ?).
        eauto.
    + split; [discriminate|]. split; [discriminate | discriminate].
  - destruct compression_data as [fld|]; cbn [is_required].
    + assert (Hs := fun alg => settle_spec REQUIRED (server_algorithms fld) alg).
      cbv zeta in Hs. cbn [is_required] in Hs.
      destruct algorithms as [[| x algorithms] |].
      * destruct (Hs None) as (H1 & H2 & _).
        split; [intros a Ha; split; [discriminate | eauto] |].
        split; [intros _; exact (H2 eq_refl) | congruence].
      * destruct (matched _ _ _) as [| first rest].
        -- split; [discriminate|]. split; [discriminate | congruence].
        -- destruct (Hs (COMPRESSION_ALGORITHMS !! first)) as (H1 & H2 & _).
           split; [intros a Ha; split; [discriminate | eauto] |].
           split; [intros _; exact (H2 eq_refl) | congruence].
      * destruct (Hs None) as (H1 & H2 & _).
        split; [intros a Ha; split; [discriminate | eauto] |].
        split; [intros _; exact (H2 eq_refl) | congruence].
    + split; [discriminate|]. split; [discriminate | congruence].
Qed.

(** X16: when the table maps every name it yields to itself, the
    requested list decides in its own order: the negotiation settles on
    the first requested algorithm, aliases resolved, that the server
    offers, and returns it unless announcing it raises. *)
Theorem requested_order_decides (fld : list (string * list string))
    (compression : Compression) (algorithms : list string) (first : string)
    (rest : list string) :
  (forall k v, COMPRESSION_ALGORITHMS !! k = Some v -> COMPRESSION_ALGORITHMS !! v = Some v) ->
  compression <> DISABLED ->
  matched COMPRESSION_ALGORITHMS algorithms (server_algorithms fld) = first :: rest ->
  negotiate COMPRESSION_ALGORITHMS HAVE_ZSTD HAVE_LZ4 set_capabilities
    (Some fld) compression (Some algorithms)
  = match set_capabilities first with
    | Some e => Raise e
    | None => Ok (Some first)
    end
  /\ first ∈ server_algorithms fld
  /\ exists item, item ∈ algorithms /\ COMPRESSION_ALGORITHMS !! item = Some first.
Proof.
  intros Hidem Hen Hm.
  assert (Hin : first ∈ matched COMPRESSION_ALGORITHMS algorithms (server_algorithms fld))
    by (rewrite Hm; apply list_elem_of_here).
  unfold matched in Hin. apply list_elem_of_filter in Hin as [Hmem Hcl].
  unfold client_algorithms in Hcl. apply list_elem_of_omap in Hcl as (item & Hitem & Htab).
  assert (Hself : COMPRESSION_ALGORITHMS !! first = Some first) by (eapply Hidem; exact Htab).
  split; [| split; [apply mem_elem; exact Hmem | eauto]].
  assert (Hne : exists x l, algorithms = x :: l).
  { destruct algorithms as [| x l]; [| eauto].
    unfold matched, client_algorithms in Hm. cbn in Hm. discriminate. }
  destruct Hne as (x & l & ->).
  unfold negotiate, _set_compression_capabilities.
  destruct compression; [congruence | |]; cbn [is_required]; cbv iota beta;
    rewrite Hm, Hself; unfold settle; cbn [default from_option id];
    rewrite Hmem; reflexivity.
Qed.

End Compress.

Section Authenticate.
Variable exchange : Auth -> result unit.
Variable str_exn : exn -> string.

(** X17: which methods authentication starts.  [PLAIN] is started
    only on a secure stream, one over TLS or a Unix socket; a method
    named in the settings is the only one started; and without a
    setting an insecure stream gets [MYSQL41] and, only after an
    [InterfaceError] of that one, [SHA256_MEMORY], the call succeeding
    exactly when one of the two does. *)
Theorem authentication_methods (auth : auth_setting) (stream : SocketStream.t) :
  let r := _authenticate exchange str_exn auth stream in
  (PLAIN ∈ snd r -> is_secure stream = true)
  /\ (forall a, auth = Method a -> snd r = [a] \/ (snd r = [] /\ a = PLAIN /\ fst r <> Ok tt))
  /\ (auth = NoAuth -> is_secure stream = false ->
      (snd r = [MYSQL41]
       \/ (snd r = [MYSQL41; SHA256_MEMORY]
           /\ exists m c, exchange MYSQL41 = Raise (InterfaceError m c)))
      /\ (fst r = Ok tt <->
          exchange MYSQL41 = Ok tt
          \/ ((exists m c, exchange MYSQL41 = Raise (InterfaceError m c))
              /\ exchange SHA256_MEMORY = Ok tt))).
Proof.
  cbv zeta. split; [| split].
  - unfold _authenticate, _authenticate_plain, _authenticate_mysql41,
      _authenticate_sha256_memory.
    destruct (is_secure stream) eqn:Es; [reflexivity|]. cbn [negb].
    intros Hin. exfalso.
    destruct auth as [| [| |] |]; cbn [snd] in Hin.
    + destruct (exchange MYSQL41) as [[] | e]; cbn [snd] in Hin.
      * apply list_elem_of_singleton in Hin. discriminate.
      * destruct e; cbn [snd] in Hin;
          try (apply list_elem_of_singleton in Hin; discriminate).
        destruct (exchange SHA256_MEMORY) as [[] | e]; [| destruct e]; cbn [snd app] in Hin;
          apply elem_of_cons in Hin as [Hin | Hin]; try discriminate;
          apply list_elem_of_singleton in Hin; discriminate.
    + inversion Hin.
    + apply list_elem_of_singleton in Hin. discriminate.
    + apply list_elem_of_singleton in Hin. discriminate.
    + inversion Hin.
  - intros a ->. unfold _authenticate, _authenticate_plain, _authenticate_mysql41,
      _authenticate_sha256_memory.
    destruct a; cbn [snd]; auto.
    destruct (is_secure stream); cbn [negb snd fst]; [auto|].
    right. split; [reflexivity|]. split; [reflexivity | discriminate].
  - intros -> Hs. unfold _authenticate, _authenticate_mysql41, _authenticate_sha256_memory.
    rewrite Hs.
    destruct (exchange MYSQL41) as [[] | e] eqn:E41.
    + cbn [fst snd]. split; [auto|]. split; [auto | reflexivity].
    + destruct e; cbn [fst snd];
        try (split; [auto|]; split; [discriminate|];
             intros [H | [(m & c & H) _]]; discriminate).
      destruct (exchange SHA256_MEMORY) as [[] | e'] eqn:E256.
      * cbn [fst snd app]. split; [right; eauto|]. split; [eauto | reflexivity].
      * assert (Hno : ~ (@Raise unit (InterfaceError msg code) = Ok tt
                         \/ (exists m c, @Raise unit (InterfaceError msg code)
                                         = Raise (InterfaceError m c))
                            /\ @Raise unit e' = Ok tt))
          by (intros [H | [_ H]]; discriminate).
        destruct e'; cbn [fst snd app];
          (split; [right; eauto | split; [discriminate | intros H; destruct (Hno H)]]).
Qed.

End Authenticate.

Lemma negotiation_outcome_witness :
  (REQUIRED <> DISABLED
   /\ exists fld, Some HandshakeSamples.deflate_and_lz4 = Some fld
                  /\ "lz4_message" ∈ server_algorithms fld
                  /\ HandshakeSamples.announced "lz4_message" = None)
  /\ negotiate HandshakeSamples.aliases true true HandshakeSamples.announced
       None REQUIRED None <> Ok None.
Proof.
  split.
  - apply (proj1 (negotiation_outcome HandshakeSamples.aliases true true
                    HandshakeSamples.announced (Some HandshakeSamples.deflate_and_lz4)
                    REQUIRED (Some HandshakeSamples.zstd_then_lz4)) "lz4_message").
    vm_compute. reflexivity.
  - apply (proj1 (proj2 (negotiation_outcome HandshakeSamples.aliases true true
                           HandshakeSamples.announced None REQUIRED None))).
    reflexivity.
Defined.

Lemma requested_order_decides_witness :
  negotiate HandshakeSamples.aliases true true HandshakeSamples.announced
    (Some HandshakeSamples.deflate_and_lz4) PREFERRED (Some HandshakeSamples.zstd_then_lz4)
  = match HandshakeSamples.announced "lz4_message" with
    | Some e => Raise e
    | None => Ok (Some "lz4_message")
    end
  /\ "lz4_message" ∈ server_algorithms HandshakeSamples.deflate_and_lz4
  /\ exists item, item ∈ HandshakeSamples.zstd_then_lz4
                  /\ HandshakeSamples.aliases !! item = Some "lz4_message".
Proof.
  apply (requested_order_decides HandshakeSamples.aliases true true
           HandshakeSamples.announced HandshakeSamples.deflate_and_lz4 PREFERRED
           HandshakeSamples.zstd_then_lz4 "lz4_message" []).
  - assert (Hall : map_Forall (fun _ v => HandshakeSamples.aliases !! v = Some v)
                     HandshakeSamples.aliases)
      by (refine (bool_decide_unpack _ _); vm_compute; exact I).
    exact Hall.
  - discriminate.
  - vm_compute. reflexivity.
Defined.
Lemma authentication_methods_witness :
  (snd (_authenticate HandshakeSamples.mysql41_refused HandshakeSamples.str_exn
          NoAuth SocketStream.__init__) = [MYSQL41]
   \/ (snd (_authenticate HandshakeSamples.mysql41_refused HandshakeSamples.str_exn
              NoAuth SocketStream.__init__) = [MYSQL41; SHA256_MEMORY]
       /\ exists m c, HandshakeSamples.mysql41_refused MYSQL41 = Raise (InterfaceError m c)))
  /\ (fst (_authenticate HandshakeSamples.mysql41_refused HandshakeSamples.str_exn
             NoAuth SocketStream.__init__) = Ok tt <->
      HandshakeSamples.mysql41_refused MYSQL41 = Ok tt
      \/ ((exists m c, HandshakeSamples.mysql41_refused MYSQL41 = Raise (InterfaceError m c))
          /\ HandshakeSamples.mysql41_refused SHA256_MEMORY = Ok tt)).
Proof.
  apply (proj2 (proj2 (authentication_methods HandshakeSamples.mysql41_refused
                         HandshakeSamples.str_exn NoAuth SocketStream.__init__)));
    reflexivity.
Defined.

End HandshakeFacts.

(** ** Python's division of ints, and [int] of the float *)

Module TrueDivision.

(** [quotient_log2 n d] is the exponent of the power of two at or
    below [n / d]. *)
Lemma quotient_log2_spec (n d : Z) :
  0 < n -> 0 < d ->
  let k := quotient_log2 n d in
  (0 <= k -> d * 2 ^ k <= n < d * 2 ^ (k + 1))
  /\ (k < 0 -> d <= n * 2 ^ (- k) < 2 * d).
Proof.
  intros Hn Hd. cbv zeta. unfold quotient_log2.
  destruct (Z.log2_spec n Hn) as [HnL HnU].
  destruct (Z.log2_spec d Hd) as [HdL HdU].
  pose proof (Z.log2_nonneg n) as Hla. pose proof (Z.log2_nonneg d) as Hlb.
  rewrite Z.pow_succ_r in HnU, HdU by assumption.
  set (la := Z.log2 n) in *. set (lb := Z.log2 d) in *.
  destruct (Z.leb_spec 0 (la - lb)) as [Hl | Hl].
  - assert (HA : 2 ^ la = 2 ^ lb * 2 ^ (la - lb))
      by (rewrite <- Z.pow_add_r by lia; f_equal; lia).
    assert (Hp : 0 < 2 ^ (la - lb)) by (apply Z.pow_pos_nonneg; lia).
    assert (Hb : 0 < 2 ^ lb) by (apply Z.pow_pos_nonneg; lia).
    destruct (Z.leb_spec (d * 2 ^ (la - lb)) n) as [Ht | Ht].
    + split; [| lia]. intros _. split; [exact Ht|].
      rewrite Z.pow_add_r by lia. change (2 ^ 1) with 2. nia.
    + split.
      * intros Hk. replace (la - lb - 1 + 1) with (la - lb) by lia.
        split; [| exact Ht].
        assert (H2 : 2 ^ (la - lb) = 2 * 2 ^ (la - lb - 1))
          by (rewrite <- Z.pow_succ_r by lia; f_equal; lia).
        assert (0 < 2 ^ (la - lb - 1)) by (apply Z.pow_pos_nonneg; lia).
        nia.
      * intros Hk. assert (la - lb = 0) as E by lia. rewrite E in *.
        change (2 ^ 0) with 1 in *. change (- (0 - 1)) with 1. change (2 ^ 1) with 2.
        nia.
  - assert (HB : 2 ^ lb = 2 ^ la * 2 ^ (- (la - lb)))
      by (rewrite <- Z.pow_add_r by lia; f_equal; lia).
    assert (Hp : 0 < 2 ^ (- (la - lb))) by (apply Z.pow_pos_nonneg; lia).
    assert (Ha : 0 < 2 ^ la) by (apply Z.pow_pos_nonneg; lia).
    destruct (Z.leb_spec d (n * 2 ^ (- (la - lb)))) as [Ht | Ht].
    + split; [lia|]. intros _. split; [exact Ht|]. nia.
    + split; [lia|]. intros _.
      replace (- (la - lb - 1)) with (Z.succ (- (la - lb))) by lia.
      rewrite Z.pow_succ_r by lia. nia.
Qed.

Lemma round_half_even_bounds (n d : Z) :
  0 < d -> n / d <= round_half_even n d <= n / d + 1.
Proof.
  intros Hd. unfold round_half_even.
  destruct (2 * (n mod d) ?= d); [destruct (Z.even _) | |]; lia.
Qed.

(** The rounded quotient is within a half of the quotient. *)
Lemma round_half_even_near (n d : Z) :
  0 < d -> 2 * n - d <= 2 * d * round_half_even n d <= 2 * n + d.
Proof.
  intros Hd. unfold round_half_even.
  pose proof (Z.div_mod n d ltac:(lia)) as Hdm.
  pose proof (Z.mod_pos_bound n d Hd) as Hm.
  destruct (Z.compare_spec (2 * (n mod d)) d); [destruct (Z.even _) | |]; nia.
Qed.

(** Above an odd [q], the quotient rounds up from the half on. *)
Lemma round_half_even_up (n d q : Z) :
  0 < d -> Z.even q = false -> d * q <= n < d * (q + 1) ->
  (q + 1 <= round_half_even n d <-> d * (2 * q + 1) <= 2 * n).
Proof.
  intros Hd Hodd Hq.
  assert (Hdiv : n / d = q).
  { symmetry. apply (Z.div_unique_pos n d q (n - d * q)); lia. }
  assert (Hmod : n mod d = n - d * q).
  { pose proof (Z.div_mod n d ltac:(lia)) as H. rewrite Hdiv in H. lia. }
  unfold round_half_even. rewrite Hdiv, Hmod, Hodd.
  destruct (Z.compare_spec (2 * (n - d * q)) d); lia.
Qed.

(** The division raises exactly from [d * (2 ^ 1024 - 2 ^ 970)] on. *)
Lemma int_truediv_overflow (n d : Z) :
  0 < n -> 0 < d ->
  (int_truediv n d = Raise OverflowError <-> d * (2 ^ 1024 - 2 ^ 970) <= n)
  /\ (forall e, int_truediv n d = Raise e -> e = OverflowError).
Proof.
  intros Hn Hd. split; [| unfold int_truediv; cbv zeta; intros e;
                          destruct (_ && _); [intros [= <-]; reflexivity | discriminate]].
  unfold int_truediv.
  destruct (quotient_log2_spec n d Hn Hd) as [Hpos Hneg].
  set (k := quotient_log2 n d) in *.
  assert (P970 : 0 < 2 ^ 970) by (apply Z.pow_pos_nonneg; lia).
  assert (E1024 : 2 ^ 1024 = 2 ^ 54 * 2 ^ 970) by (rewrite <- Z.pow_add_r by lia; reflexivity).
  assert (E971 : 2 ^ 971 = 2 * 2 ^ 970) by (rewrite <- Z.pow_succ_r by lia; reflexivity).
  destruct (Z.leb_spec 0 (Z.max (k - 52) (-1074))) as [He | He].
  2:{ cbn [andb]. split; [discriminate|]. intros Hlim. exfalso.
      assert (k < 52) by lia.
      destruct (Z.lt_ge_cases k 0) as [Hk | Hk].
      - specialize (Hneg Hk). assert (0 < 2 ^ (- k)) by (apply Z.pow_pos_nonneg; lia).
        change (2 ^ 54) with 18014398509481984 in E1024.
        assert (4 <= 2 ^ 1024 - 2 ^ 970) by lia. nia.
      - specialize (Hpos Hk).
        assert (2 ^ (k + 1) <= 2 ^ 52) by (apply Z.pow_le_mono_r; lia).
        change (2 ^ 54) with 18014398509481984 in E1024.
        change (2 ^ 52) with 4503599627370496 in *. nia. }
  assert (Hk : 52 <= k) by lia.
  replace (Z.max (k - 52) (-1074)) with (k - 52) by lia.
  specialize (Hpos ltac:(lia)). clear Hneg.
  set (e := k - 52) in *.
  assert (Pe : 0 < 2 ^ e) by (apply Z.pow_pos_nonneg; lia).
  assert (Ek : 2 ^ k = 2 ^ 52 * 2 ^ e) by (rewrite <- Z.pow_add_r by lia; f_equal; lia).
  assert (Ek1 : 2 ^ (k + 1) = 2 ^ 53 * 2 ^ e) by (rewrite <- Z.pow_add_r by lia; f_equal; lia).
  rewrite Ek, Ek1 in Hpos.
  pose proof (round_half_even_bounds n (d * 2 ^ e) ltac:(nia)) as [Hlo Hhi].
  assert (Hq : 2 ^ 52 <= n / (d * 2 ^ e) < 2 ^ 53).
  { split.
    - apply Z.div_le_lower_bound; nia.
    - apply Z.div_lt_upper_bound; nia. }
  set (m := round_half_even n (d * 2 ^ e)) in *.
  cbn [andb].
  destruct (Z.leb_spec (2 ^ 1024) (m * 2 ^ e)) as [Hov | Hov]; split;
    try discriminate; try reflexivity.
  - (* the division raises: the limit is reached *)
    intros _.
    destruct (Z.lt_ge_cases e 971) as [Hlt | Hge].
    + exfalso. assert (2 ^ e <= 2 ^ 970) by (apply Z.pow_le_mono_r; lia).
      change (2 ^ 54) with 18014398509481984 in E1024.
      change (2 ^ 53) with 9007199254740992 in *. nia.
    + destruct (Z.eq_dec e 971) as [-> | Hne].
      * rewrite E1024 in Hov. rewrite E971 in Hov.
        assert (Hm : 2 ^ 53 - 1 + 1 <= m).
        { change (2 ^ 54) with (2 * 2 ^ 53) in Hov. nia. }
        subst m.
        apply (round_half_even_up n (d * 2 ^ 971) (2 ^ 53 - 1)) in Hm.
        -- rewrite E1024. rewrite E971 in Hm.
           change (2 * (2 ^ 53 - 1) + 1) with (2 ^ 54 - 1) in Hm. nia.
        -- nia.
        -- reflexivity.
        -- split.
           ++ transitivity (d * 2 ^ 971 * (n / (d * 2 ^ 971))).
              ** apply Z.mul_le_mono_nonneg_l; [nia|].
                 assert (2 ^ 53 <= n / (d * 2 ^ 971) + 1) by lia. lia.
              ** apply Z.mul_div_le. nia.
           ++ replace (2 ^ 53 - 1 + 1) with (2 ^ 53) by lia. nia.
      * assert (2 ^ 972 <= 2 ^ e) by (apply Z.pow_le_mono_r; lia).
        assert (E972 : 2 ^ 972 = 4 * 2 ^ 970)
          by (change 4 with (2 ^ 2); rewrite <- Z.pow_add_r by lia; reflexivity).
        change (2 ^ 52) with 4503599627370496 in *.
        change (2 ^ 54) with 18014398509481984 in E1024. nia.
  - (* the division returns: the limit is not reached *)
    intros Hlim. exfalso.
    destruct (Z.lt_ge_cases e 971) as [Hlt | Hge].
    + assert (2 ^ e <= 2 ^ 970) by (apply Z.pow_le_mono_r; lia).
      change (2 ^ 54) with 18014398509481984 in E1024.
      change (2 ^ 53) with 9007199254740992 in *. nia.
    + destruct (Z.eq_dec e 971) as [-> | Hne].
      * assert (Hm : 2 ^ 53 - 1 + 1 <= m).
        { subst m. apply (round_half_even_up n (d * 2 ^ 971) (2 ^ 53 - 1)).
          - nia.
          - reflexivity.
          - split.
            + change (2 ^ 52) with 4503599627370496 in *.
              change (2 ^ 53) with 9007199254740992 in *.
              change (2 ^ 54) with 18014398509481984 in *. nia.
            + replace (2 ^ 53 - 1 + 1) with (2 ^ 53) by lia. nia.
          - rewrite E971. rewrite E1024 in Hlim.
            change (2 * (2 ^ 53 - 1) + 1) with (2 ^ 54 - 1). nia. }
        rewrite E1024, E971 in Hov. change (2 ^ 54) with (2 * 2 ^ 53) in Hov. nia.
      * assert (2 ^ 972 <= 2 ^ e) by (apply Z.pow_le_mono_r; lia).
        assert (E972 : 2 ^ 972 = 4 * 2 ^ 970)
          by (change 4 with (2 ^ 2); rewrite <- Z.pow_add_r by lia; reflexivity).
        change (2 ^ 52) with 4503599627370496 in *.
        change (2 ^ 54) with 18014398509481984 in E1024. nia.
Qed.

(** Below [2 ^ 44] seconds, [int(n / 1000)] is the whole seconds. *)
Lemma int_truediv_small (n : Z) :
  0 < n < 1000 * 2 ^ 44 ->
  exists x, int_truediv n 1000 = Ok x /\ int_of_float x = n / 1000.
Proof.
  intros [Hn Hlt]. unfold int_truediv.
  destruct (quotient_log2_spec n 1000 Hn ltac:(lia)) as [Hpos _].
  set (k := quotient_log2 n 1000) in *.
  assert (Hk : k < 44).
  { destruct (Z.lt_ge_cases k 44) as [H | H]; [exact H | exfalso].
    specialize (Hpos ltac:(lia)).
    assert (2 ^ 44 <= 2 ^ k) by (apply Z.pow_le_mono_r; lia). lia. }
  set (e := Z.max (k - 52) (-1074)) in *.
  assert (He : e <= -9) by lia.
  destruct (Z.leb_spec 0 e) as [H0 | _]; [lia|]. cbn [andb].
  eexists. split; [reflexivity|].
  unfold int_of_float. cbn [mantissa exponent].
  destruct (Z.leb_spec 0 e) as [H0 | _]; [lia|].
  assert (HE : 2 ^ 9 <= 2 ^ (- e)) by (apply Z.pow_le_mono_r; lia).
  change (2 ^ 9) with 512 in HE.
  set (E := 2 ^ (- e)) in *.
  pose proof (round_half_even_near (n * E) 1000 ltac:(lia)) as [Hlo Hhi].
  set (m := round_half_even (n * E) 1000) in *.
  pose proof (Z.div_mod n 1000 ltac:(lia)) as Hdm.
  pose proof (Z.mod_pos_bound n 1000 ltac:(lia)) as Hm.
  symmetry. apply (Z.div_unique_pos m E (n / 1000) (m - E * (n / 1000))); nia.
Qed.

End TrueDivision.

(** ** Client: which options are accepted, and the timeouts they set *)

Module ClientOptionsFacts.
Import Client.
Import ClientOptions.


Lemma float_limit_pos : exact_limit < float_limit.
Proof.
  unfold float_limit, exact_limit.
  assert (2 ^ 970 < 2 ^ 1024) by (apply Z.pow_lt_mono_r; lia).
  assert (2 ^ 44 < 2 ^ 970) by (apply Z.pow_lt_mono_r; lia).
  assert (E : 2 ^ 1024 = 2 ^ 54 * 2 ^ 970) by (rewrite <- Z.pow_add_r by lia; reflexivity).
  change (2 ^ 54) with 18014398509481984 in E. lia.
Qed.

(** The two setters of a time in milliseconds: what they accept, what
    they store and what they raise. *)
Lemma time_option_spec (f : value -> result (Z * Z)) (v : value) :
  f = _set_max_idle_time \/ f = _set_queue_timeout ->
  (forall n s, f v = Ok (n, s) ->
               v = VInt n /\ 0 <= n < float_limit
               /\ (n = 0 -> s = 2147483)
               /\ (0 < n < exact_limit -> s = n / 1000))
  /\ (milliseconds v -> exists n s, f v = Ok (n, s))
  /\ (forall e, f v = Raise e ->
                ((exists m, e = AttributeError m) /\ ~ non_negative_int v)
                \/ (e = OverflowError /\ beyond_float v)).
Proof.
  pose proof float_limit_pos as Hlim. unfold exact_limit in Hlim.
  assert (Hex : 0 < 1000 * 2 ^ 44) by (change (2 ^ 44) with 17592186044416; lia).
  assert (Hbody : forall c n,
             0 <= n ->
             let r := if n =? 0 then Ok (n, c)
                      else match int_truediv n 1000 with
                           | Raise e => Raise e
                           | Ok seconds => Ok (n, int_of_float seconds)
                           end in
             (forall m s, r = Ok (m, s) ->
                          m = n /\ n < float_limit
                          /\ (n = 0 -> s = c)
                          /\ (0 < n < exact_limit -> s = n / 1000))
             /\ (n < float_limit -> exists s, r = Ok (n, s))
             /\ (forall e, r = Raise e -> e = OverflowError /\ float_limit <= n)).
  { intros c n Hn. cbv zeta.
    destruct (Z.eqb_spec n 0) as [-> | Hne].
    - split; [| split; [eauto | discriminate]].
      intros m s [= <- <-]. split; [reflexivity|]. split; [lia|].
      split; [reflexivity | lia].
    - destruct (TrueDivision.int_truediv_overflow n 1000 ltac:(lia) ltac:(lia))
        as [Hover Honly].
      fold float_limit in Hover.
      destruct (int_truediv n 1000) as [x | e] eqn:Ed.
      + assert (Hlt : n < float_limit).
        { destruct (Z.lt_ge_cases n float_limit) as [H | H]; [exact H|].
          apply Hover in H. discriminate H. }
        split; [| split; [eauto | discriminate]].
        intros m s [= <- <-]. split; [reflexivity|]. split; [exact Hlt|].
        split; [lia|]. intros Hsmall.
        destruct (TrueDivision.int_truediv_small n Hsmall) as (y & Hy & Hval).
        rewrite Ed in Hy. injection Hy as <-. exact Hval.
      + pose proof (Honly e eq_refl) as ->.
        split; [discriminate|]. split.
        * intros Hlt. pose proof (proj1 Hover eq_refl). lia.
        * intros e [= <-]. split; [reflexivity|]. exact (proj1 Hover eq_refl). }
  intros [-> | ->]; unfold _set_max_idle_time, _set_queue_timeout, non_negative_int,
                      milliseconds, beyond_float;
    (destruct v as [b | n | r]; cbn [isinstance_bool isinstance_int as_int orb negb];
     [ split; [discriminate|]; split; [intros (n & H & _); discriminate|];
       intros e [= <-]; left; split; [eauto | intros (n & H & _); discriminate]
     | destruct (Z.ltb_spec (-1) n) as [Hpos | Hneg]; cbn [negb];
       [ match goal with
         | |- context [if n =? 0 then Ok (n, ?c) else _] =>
             destruct (Hbody c n ltac:(lia)) as (B1 & B2 & B3)
         end;
         split; [intros m s Hr; destruct (B1 m s Hr) as (-> & H1 & H2 & H3);
                 split; [reflexivity|]; split; [lia|]; split; [exact H2 | exact H3]|];
         split; [intros (m & [= <-] & H); destruct (B2 ltac:(lia)) as [s Hs]; eauto|];
         intros e Hr; right; destruct (B3 e Hr) as [-> H]; split; [reflexivity | eauto]
       | split; [discriminate|]; split; [intros (m & [= <-] & H); lia|];
         intros e [= <-]; left; split; [eauto | intros (m & [= <-] & H); lia] ]
     | split; [discriminate|]; split; [intros (n & H & _); discriminate|];
       intros e [= <-]; left; split; [eauto | intros (n & H & _); discriminate] ]).
Qed.




(** X19: the timeouts an accepted client leaves in the settings.  A
    [max_idle_time] or [queue_timeout] of zero is stored as 2147483
    seconds; a [connect-timeout] of the settings is kept and a missing
    one becomes the [queue_timeout].  So a client built without
    [connect-timeout] and without [queue_timeout] hands its connections
    a connect timeout of zero, which [Connection] turns into no timeout
    at all instead of the default of 10000 ms. *)
Theorem client_timeouts (connect_timeout : option Z) (options_dict : gmap string value)
    (cl : t) :
  __init__ connect_timeout options_dict = Ok cl ->
  (Client.max_idle_time cl = 0 -> settings_max_idle_time cl = 2147483)
  /\ (Client.queue_timeout cl = 0 -> settings_queue_timeout cl = 2147483)
  /\ settings_connect_timeout cl = default (Client.queue_timeout cl) connect_timeout
  /\ (connect_timeout = None -> options_dict !! "queue_timeout" = None ->
      forall s s' owner c,
        Settings.connect_timeout s = Some (settings_connect_timeout cl) ->
        Connection.__init__ s owner = (Ok c, s') ->
        Connection._connect_timeout c = None).
Proof.
  unfold __init__. intros H.
  destruct (_set_pool_size _) as [size | e1]; [| discriminate].
  destruct (time_option_spec _set_max_idle_time
              (default (VInt 0) (options_dict !! "max_idle_time"))
              (or_introl eq_refl)) as (I1 & _ & _).
  destruct (time_option_spec _set_queue_timeout
              (default (VInt 0) (options_dict !! "queue_timeout"))
              (or_intror eq_refl)) as (Q1 & _ & _).
  destruct (_set_max_idle_time _) as [[idle s_idle] | e2]; [| discriminate].
  destruct (_set_queue_timeout _) as [[qt s_qt] | e3]; [| discriminate].
  destruct (_set_pool_enabled _) as [en | e4]; [| discriminate].
  inversion H; subst cl; clear H.
  cbn [Client.max_idle_time Client.queue_timeout settings_max_idle_time
         settings_queue_timeout settings_connect_timeout].
  destruct (I1 idle s_idle eq_refl) as (_ & _ & Hi0 & _).
  destruct (Q1 qt s_qt eq_refl) as (Hq & _ & Hq0 & _).
  split; [exact Hi0|]. split; [exact Hq0|]. split; [reflexivity|].
  intros -> Hno s s' owner c Hct Hinit.
  rewrite Hno in Hq. cbn [default from_option id] in Hq, Hct.
  injection Hq as Hq. subst qt.
  unfold Connection.__init__ in Hinit.
  destruct (RouterManager.__init__ _ _) as [[rm | e] routers']; [| inversion Hinit].
  inversion Hinit; subst c. cbn [Connection._connect_timeout].
  rewrite Hct. reflexivity.
Qed.

(** A time of 10 ** 400 milliseconds is an int that is not negative,
    and the client raises [OverflowError] on it. *)
Lemma huge_time_overflows :
  non_negative_int (ClientOptions.max_idle_time ClientSamples.idle_huge)
  /\ __init__ None ClientSamples.idle_huge = Raise OverflowError.
Proof.
  split; [| vm_compute; reflexivity].
  exists (10 ^ 400). split; [reflexivity|]. apply Z.pow_nonneg. lia.
Qed.

(** From 2 ** 44 seconds on the float no longer holds the
    milliseconds: one millisecond short of 2 ** 45 seconds is stored as
    2 ** 45 seconds. *)
Lemma seconds_rounded_up :
  option_map settings_max_idle_time
    (match __init__ None ClientSamples.idle_rounded with
     | Ok cl => Some cl
     | Raise _ => None
     end)
  = Some 35184372088832
  /\ 35184372088831999 / 1000 = 35184372088831.
Proof. split; vm_compute; reflexivity. Qed.


Lemma client_timeouts_witness :
  (Client.max_idle_time ClientSamples.client_three = 0 ->
   settings_max_idle_time ClientSamples.client_three = 2147483)
  /\ (Client.queue_timeout ClientSamples.client_three = 0 ->
      settings_queue_timeout ClientSamples.client_three = 2147483)
  /\ settings_connect_timeout ClientSamples.client_three
     = default (Client.queue_timeout ClientSamples.client_three) None
  /\ (@None Z = None -> ClientSamples.size_three !! "queue_timeout" = None ->
      forall s s' owner c,
        Settings.connect_timeout s
        = Some (settings_connect_timeout ClientSamples.client_three) ->
        Connection.__init__ s owner = (Ok c, s') ->
        Connection._connect_timeout c = None).
Proof.
  apply (client_timeouts None ClientSamples.size_three ClientSamples.client_three).
  vm_compute. reflexivity.
Defined.

End ClientOptionsFacts.

(** ** The pipeline: what every call keeps *)

Module PipelineKept.
Import Pipeline.
Import PipelineState.

Section Kept.
Variable reply : list msg -> msg -> option exn.
Variable fetch_error : list msg -> option exn.
Variable prepared_id : Statement.t -> option Z.
Variable repeated : Statement.t -> bool.

Lemma kept_refl {A : Type} (w : world) (a : A) :
  registered w -> kept reply fetch_error w (Ok a) w.
Proof. intros H. split; [exact H|]. split; [auto|]. split; [discriminate | reflexivity]. Qed.

Lemma keeps_bind {A B : Type} (m : M A) (k : A -> M B) :
  keeps reply fetch_error m ->
  (forall a, keeps reply fetch_error (k a)) ->
  keeps reply fetch_error (bind m k).
Proof.
  intros Hm Hk w r w' Hreg H. unfold bind in H.
  destruct (m w) as [[a | e] w1] eqn:Em.
  - destruct (Hm _ _ _ Hreg Em) as (R1 & F1 & _ & P1).
    destruct (Hk a _ _ _ R1 H) as (R2 & F2 & E2 & P2).
    split; [exact R2|]. split; [auto|]. split; [exact E2 | etransitivity; eassumption].
  - inversion H; subst. destruct (Hm _ _ _ Hreg Em) as (R1 & F1 & E1 & P1).
    split; [exact R1|]. split; [exact F1|]. split; [| exact P1].
    intros e' [= <-]. apply E1. reflexivity.
Qed.

Lemma keeps_ret {A : Type} (a : A) : keeps reply fetch_error (ret a).
Proof. intros w r w' Hreg [= <- <-]. apply kept_refl, Hreg. Qed.

Lemma keeps_get_stmt : keeps reply fetch_error get_stmt.
Proof. intros w r w' Hreg [= <- <-]. apply kept_refl, Hreg. Qed.

Lemma keeps_supported : keeps reply fetch_error supported.
Proof. intros w r w' Hreg [= <- <-]. apply kept_refl, Hreg. Qed.

Lemma keeps_send (m : msg) : keeps reply fetch_error (send reply m).
Proof.
  intros w r w' Hreg H. unfold send in H.
  destruct (reply (sent w) m) as [e|] eqn:Er; inversion H; subst; clear H.
  - split; [exact Hreg|]. split; [auto|]. split; [| reflexivity].
    intros e' [= <-]. left. eauto.
  - split; [exact Hreg|]. split; [auto|]. split; [discriminate|].
    cbn [sent]. apply prefix_app_r. reflexivity.
Qed.

Lemma keeps_fetch : keeps reply fetch_error (fetch_active_result fetch_error).
Proof.
  intros w r w' Hreg H. unfold fetch_active_result in H.
  destruct (fetch_error (sent w)) as [e|] eqn:Er; inversion H; subst; clear H.
  - split; [exact Hreg|]. split; [auto|]. split; [| reflexivity].
    intros e' [= <-]. right. eauto.
  - apply kept_refl, Hreg.
Qed.

(** An update of the statement that leaves its id and its prepared
    flag alone. *)
Lemma keeps_update_stmt (f : Statement.t -> Statement.t) :
  (forall s, Statement.prepared (f s) = Statement.prepared s
             /\ Statement.stmt_id (f s) = Statement.stmt_id s) ->
  keeps reply fetch_error (update_stmt f).
Proof.
  intros Hf w r w' Hreg [= <- <-].
  split; [| split; [auto | split; [discriminate | reflexivity]]].
  unfold registered. cbn [stmt cnx]. destruct (Hf (stmt w)) as [-> ->]. exact Hreg.
Qed.

Lemma keeps_send_prepare_execute : keeps reply fetch_error (send_prepare_execute reply).
Proof.
  unfold send_prepare_execute. apply keeps_bind; [apply keeps_get_stmt|].
  intros s. apply keeps_send.
Qed.

Lemma remove_id_elem (i : option Z) (l : list (option Z)) :
  i ∈ l -> is_Some (remove_id i l).
Proof.
  induction l as [| x l IH]; [inversion 1|]. cbn [remove_id].
  destruct (bool_decide (x = i)) eqn:E; [eauto|].
  apply bool_decide_eq_false in E.
  intros [-> | Hin]%elem_of_cons; [congruence|].
  destruct (IH Hin) as [r ->]. eauto.
Qed.

Lemma keeps_deallocate : keeps reply fetch_error (_deallocate_statement reply).
Proof.
  intros w r w' Hreg H. unfold _deallocate_statement, bind, get_stmt, get_cnx in H.
  destruct (Statement.prepared (stmt w)) eqn:Ep.
  - unfold send in H. destruct (reply (sent w) _) as [e|] eqn:Er.
    + inversion H; subst; clear H.
      split; [exact Hreg|]. split; [auto|]. split; [| reflexivity].
      intros e' [= <-]. left. eauto.
    + cbn [cnx stmt sent] in H.
      destruct (remove_id_elem _ _ (Hreg Ep)) as [ids Hids]. rewrite Hids in H.
      inversion H; subst; clear H.
      split; [intros Hp; cbn in Hp; discriminate|].
      split; [auto|]. split; [discriminate|].
      cbn [sent]. apply prefix_app_r. reflexivity.
  - inversion H; subst. apply kept_refl, Hreg.
Qed.

Lemma keeps_prepare : keeps reply fetch_error (_prepare_statement reply fetch_error prepared_id).
Proof.
  intros w r w' Hreg H.
  unfold _prepare_statement, except_not_supported, fetch_active_result,
    send_prepare_prepare, send, bind, ret, update_cnx, update_stmt, get_stmt in H.
  destruct (fetch_error (sent w)) as [e|] eqn:Ef.
  - assert (He : from_protocol reply fetch_error e) by (right; eauto).
    destruct e; inversion H; subst; clear H;
      try (split; [exact Hreg|]; split; [auto|]; split; [| reflexivity];
           intros e' [= <-]; exact He).
    split; [exact Hreg|]. split; [intros Hf; cbn in Hf; discriminate|].
    split; [discriminate | reflexivity].
  - destruct (reply (sent w) PreparePrepare) as [e|] eqn:Er.
    + assert (He : from_protocol reply fetch_error e) by (left; eauto).
      destruct e; inversion H; subst; clear H;
        try (split; [exact Hreg|]; split; [auto|]; split; [| reflexivity];
             intros e' [= <-]; exact He).
      split; [exact Hreg|]. split; [intros Hf; cbn in Hf; discriminate|].
      split; [discriminate | reflexivity].
    + inversion H; subst; clear H.
      split; [| split; [auto | split; [discriminate|]]].
      * intros _. cbn. apply elem_of_app. right. apply list_elem_of_here.
      * cbn [sent]. apply prefix_app_r. reflexivity.
Qed.

Lemma keeps_reset_increment :
  keeps reply fetch_error (bind reset (fun _ => increment)).
Proof.
  apply keeps_bind; [| intros _]; apply keeps_update_stmt; intros s; auto.
Qed.

(** X20: every call of the pipeline, whatever its outcome, keeps the
    id of a prepared statement among the prepared ids of the
    connection, never switches prepared-statement support back on, only
    adds to the messages sent, and raises only what the protocol
    raised: with the id registered, the removal of the id in
    [_deallocate_statement] cannot fail. *)
Theorem pipeline_keeps_registered (w w' : world) (r : result unit) :
  registered w ->
  _execute_prepared_pipeline reply fetch_error prepared_id repeated w = (r, w') ->
  registered w'
  /\ (flag w' = true -> flag w = true)
  /\ (forall e, r = Raise e -> from_protocol reply fetch_error e)
  /\ sent w `prefix_of` sent w'.
Proof.
  intros Hreg H.
  assert (Hk : keeps reply fetch_error
                 (_execute_prepared_pipeline reply fetch_error prepared_id repeated)).
  { unfold _execute_prepared_pipeline.
    apply keeps_bind; [apply keeps_supported|]. intros ps.
    destruct (negb ps); [apply keeps_send|].
    apply keeps_bind; [apply keeps_get_stmt|]. intros s.
    assert (Hone : keeps reply fetch_error (bind (_deallocate_statement reply)
                            (fun _ => bind (send reply MsgWithoutPs)
                               (fun _ => bind (update_stmt
                                                (fun s => Statement.set_changed s false))
                                  (fun _ => bind reset (fun _ => increment)))))).
    { apply keeps_bind; [apply keeps_deallocate|]. intros _.
      apply keeps_bind; [apply keeps_send|]. intros _.
      apply keeps_bind; [apply keeps_update_stmt; intros; auto|]. intros _.
      apply keeps_reset_increment. }
    destruct (Statement.deallocate_prepare_execute s).
    { apply keeps_bind; [apply keeps_deallocate|]. intros _.
      apply keeps_bind; [apply keeps_prepare|]. intros _.
      apply keeps_bind; [apply keeps_supported|]. intros ps'.
      destruct (negb ps'); [apply keeps_send|].
      apply keeps_bind; [apply keeps_send_prepare_execute|]. intros _.
      apply keeps_bind; [apply keeps_update_stmt; intros; auto|]. intros _.
      apply keeps_reset_increment. }
    destruct (Statement.prepared s && negb (Statement.changed s)).
    { apply keeps_bind; [apply keeps_send_prepare_execute|]. intros _.
      apply keeps_update_stmt; intros; auto. }
    destruct (Statement.changed s && negb (repeated s)); [exact Hone|].
    destruct (negb (Statement.changed s) && negb (repeated s)).
    { apply keeps_bind.
      - destruct (negb (Statement.prepared s)); [apply keeps_prepare | apply keeps_ret].
      - intros _. apply keeps_bind; [apply keeps_supported|]. intros ps'.
        destruct (negb ps'); [apply keeps_send|].
        apply keeps_bind; [apply keeps_send_prepare_execute|]. intros _.
        apply keeps_update_stmt; intros; auto. }
    destruct (Statement.changed s && repeated s); [exact Hone|].
    apply keeps_update_stmt; intros; auto. }
  exact (Hk w r w' Hreg H).
Qed.

End Kept.

Lemma pipeline_keeps_registered_witness :
  registered PathSamples.w_fresh_after
  /\ (flag PathSamples.w_fresh_after = true -> flag PipelineSamples.w_fresh = true)
  /\ (forall e, @Ok unit tt = Raise e ->
                from_protocol PipelineSamples.accept_all PipelineSamples.nothing_to_fetch e)
  /\ sent PipelineSamples.w_fresh `prefix_of` sent PathSamples.w_fresh_after.
Proof.
  apply (pipeline_keeps_registered PipelineSamples.accept_all
           PipelineSamples.nothing_to_fetch PipelineSamples.id_seven
           PipelineSamples.repeated_when_one PipelineSamples.w_fresh
           PathSamples.w_fresh_after (Ok tt)).
  - intros H. vm_compute in H. discriminate.
  - vm_compute. reflexivity.
Defined.

End PipelineKept.

(** ** The pipeline: the paths that drop or replace a prepared statement *)

Module PipelinePaths.
Import Pipeline.
Import PipelineState.

Section Paths.
Variable reply : list msg -> msg -> option exn.
Variable fetch_error : list msg -> option exn.
Variable prepared_id : Statement.t -> option Z.
Variable repeated : Statement.t -> bool.




(** [_prepare_statement] when the prepare is rejected: only the
    support flag changes. *)
Lemma prepare_rejected_run (w0 : world) :
  prepare_rejected reply fetch_error (sent w0) ->
  _prepare_statement reply fetch_error prepared_id w0
  = (Ok tt,
     {| cnx := Connection.set_prepared (cnx w0)
                 (Connection._prepared_stmt_ids (cnx w0)) false;
        stmt := stmt w0; sent := sent w0 |}).
Proof.
  intros Hrej.
  unfold _prepare_statement, except_not_supported, fetch_active_result,
    send_prepare_prepare, send, bind, ret, update_cnx, update_stmt, get_stmt, get_cnx.
  destruct Hrej as [Hf | [Hf Hp]].
  - rewrite Hf. reflexivity.
  - rewrite Hf. cbn [sent cnx stmt]. rewrite Hp. reflexivity.
Qed.

(** With the support flag off the call is the one-shot message. *)
Lemma unsupported_goes_one_shot (w1 : world) :
  flag w1 = false ->
  _execute_prepared_pipeline reply fetch_error prepared_id repeated w1
  = match reply (sent w1) MsgWithoutPs with
    | Some e => (Raise e, w1)
    | None => (Ok tt, {| cnx := cnx w1; stmt := stmt w1;
                         sent := (sent w1 ++ [MsgWithoutPs])%list |})
    end.
Proof.
  intros Hoff. unfold flag in Hoff.
  unfold _execute_prepared_pipeline, bind, supported, get_cnx, ret.
  cbn. rewrite Hoff. cbn. unfold send.
  destruct (reply (sent w1) MsgWithoutPs); reflexivity.
Qed.

(** The world in which [_prepare_statement] is called, [w0], against
    the world at entry. *)
Lemma before_prepare (w w0 : world) :
  reaches_prepare repeated (stmt w) = true ->
  (if Statement.deallocate_prepare_execute (stmt w)
   then _deallocate_statement reply w else (Ok tt, w)) = (Ok tt, w0) ->
  sent w0 = (sent w ++ deallocation (stmt w))%list
  /\ stmt w0 = (if Statement.prepared (stmt w) then unprepared (stmt w) else stmt w)
  /\ Connection._prepared_stmt_ids (cnx w0)
     = ids_without (stmt w) (Connection._prepared_stmt_ids (cnx w)).
Proof.
  unfold reaches_prepare, deallocation, ids_without. intros Hreach Hd.
  destruct (Statement.deallocate_prepare_execute (stmt w)) eqn:Edpe.
  - unfold _deallocate_statement, bind, get_stmt, get_cnx, send, update_cnx,
      update_stmt, raise, ret in Hd.
    destruct (Statement.prepared (stmt w)) eqn:Ep.
    + destruct (reply (sent w) _); [discriminate|]. cbn [cnx stmt sent] in Hd.
      destruct (remove_id _ _) as [ids|]; [| discriminate].
      inversion Hd; subst w0; clear Hd. cbn. auto.
    + inversion Hd; subst w0; clear Hd. rewrite app_nil_r. auto.
  - cbn [orb] in Hreach. inversion Hd; subst w0; clear Hd.
    destruct (Statement.prepared (stmt w)); [discriminate|].
    rewrite app_nil_r. auto.
Qed.

(** X23: whenever a call gets to the prepare - the statement is flagged
    for deallocate-prepare-execute, and its prepared version, if any,
    has been deallocated, or the statement is neither prepared, changed
    nor repeated - and the prepare is rejected with
    [NotSupportedError], raised by fetching the active result or by the
    prepare message, the call switches prepared-statement support off
    and sends the statement as a one-shot message: it returns when that
    message is accepted and raises the protocol's error otherwise.  The
    prepare itself leaves the statement and the prepared ids as the
    deallocation left them, so the counter and the
    deallocate-prepare-execute flag are those at entry, and without a
    deallocation the statement and the ids are untouched.  From then
    on every call only sends the one-shot message, or fails on sending
    it. *)
Theorem rejected_prepare_switches_off (w w0 : world) :
  flag w = true ->
  reaches_prepare repeated (stmt w) = true ->
  (if Statement.deallocate_prepare_execute (stmt w)
   then _deallocate_statement reply w else (Ok tt, w)) = (Ok tt, w0) ->
  prepare_rejected reply fetch_error (sent w0) ->
  (sent w0 = (sent w ++ deallocation (stmt w))%list
   /\ stmt w0 = (if Statement.prepared (stmt w) then unprepared (stmt w) else stmt w)
   /\ Connection._prepared_stmt_ids (cnx w0)
      = ids_without (stmt w) (Connection._prepared_stmt_ids (cnx w)))
  /\ (exists r w',
        _execute_prepared_pipeline reply fetch_error prepared_id repeated w = (r, w')
        /\ flag w' = false
        /\ stmt w' = stmt w0
        /\ Connection._prepared_stmt_ids (cnx w') = Connection._prepared_stmt_ids (cnx w0)
        /\ Statement.exec_counter (stmt w') = Statement.exec_counter (stmt w)
        /\ Statement.deallocate_prepare_execute (stmt w')
           = Statement.deallocate_prepare_execute (stmt w)
        /\ (r, sent w')
           = match reply (sent w0) MsgWithoutPs with
             | Some e => (Raise e, sent w0)
             | None => (Ok tt, (sent w0 ++ [MsgWithoutPs])%list)
             end)
  /\ (Statement.prepared (stmt w) = false ->
      stmt w0 = stmt w
      /\ Connection._prepared_stmt_ids (cnx w0) = Connection._prepared_stmt_ids (cnx w))
  /\ forall w1, flag w1 = false ->
       _execute_prepared_pipeline reply fetch_error prepared_id repeated w1
       = match reply (sent w1) MsgWithoutPs with
         | Some e => (Raise e, w1)
         | None => (Ok tt, {| cnx := cnx w1; stmt := stmt w1;
                              sent := (sent w1 ++ [MsgWithoutPs])%list |})
         end.
Proof.
  intros Hflag Hreach Hd Hrej.
  pose proof (before_prepare w w0 Hreach Hd) as (Hsent & Hstmt & Hids).
  split; [auto|]. split; [| split; [| exact unsupported_goes_one_shot]].
  - pose proof (prepare_rejected_run w0 Hrej) as Hp.
    assert (Hrun :
              _execute_prepared_pipeline reply fetch_error prepared_id repeated w
              = send reply MsgWithoutPs
                  {| cnx := Connection.set_prepared (cnx w0)
                              (Connection._prepared_stmt_ids (cnx w0)) false;
                     stmt := stmt w0; sent := sent w0 |}).
    { unfold _execute_prepared_pipeline.
      unfold bind at 1. unfold supported, bind at 1, get_cnx, ret.
      unfold flag in Hflag. rewrite Hflag. cbn [negb].
      unfold bind at 1. unfold get_stmt.
      unfold reaches_prepare in Hreach.
      destruct (Statement.deallocate_prepare_execute (stmt w)) eqn:Edpe.
      - unfold bind at 1. rewrite Hd. unfold bind at 1. rewrite Hp.
        unfold bind, get_cnx, ret. reflexivity.
      - cbn [orb] in Hreach. inversion Hd; subst w0; clear Hd.
        destruct (Statement.prepared (stmt w)); [discriminate|].
        destruct (Statement.changed (stmt w)); [discriminate|].
        destruct (repeated (stmt w)); [discriminate|].
        cbn [andb negb]. unfold bind at 1. rewrite Hp.
        unfold bind, get_cnx, ret. reflexivity. }
    assert (Hcount : Statement.exec_counter (stmt w0) = Statement.exec_counter (stmt w)
                     /\ Statement.deallocate_prepare_execute (stmt w0)
                        = Statement.deallocate_prepare_execute (stmt w)).
    { rewrite Hstmt. destruct (Statement.prepared (stmt w)); auto. }
    rewrite Hrun. unfold send. cbn [sent cnx stmt].
    destruct (reply (sent w0) MsgWithoutPs) as [e|];
      eexists; eexists; (split; [reflexivity|]); cbn [sent cnx stmt]; unfold flag;
      cbn [cnx Connection.set_prepared Connection._prepared_stmt_supported
             Connection._prepared_stmt_ids];
      destruct Hcount; auto 10.
  - intros Hprep. rewrite Hstmt, Hids. unfold ids_without. rewrite Hprep. auto.
Qed.

End Paths.



Lemma rejected_prepare_switches_off_witness :
  (sent PathSamples.w_deallocated = [PrepareDeallocate (Some 3)]
   /\ stmt PathSamples.w_deallocated = unprepared PathSamples.flagged_stmt
   /\ Connection._prepared_stmt_ids (cnx PathSamples.w_deallocated) = [])
  /\ exists r w',
      _execute_prepared_pipeline PathSamples.rejecting PipelineSamples.nothing_to_fetch
        PipelineSamples.id_seven PipelineSamples.repeated_when_one PathSamples.w_flagged
      = (r, w')
      /\ flag w' = false
      /\ r = Ok tt
      /\ sent w' = [PrepareDeallocate (Some 3); MsgWithoutPs]
      /\ Statement.exec_counter (stmt w') = 3
      /\ Statement.deallocate_prepare_execute (stmt w') = true.
Proof.
  destruct (rejected_prepare_switches_off PathSamples.rejecting
              PipelineSamples.nothing_to_fetch PipelineSamples.id_seven
              PipelineSamples.repeated_when_one PathSamples.w_flagged
              PathSamples.w_deallocated)
    as (H0 & (r & w' & Hrun & Hoff & _ & _ & Hc & Hd & Hout) & _).
  - reflexivity.
  - reflexivity.
  - reflexivity.
  - right. split; reflexivity.
  - change ((r, sent w') = (Ok tt, [PrepareDeallocate (Some 3); MsgWithoutPs])) in Hout.
    injection Hout as Hr Hs.
    split; [exact H0|]. exists r, w'.
    split; [exact Hrun|]. split; [exact Hoff|]. split; [exact Hr|].
    split; [exact Hs|]. split; [exact Hc | exact Hd].
Defined.

End PipelinePaths.

(** ** Session.__init__: DNS SRV without pooling *)

Module SessionInitFacts.
Import SessionInit.
Import Priorities.

Lemma host_given_host (s : Settings.t) :
  host_given s = true -> exists h, Settings.host s = Some h /\ h <> "".
Proof.
  unfold host_given. destruct (Settings.host s) as [h|]; [| discriminate].
  destruct (String.eqb_spec h ""); [discriminate | eauto].
Qed.

Lemma srv_routers_have_priority (l : list srv) :
  existsb (fun r => 100 <? srv_priority r) l = false ->
  Forall (fun r => too_high r = false /\ unset r = false) (map srv_router l).
Proof.
  induction l as [| r l IH]; intros H; [constructor|].
  cbn [existsb] in H. apply orb_false_iff in H as [Hr Hl].
  cbn [map]. constructor; [| apply IH; exact Hl].
  unfold too_high, unset, srv_router. cbn. auto.
Qed.

Lemma srv_routers_too_high (l : list srv) (x : Router.params) :
  existsb (fun r => 100 <? srv_priority r) l = true ->
  existsb too_high (map srv_router l ++ [x])%list = true.
Proof.
  induction l as [| r l IH]; intros H; [discriminate|].
  cbn [existsb] in H. cbn [map app existsb].
  apply orb_true_iff in H as [Hr | Hl].
  - unfold too_high at 1. cbn. rewrite Hr. reflexivity.
  - rewrite (IH Hl). apply orb_true_r.
Qed.

(** X26: with pooling off, a session asked to resolve its host by DNS
    SRV gets no connection once the query returns a record: the
    constructor of [Connection] finds the host entry without priority
    next to the records, which carry one, and raises
    [ProgrammingError] 4000, or 4007 when a record has a priority above
    100. *)
Theorem dns_srv_records_are_rejected (s : Settings.t) (srv_records : list srv) :
  host_given s = true ->
  srv_records <> [] ->
  fst (connection_for s true (Records srv_records))
  = Raise (if existsb (fun r => 100 <? srv_priority r) srv_records then
             ProgrammingError "The priorities must be between 0 and 100" 4007
           else
             ProgrammingError
               "You must either assign no priority to any of the routers or give a priority for every router"
               4000).
Proof.
  intros Hhost Hne. destruct (host_given_host s Hhost) as (h & Hh & Hnh).
  unfold connection_for. rewrite Hhost. cbn [andb].
  set (s1 := Settings.set_routers s (map srv_router srv_records)).
  destruct (existsb (fun r => 100 <? srv_priority r) srv_records) eqn:Eh.
  - unfold Connection.__init__.
    rewrite (ConnectionInit.initial_routers_host s1 (map srv_router srv_records) h
               eq_refl Hh Hnh).
    pose proof (RouterManagerInit.default_priorities_too_high _ 0
                  (srv_routers_too_high srv_records
                     {| Router.host := h; Router.port := Settings.port s1;
                        Router.socket := None; Router.priority := None;
                        Router.p_available := None |} Eh)) as Hd.
    unfold RouterManager.__init__.
    destruct (RouterManager.default_priorities _ 0) as [r1 res]. cbn [snd] in Hd.
    subst res. reflexivity.
  - rewrite (ConnectionInit.host_after_priorities s1 None (map srv_router srv_records) h
               eq_refl Hh Hnh).
    + reflexivity.
    + destruct srv_records; [congruence | discriminate].
    + apply srv_routers_have_priority. exact Eh.
Qed.

Lemma dns_srv_records_are_rejected_witness :
  fst (connection_for ConnectionSamples.one_host true (Records SrvSamples.two_records))
  = Raise (if existsb (fun r => 100 <? srv_priority r) SrvSamples.two_records then
             ProgrammingError "The priorities must be between 0 and 100" 4007
           else
             ProgrammingError
               "You must either assign no priority to any of the routers or give a priority for every router"
               4000).
Proof.
  apply (dns_srv_records_are_rejected ConnectionSamples.one_host SrvSamples.two_records);
    [reflexivity | discriminate].
Defined.

End SessionInitFacts.

(** ** Connection.connect: failover never runs dry on a new connection *)

Module ConnectionRobust.
Import Connection.
Import Priorities.
Import Failover.

Lemma count_filter_imap (l : list Router.t) :
  forall g : nat -> Router.t -> nat * Router.t,
    (forall i x, snd (g i x) = x) ->
    length (filter (fun ir : nat * Router.t => Router.available (snd ir) = true) (imap g l))
    = RouterManager.count_available l.
Proof.
  unfold RouterManager.count_available.
  induction l as [| x l IH]; intros g Hg; [reflexivity|].
  cbn [imap]. rewrite !filter_cons. rewrite Hg.
  destruct (decide (Router.available x = true)); cbn [length];
    rewrite (IH (g ∘ S)) by (intros; apply Hg); reflexivity.
Qed.

Lemma count_pos_existsb (l : list Router.t) :
  (0 < RouterManager.count_available l)%nat -> existsb Router.available l = true.
Proof.
  unfold RouterManager.count_available.
  induction l as [| x l IH]; [cbn; lia|].
  rewrite filter_cons. cbn [existsb].
  destruct (decide (Router.available x = true)) as [Hx | Hx].
  - rewrite Hx. reflexivity.
  - intros H. rewrite (IH H). apply orb_true_r.
Qed.

Lemma untouched_available (l : list Router.t) :
  Forall (fun r => Router.available r = true) l -> l <> [] ->
  existsb Router.available l = true.
Proof.
  intros Hall Hne. destruct Hall as [| x l Hx _]; [congruence|].
  cbn [existsb]. rewrite Hx. reflexivity.
Qed.

Lemma rsu_tier_other (rm : RouterManager.t) (prio p : Z) (pos : nat) :
  p <> prio ->
  tier (RouterManager.router_set_unavailable rm (RouterManager.InDirectory prio pos)) p
  = tier rm p.
Proof.
  intros Hne. unfold tier. cbn [RouterManager.router_set_unavailable].
  destruct (RouterManager._routers_directory rm !! prio) as [l|]; [| reflexivity].
  destruct (l !! pos); [| reflexivity].
  cbn [RouterManager.set_directory RouterManager._routers_directory].
  rewrite lookup_insert_ne by congruence. reflexivity.
Qed.

Lemma rsu_tier_same (rm : RouterManager.t) (prio : Z) (pos : nat) (l : list Router.t)
    (r : Router.t) :
  RouterManager._routers_directory rm !! prio = Some l -> l !! pos = Some r ->
  RouterManager._routers_directory
    (RouterManager.router_set_unavailable rm (RouterManager.InDirectory prio pos)) !! prio
  = Some (<[pos := Router.set_unavailable r]> l).
Proof.
  intros Hl Hpos. cbn [RouterManager.router_set_unavailable]. rewrite Hl, Hpos.
  cbn [RouterManager.set_directory RouterManager._routers_directory].
  apply lookup_insert_eq.
Qed.

(** What the constructor hands to [connect]. *)
Lemma fresh_ready (routers : list Router.params) (st : Settings.t) (rm : RouterManager.t) :
  fst (RouterManager.__init__ routers st) = Ok rm ->
  none_preset_unavailable routers ->
  RouterManager._routers rm <> [] ->
  ready rm.
Proof.
  intros H Hpre Hne.
  destruct (RouterManagerOrder.init_ok_shape _ _ _ H) as (Hr & Hg & Hi & Hc).
  pose proof (RouterManagerOrder.group_fold_grouped
                (RouterManager._routers rm) ∅ [] []) as Hf.
  unfold RouterManager.group in Hg. rewrite <- Hg in Hf. cbn [fst snd app] in Hf.
  destruct Hf as (Hsorted & Hkeys & Htiers & Hshape).
  { split; [constructor|]. split; [| split].
    - intros p. rewrite lookup_empty. split; [intros [? ?]; discriminate | inversion 1].
    - reflexivity.
    - intros p l. rewrite lookup_empty. discriminate. }
  { rewrite Hr. apply RouterManagerOrder.sort_desc_sorted. }
  { intros p r Hp. inversion Hp. }
  assert (Havail : forall x, x ∈ RouterManager._routers rm ->
                             Router.available (Router.__init__ x) = true).
  { intros x Hx. rewrite Hr, (RouterManagerOrder.sort_desc_perm _) in Hx.
    unfold defaulted in Hx. apply list_elem_of_fmap in Hx as (y & -> & Hy).
    unfold none_preset_unavailable in Hpre. rewrite Forall_forall in Hpre.
    specialize (Hpre y Hy).
    unfold Router.available, Router.__init__. cbn [Router.r_available].
    destruct (unset y); cbn [Router.set_priority Router.p_available];
      destruct (Router.p_available y) as [[|]|]; cbn; congruence. }
  assert (Htier : forall p, p ∈ RouterManager.routers_priority_list rm ->
                            exists l, RouterManager._routers_directory rm !! p = Some l
                                      /\ l <> []
                                      /\ Forall (fun r => Router.available r = true) l).
  { intros p Hp. destruct (proj2 (Hkeys p) Hp) as [l Hl]. exists l.
    split; [exact Hl|]. split; [exact (proj1 (Hshape p l Hl))|].
    apply Forall_forall. intros r Hin.
    assert (Hmem : r ∈ tiers_of (RouterManager._routers_directory rm)
                         (RouterManager.routers_priority_list rm)).
    { unfold tiers_of. apply list_elem_of_In, in_flat_map. exists p.
      split; [apply list_elem_of_In; exact Hp|].
      rewrite Hl. cbn [default from_option id]. apply list_elem_of_In. exact Hin. }
    rewrite Htiers in Hmem. apply list_elem_of_fmap in Hmem as (x & -> & Hx).
    apply Havail. exact Hx. }
  assert (Hpl : RouterManager.routers_priority_list rm <> []).
  { intros Hnil. rewrite Hnil in Htiers. cbn in Htiers.
    destruct (RouterManager._routers rm); [congruence | discriminate]. }
  split; [| split; [| split; [| split]]].
  - clear -Hsorted. induction Hsorted as [| a l _ IH Hall]; constructor; [| exact IH].
    intros Hin. rewrite Forall_forall in Hall. specialize (Hall a Hin). lia.
  - intros p Hp. destruct (Htier p Hp) as (l & Hl & Hn & _). eauto.
  - rewrite Hi. destruct (RouterManager.routers_priority_list rm); [congruence | cbn; lia].
  - intros i p _ Hp. unfold tier_untouched, tier.
    destruct (Htier p (list_elem_of_lookup_2 _ _ _ Hp)) as (l & -> & _ & Hall).
    exact Hall.
  - intros _. left. rewrite Hi.
    destruct (RouterManager.routers_priority_list rm) as [| p pl] eqn:Epl; [congruence|].
    exists p. split; [reflexivity|].
    destruct (Htier p ltac:(apply list_elem_of_here)) as (l & Hl & Hn & Hall).
    unfold tier_available, tier. rewrite Hl. cbn [default from_option id].
    apply untouched_available; assumption.
Qed.

Section Robust.
Variable randint : Z -> Z -> Z.
Hypothesis in_range : randint_in_range randint.

(** With failover on, a ready manager hands out a router. *)
Lemma ready_next_some (rm : RouterManager.t) :
  ready rm -> RouterManager._can_failover rm = true ->
  RouterManager._routers rm <> [] ->
  exists ref router rm1,
    RouterManager.get_next_router randint rm = Some (Ok (Some (ref, router)), rm1).
Proof.
  intros (Hnd & Hin & Hlt & Hun & Hgo) Hcf Hne.
  assert (Hc : directory_complete rm).
  { intros p Hp. destruct (Hin p Hp) as (l & Hl & _). rewrite Hl. eauto. }
  destruct (RouterManagerSelection.next_router_ok randint rm Hc in_range Hlt)
    as ([[ref router]|] & rm1 & Hg); [eauto|].
  exfalso.
  pose proof (RouterManagerSelection.next_router_none randint rm rm1 Hne Hg) as Hnone.
  destruct (Hgo Hcf) as [(p & Hp & Hav) | Hnext].
  - rewrite (Hnone _ p (Nat.le_refl _) Hp) in Hav. discriminate.
  - destruct (lookup_lt_is_Some_2 _ _ Hnext) as [p Hp].
    pose proof (Hnone (S (RouterManager._cur_priority_idx rm)) p ltac:(lia) Hp) as Hoff.
    pose proof (Hun (S (RouterManager._cur_priority_idx rm)) p ltac:(lia) Hp) as Hall.
    destruct (Hin p (list_elem_of_lookup_2 _ _ _ Hp)) as (l & Hl & Hn).
    unfold tier_untouched, tier_available, tier in *. rewrite Hl in *.
    cbn [default from_option id] in *.
    rewrite (untouched_available l Hall Hn) in Hoff. discriminate.
Qed.

(** A failed turn leaves a manager that is ready, if failover is still
    on. *)
Lemma failed_turn_ready (rm rm1 : RouterManager.t) (ref : RouterManager.router_ref)
    (router : Router.t) :
  ready rm ->
  RouterManager._routers rm <> [] ->
  RouterManager.get_next_router randint rm = Some (Ok (Some (ref, router)), rm1) ->
  ready (RouterManager.router_set_unavailable rm1 ref)
  /\ RouterManager._routers (RouterManager.router_set_unavailable rm1 ref) <> [].
Proof.
  intros (Hnd & Hin & Hlt & Hun & Hgo) Hne Hg.
  destruct (RouterManagerFacts.get_next_router_sound randint _ _ _ _ Hne Hg)
    as (prio & pos & l & -> & Hd & Hp & Hr & _ & Hlk & Hl & Hmem & Hcf1).
  pose proof (RouterManagerSelection.next_router_index randint _ _ _ _ Hne Hg) as Hidx.
  destruct (ConnectionFailover.rsu_frame rm1 (RouterManager.InDirectory prio pos))
    as (Hpl2 & Hidx2 & Hcf2 & Hrs2).
  destruct (RouterManagerFacts.available_routers_elem _ _ _ _ _ Hl Hmem) as [Hde Hav].
  unfold RouterManager.deref in Hde.
  destruct (RouterManager._routers_directory rm !! prio) as [l0|] eqn:El0; [| discriminate].
  assert (El1 : RouterManager._routers_directory rm1 !! prio = Some l0)
    by (rewrite Hd; exact El0).
  pose proof (rsu_tier_same rm1 prio pos l0 router El1 Hde) as Hnew.
  assert (Hother : forall p, p <> prio ->
                             RouterManager._routers_directory
                               (RouterManager.router_set_unavailable rm1
                                  (RouterManager.InDirectory prio pos)) !! p
                             = RouterManager._routers_directory rm !! p).
  { intros p Hpne. cbn [RouterManager.router_set_unavailable]. rewrite El1, Hde.
    cbn [RouterManager.set_directory RouterManager._routers_directory].
    rewrite lookup_insert_ne by congruence. rewrite Hd. reflexivity. }
  split; [| rewrite Hrs2, Hr; exact Hne].
  split; [| split; [| split; [| split]]].
  - rewrite Hpl2, Hp. exact Hnd.
  - intros p Hpin. rewrite Hpl2, Hp in Hpin.
    destruct (decide (p = prio)) as [-> | Hpne].
    + rewrite Hnew. eexists. split; [reflexivity|].
      intros Hnil. apply (f_equal length) in Hnil. rewrite length_insert in Hnil.
      apply lookup_lt_Some in Hde. cbn in Hnil. lia.
    + rewrite (Hother p Hpne). apply Hin. exact Hpin.
  - rewrite Hidx2, Hpl2, Hp. eapply lookup_lt_Some. exact Hlk.
  - intros i p Hi Hpi. rewrite Hidx2 in Hi. rewrite Hpl2, Hp in Hpi.
    assert (Hpne : p <> prio).
    { intros ->. pose proof (NoDup_lookup _ _ _ _ Hnd Hpi Hlk). lia. }
    unfold tier_untouched, tier. rewrite (Hother p Hpne).
    apply (Hun i p); [lia | exact Hpi].
  - rewrite Hcf2, Hcf1, Hidx2, Hpl2, Hp. intros Hon.
    destruct (Nat.lt_ge_cases (S (RouterManager._cur_priority_idx rm1))
                (length (RouterManager.routers_priority_list rm))) as [Hmore | Hlast];
      [right; exact Hmore|].
    left. exists prio. split; [exact Hlk|].
    assert (Hi1 : (RouterManager._cur_priority_idx rm1
                   < length (RouterManager.routers_priority_list rm))%nat)
      by (eapply lookup_lt_Some; exact Hlk).
    assert (Heq : (Z.of_nat (RouterManager._cur_priority_idx rm1)
                   =? RouterManager.plen rm - 1) = true)
      by (apply Z.eqb_eq; unfold RouterManager.plen; lia).
    rewrite Heq in Hon. cbn [andb] in Hon.
    destruct (Nat.ltb_spec (length l) 2) as [Hshort | Hlong].
    { destruct (RouterManager._can_failover rm); discriminate. }
    unfold tier_available, tier. rewrite Hnew. cbn [default from_option id].
    apply count_pos_existsb.
    pose proof (ConnectionConnect.count_available_set_unavailable l0 pos router Hde Hav)
      as Hcount.
    assert (Hlen : length l = RouterManager.count_available l0).
    { unfold RouterManager._get_available_routers in Hl. rewrite El0 in Hl.
      inversion Hl; subst l. apply count_filter_imap. reflexivity. }
    lia.
Qed.

End Robust.

Section Connect.
Variable rng : nat -> Z -> Z -> Z.
Variable net : nat -> Router.connection_params -> option Z -> attempt.
Hypothesis rng_in_range : forall n, randint_in_range (rng n).

(** From a ready manager the loop is left with an uncaught error only
    when an attempt raised one. *)
Lemma loop_uncaught_is_aborted (fuel : nat) :
  forall (n : nat) (c c' : t) (error : option transport_error) (e : exn),
    (RouterManager._can_failover (router_manager c) = true ->
     RouterManager._routers (router_manager c) = [] \/ ready (router_manager c)) ->
    connect_loop rng net fuel n c error = Some (Uncaught e, c') ->
    exists n' p sc, net n' p (_connect_timeout c) = Aborted e sc.
Proof.
  induction fuel as [| fuel IH]; intros n c c' error e Hpre H; cbn [connect_loop] in H;
    unfold RouterManager.can_failover in H;
    destruct (RouterManager._can_failover (router_manager c)) eqn:Ecf; cbn [negb] in H;
    try discriminate.
  specialize (Hpre eq_refl).
  assert (Hstep : forall ref router rm1 err sc,
             RouterManager.get_next_router (rng n) (router_manager c)
             = Some (Ok (Some (ref, router)), rm1) ->
             (RouterManager._can_failover (RouterManager.router_set_unavailable rm1 ref)
              = true ->
              RouterManager._routers (RouterManager.router_set_unavailable rm1 ref) = []
              \/ ready (RouterManager.router_set_unavailable rm1 ref)) ->
             connect_loop rng net fuel (S n)
               (set_router_manager (after_attempt (set_router_manager c rm1) sc)
                  (RouterManager.router_set_unavailable
                     (router_manager (after_attempt (set_router_manager c rm1) sc)) ref))
               (Some err)
             = Some (Uncaught e, c') ->
             exists n' p sc', net n' p (_connect_timeout c) = Aborted e sc').
  { intros ref router rm1 err sc Hg Hnext Hl. apply IH in Hl.
    - destruct Hl as (n' & p & sc' & Hn). exists n', p, sc'.
      cbn [set_router_manager _connect_timeout] in Hn.
      rewrite (proj1 (proj2 (ConnectionConnect.after_attempt_frame _ sc))) in Hn.
      exact Hn.
    - cbn [set_router_manager router_manager].
      rewrite ConnectionFailover.after_attempt_manager.
      cbn [set_router_manager router_manager]. exact Hnext. }
  destruct (RouterManager._routers (router_manager c)) as [| x xs] eqn:Ers.
  - unfold RouterManager.get_next_router in H. rewrite Ers in H.
    match type of H with
    | context [net n ?p ?t] => destruct (net n p t) as [| err sc | e0 sc] eqn:En
    end; try discriminate.
    + apply IH in H; [| cbn [set_router_manager router_manager];
                        rewrite ConnectionFailover.after_attempt_manager;
                        cbn; discriminate].
      destruct H as (n' & p & sc' & Hn). exists n', p, sc'.
      cbn [set_router_manager _connect_timeout] in Hn.
      rewrite (proj1 (proj2 (ConnectionConnect.after_attempt_frame _ sc))) in Hn.
      exact Hn.
    + inversion H; subst. eauto.
  - destruct Hpre as [Hnil | Hready]; [discriminate|].
    assert (Hne : RouterManager._routers (router_manager c) <> [])
      by (rewrite Ers; discriminate).
    destruct (ready_next_some (rng n) (rng_in_range n) _ Hready Ecf Hne)
      as (ref & router & rm1 & Hg).
    rewrite Hg in H.
    destruct (net n _ _) as [| err sc | e0 sc] eqn:En; try discriminate.
    + eapply Hstep; [exact Hg | | exact H].
      intros _. right.
      exact (proj1 (failed_turn_ready (rng n) _ _ _ _ Hready Hne Hg)).
    + inversion H; subst. eauto.
Qed.

(** X27: on a connection that has just been built, with no router
    configured as unavailable and [randint] within its bounds,
    [connect] ends in one of three ways: it returns, it raises the
    error that an attempt raised beyond the ones [connect] catches, or
    it raises the error that reports the exhausted routers, some failed
    attempt being stored.  The router manager never raises and never
    runs out of routers while failover is on. *)
Theorem new_connection_outcomes (s s' : Settings.t) (owner : option string)
    (c c' : t) (r : result unit) :
  __init__ s owner = (Ok c, s') ->
  none_preset_unavailable (initial_routers s) ->
  connect rng net c = Some (r, c') ->
  r = Ok tt
  \/ (exists n p sc e, net n p (_connect_timeout c) = Aborted e sc /\ r = Raise e)
  \/ (exists error, is_Some error /\ r = Raise (connect_failure c' error)).
Proof.
  intros Hinit Hpre Hconn.
  destruct (ConnectionFailover.built_manager _ _ _ _ Hinit) as (Hrm & _ & _).
  destruct (ConnectionFailover.fresh_manager _ _ _ Hrm) as (Hcov & Hcf & _).
  unfold connect, connect_attempts in Hconn.
  destruct (connect_loop rng net (connect_fuel c) 0 c None) as [[ex c1]|] eqn:El;
    [| discriminate].
  destruct ex as [| error | e]; inversion Hconn; subst; clear Hconn.
  - left. reflexivity.
  - right. right. exists error. split; [| reflexivity].
    exact (proj1 (ConnectionFailover.loop_gives_up rng net _ _ _ _ _ _ Hcov
                    (or_introl Hcf) El)).
  - right. left.
    assert (Hstart : RouterManager._can_failover (router_manager c) = true ->
                     RouterManager._routers (router_manager c) = []
                     \/ ready (router_manager c)).
    { intros _. destruct (RouterManager._routers (router_manager c)) eqn:Ers;
        [left; reflexivity|].
      right. apply (fresh_ready _ _ _ Hrm Hpre). rewrite Ers. discriminate. }
    destruct (loop_uncaught_is_aborted _ _ _ _ _ _ Hstart El) as (n' & p & sc & Hn).
    eauto 6.
Qed.

End Connect.

Lemma new_connection_outcomes_witness :
  @Raise unit (TimeoutError
           "All server connection attempts were aborted. Timeout of 10000 ms was exceeded for each selected server")
  = Ok tt
  \/ (exists n p sc e,
         ConnectionSamples.always_times_out n p
           (_connect_timeout ConnectionSamples.cnx_two) = Aborted e sc
         /\ @Raise unit (TimeoutError
                     "All server connection attempts were aborted. Timeout of 10000 ms was exceeded for each selected server")
            = Raise e)
  \/ (exists error,
         is_Some error
         /\ @Raise unit (TimeoutError
                     "All server connection attempts were aborted. Timeout of 10000 ms was exceeded for each selected server")
            = Raise (connect_failure FailoverSamples.cnx_two_exhausted error)).
Proof.
  apply (new_connection_outcomes RouterSamples.first_of_turn
           ConnectionSamples.always_times_out
           ltac:(intros n lo hi H; unfold RouterSamples.first_of_turn; lia)
           ConnectionSamples.two_routers
           (snd (__init__ ConnectionSamples.two_routers None)) None
           ConnectionSamples.cnx_two FailoverSamples.cnx_two_exhausted).
  - vm_compute. reflexivity.
  - unfold none_preset_unavailable.
    repeat (constructor; [discriminate|]). constructor.
  - vm_compute. reflexivity.
Defined.

End ConnectionRobust.
